(** * AI web browsing agent: the client of the progress-event protocol

    The development embeds the TypeScript client of the repository
    (types/index.ts, pages/index.tsx, components/TaskInput.tsx,
    components/Chat.tsx) and the parts of the action loop that the
    specification describes.

    - [Js]              : the JavaScript values a parsed frame carries;
    - [Text]            : lower case, white space, containment;
    - [BrowsingTask], [ChatMessage], [ScreenshotData], [StatusUpdate],
      [WebSocketUpdate] : the interfaces of types/index.ts;
    - [Index]           : the [Home] page: [ws.onmessage],
                          [connectWebSocket], [handleSubmitTask];
    - [TaskInput], [Chat], [Screenshot] : the form with its submit guard,
                          the chat panel, the screenshot panel;
    - [HomeView]        : what [Home] hands to its panels;
    - [Page], [Tab]     : the handlers of one instance of [Home] as the
                          browser calls them, and [Home] unmounted and
                          mounted anew;
    - [Core], [Resolver], [Loop] : the run registry, the selector resolver
                          and the loop controller of the specification. *)

From Stdlib Require Import ZArith String Ascii List Bool Lia DecimalString.
From stdpp Require Import base gmap strings list.
Import ListNotations.

Local Open Scope string_scope.
Local Open Scope Z_scope.

(* ===================================================================== *)
(** ** JavaScript values                                                  *)
(* ===================================================================== *)

Local Set Warnings "-register-all".

Module Js.

(** The values [JSON.parse] builds, and [undefined] for a property that
    is missing.  A number is [JNum n] when it is an integer with
    [|n| < 2^53], which JavaScript prints as its decimal digits (the
    results of [Date.now()] and of [.length] are such); any other number
    is a [JFloat], given by the text JavaScript prints for it and by
    whether it is greater than 0 (it is never 0).  An array holds its
    elements, an object its own properties, each key once, in insertion
    order; nothing [JSON.parse] builds is callable.  A string stands for
    its UTF-8 bytes. *)
Inductive jsval : Type :=
  | JUndefined
  | JNull
  | JBool (b : bool)
  | JNum (n : Z)
  | JFloat (text : string) (positive : bool)
  | JStr (s : string)
  | JArr (elements : list jsval)
  | JObj (members : list (string * jsval)).

#[export] Instance jsval_eq_dec : EqDecision jsval.
Proof.
  unfold EqDecision, Decision.
  fix IH 1. intros v w.
  destruct v as [| |b|n|t p|s|l|m], w as [| |b'|n'|t' p'|s'|l'|m'];
    try (right; discriminate); try (left; reflexivity).
  - destruct (Bool.bool_dec b b'); [left; congruence | right; congruence].
  - destruct (Z.eq_dec n n'); [left; congruence | right; congruence].
  - destruct (String.string_dec t t'); [| right; congruence].
    destruct (Bool.bool_dec p p'); [left; congruence | right; congruence].
  - destruct (String.string_dec s s'); [left; congruence | right; congruence].
  - assert (Hl : {l = l'} + {l ≠ l'}).
    { revert l'. induction l as [|x l IHl]; intros [|y l'];
        try (right; discriminate); try (left; reflexivity).
      destruct (IH x y); [| right; congruence].
      destruct (IHl l'); [left; congruence | right; congruence]. }
    destruct Hl; [left; congruence | right; congruence].
  - assert (Hl : {m = m'} + {m ≠ m'}).
    { revert m'. induction m as [|[k x] m IHm]; intros [|[k' y] m'];
        try (right; discriminate); try (left; reflexivity).
      destruct (String.string_dec k k'); [| right; congruence].
      destruct (IH x y); [| right; congruence].
      destruct (IHm m'); [left; congruence | right; congruence]. }
    destruct Hl; [left; congruence | right; congruence].
Defined.

(** The values that stand for a value of the program: the integer of a
    [JNum] is in the range that is printed as digits, and the text of a
    [JFloat] is not empty. *)
Fixpoint wf (v : jsval) : bool :=
  match v with
  | JNum n => Z.abs n <? 2 ^ 53
  | JFloat text _ => negb (String.eqb text "")
  | JArr elements => forallb wf elements
  | JObj members => forallb (fun kv => let '(_, x) := kv in wf x) members
  | _ => true
  end.

(** An own property of a nested object; [undefined] when it is missing. *)
Fixpoint own (members : list (string * jsval)) (k : string) : jsval :=
  match members with
  | [] => JUndefined
  | (k', v) :: rest => if String.eqb k' k then v else own rest k
  end.

Definition has_own (members : list (string * jsval)) (k : string) : bool :=
  existsb (fun kv => String.eqb kv.1 k) members.

(** ToBoolean: an array and an object are true. *)
Definition truthy (v : jsval) : bool :=
  match v with
  | JUndefined | JNull => false
  | JBool b => b
  | JNum n => negb (n =? 0)
  | JFloat _ _ => true
  | JStr s => negb (String.eqb s "")
  | JArr _ | JObj _ => true
  end.

(** [v.length]: a TypeError ([None]) on [undefined] and [null]; the
    length of a string or of an array; the own property [length] of an
    object; [undefined] on booleans and numbers.  The length of a string
    is counted in bytes, which is 0 exactly when the number of its code
    units is: the program prints the length in a log and compares it
    with 0, and does nothing else with it. *)
Definition dot_length (v : jsval) : option jsval :=
  match v with
  | JUndefined | JNull => None
  | JStr s => Some (JNum (Z.of_nat (String.length s)))
  | JArr elements => Some (JNum (Z.of_nat (length elements)))
  | JObj members => Some (own members "length")
  | JBool _ | JNum _ | JFloat _ _ => Some JUndefined
  end.

(** [v === 'lit'] for a string literal. *)
Definition strict_eq_str (v : jsval) (lit : string) : bool :=
  match v with
  | JStr s => String.eqb s lit
  | _ => false
  end.

(** [`${v}`]: ToString inside a template literal; [None] when it throws.
    An array joins the texts of its elements with commas, [null] and
    [undefined] giving the empty text.  An object prints as
    "[object Object]", unless it has an own property [toString]: that one
    is not callable, the inherited [valueOf] returns the object itself,
    and the conversion throws a TypeError. *)
Fixpoint to_template (v : jsval) : option string :=
  match v with
  | JUndefined => Some "undefined"
  | JNull => Some "null"
  | JBool true => Some "true"
  | JBool false => Some "false"
  | JNum n => Some (NilZero.string_of_int (Z.to_int n))
  | JFloat text _ => Some text
  | JStr s => Some s
  | JArr elements =>
      (fix join (l : list jsval) : option string :=
         match l with
         | [] => Some ""
         | e :: rest =>
             let text :=
               match e with
               | JUndefined | JNull => Some ""
               | _ => to_template e
               end in
             match text, rest with
             | None, _ => None
             | Some t, [] => Some t
             | Some t, _ :: _ =>
                 match join rest with
                 | None => None
                 | Some ts => Some (t +:+ "," +:+ ts)
                 end
             end
         end) elements
  | JObj members =>
      if has_own members "toString" then None else Some "[object Object]"
  end.

(** *** StringToNumber, as far as [x > 0] needs it *)

Definition code (c : ascii) : N := N_of_ascii c.

Definition is_digit (c : ascii) : bool :=
  ((48 <=? code c) && (code c <=? 57))%N.

(** The value of a digit in base 16, 8 or 2, if it is one. *)
Definition digit_in (base : N) (c : ascii) : option N :=
  let n := code c in
  let d :=
    if ((48 <=? n) && (n <=? 57))%N then Some (n - 48)%N
    else if ((97 <=? n) && (n <=? 102))%N then Some (n - 87)%N
    else if ((65 <=? n) && (n <=? 70))%N then Some (n - 55)%N
    else None in
  match d with
  | Some x => if (x <? base)%N then Some x else None
  | None => None
  end.

(** White space and line terminators: one, two or three bytes. *)
Definition ws1 (a : ascii) : bool :=
  let n := code a in
  ((n =? 9) || (n =? 10) || (n =? 11) || (n =? 12) || (n =? 13) || (n =? 32))%N.
Definition ws2 (a b : ascii) : bool :=
  ((code a =? 194) && (code b =? 160))%N.
Definition ws3 (a b c : ascii) : bool :=
  let x := code a in let y := code b in let z := code c in
  (((x =? 225) && (y =? 154) && (z =? 128))
   || ((x =? 226) && (y =? 128)
       && (((128 <=? z) && (z <=? 138)) || (z =? 168) || (z =? 169) || (z =? 175)))
   || ((x =? 226) && (y =? 129) && (z =? 159))
   || ((x =? 227) && (y =? 128) && (z =? 128))
   || ((x =? 239) && (y =? 187) && (z =? 191)))%N.

Fixpoint trim_left (l : list ascii) : list ascii :=
  match l with
  | [] => []
  | a :: l1 =>
      if ws1 a then trim_left l1
      else
        match l1 with
        | [] => l
        | b :: l2 =>
            if ws2 a b then trim_left l2
            else
              match l2 with
              | [] => l
              | c :: l3 => if ws3 a b c then trim_left l3 else l
              end
        end
  end.

(** The same from the end, on the reversed text. *)
Fixpoint trim_right_rev (l : list ascii) : list ascii :=
  match l with
  | [] => []
  | a :: l1 =>
      if ws1 a then trim_right_rev l1
      else
        match l1 with
        | [] => l
        | b :: l2 =>
            if ws2 b a then trim_right_rev l2
            else
              match l2 with
              | [] => l
              | c :: l3 => if ws3 c b a then trim_right_rev l3 else l
              end
        end
  end.

Definition trim (l : list ascii) : list ascii :=
  rev (trim_right_rev (rev (trim_left l))).

Fixpoint span_digits (l : list ascii) : list ascii * list ascii :=
  match l with
  | c :: rest =>
      if is_digit c then
        let '(ds, r) := span_digits rest in (c :: ds, r)
      else ([], l)
  | [] => ([], [])
  end.

Definition digits_value (ds : list ascii) : Z :=
  fold_left (fun acc c => 10 * acc + (Z.of_N (code c) - 48)) ds 0.

(** The exponent part: [None] when the rest is no exponent part. *)
Definition exponent (l : list ascii) : option Z :=
  match l with
  | [] => Some 0
  | c :: rest =>
      if ((code c =? 101) || (code c =? 69))%N then
        let '(negative, rest') :=
          match rest with
          | s :: r =>
              if (code s =? 45)%N then (true, r)
              else if (code s =? 43)%N then (false, r)
              else (false, rest)
          | [] => (false, rest)
          end in
        match span_digits rest' with
        | ((_ :: _) as ds, []) =>
            Some (if negative then - digits_value ds else digits_value ds)
        | _ => None
        end
      else None
  end.

(** Whether an unsigned decimal literal reads as a number greater than
    0: its digits are not all 0, and it does not round to 0, which the
    values up to [2^-1075] do. *)
Definition decimal_positive (l : list ascii) : bool :=
  if bool_decide (l = list_ascii_of_string "Infinity") then true
  else
    let '(int, r1) := span_digits l in
    let '(frac, r2) :=
      match r1 with
      | c :: r => if (code c =? 46)%N then span_digits r else ([], r1)
      | [] => ([], r1)
      end in
    match (int ++ frac)%list, exponent r2 with
    | [], _ | _, None => false
    | (_ :: _) as ds, Some e =>
        let m := digits_value ds in
        let x := e - Z.of_nat (length frac) in
        (0 <? m) && ((0 <=? x) || (10 ^ (- x) <? m * 2 ^ 1075))
    end.

(** A literal of base 16, 8 or 2 after its prefix. *)
Definition based_positive (base : N) (l : list ascii) : bool :=
  match l with
  | [] => false
  | _ =>
      forallb (fun c => bool_decide (is_Some (digit_in base c))) l
      && existsb (fun c => negb (code c =? 48)%N) l
  end.

(** [ToNumber(s) > 0]. *)
Definition string_gt_zero (s : string) : bool :=
  match trim (list_ascii_of_string s) with
  | [] => false
  | a :: rest =>
      let based :=
        match rest with
        | b :: digits =>
            if (code a =? 48)%N then
              if ((code b =? 120) || (code b =? 88))%N then Some (16%N, digits)
              else if ((code b =? 111) || (code b =? 79))%N then Some (8%N, digits)
              else if ((code b =? 98) || (code b =? 66))%N then Some (2%N, digits)
              else None
            else None
        | [] => None
        end in
      match based with
      | Some (base, digits) => based_positive base digits
      | None =>
          if (code a =? 45)%N then false
          else if (code a =? 43)%N then decimal_positive rest
          else decimal_positive (a :: rest)
      end
  end.

(** [v > 0]; [None] when converting [v] throws.  An array and an object
    are compared through the text they print as. *)
Definition gt_zero (v : jsval) : option bool :=
  match v with
  | JUndefined | JNull => Some false
  | JBool b => Some b
  | JNum n => Some (0 <? n)
  | JFloat _ positive => Some positive
  | JStr s => Some (string_gt_zero s)
  | JArr _ | JObj _ =>
      match to_template v with
      | Some s => Some (string_gt_zero s)
      | None => None
      end
  end.

(** A parsed object: its own properties.  [o .[ k ]] is the read [o.k]. *)
Definition prop (o : gmap string jsval) (k : string) : jsval :=
  default JUndefined (o !! k).

(** What [JSON.parse(event.data)] gives: a SyntaxError, [null], an object,
    or a scalar or array (on which every property the handler reads is
    [undefined]). *)
Inductive parsed : Type :=
  | SyntaxError
  | Null
  | Object (o : gmap string jsval)
  | Other.

End Js.
Export Js.

Notation "o .[ k ]" := (Js.prop o k) (at level 1, k at level 200, format "o .[ k ]").

(* ===================================================================== *)
(** ** Text                                                               *)
(* ===================================================================== *)

Module Text.

(** Lower case of the letters A to Z; other characters stay. *)
Definition lower_ascii (c : ascii) : ascii :=
  let n := nat_of_ascii c in
  if ((65 <=? n) && (n <=? 90))%nat then ascii_of_nat (n + 32) else c.

Fixpoint lower (s : string) : string :=
  match s with
  | EmptyString => EmptyString
  | String c s' => String (lower_ascii c) (lower s')
  end.

Definition is_space (c : ascii) : bool :=
  let n := nat_of_ascii c in
  ((n =? 32) || (n =? 9) || (n =? 10) || (n =? 13))%nat.

(** Runs of white space become one space; [pending] tells that a space is
    due before the next visible character. *)
Fixpoint squeeze (pending started : bool) (s : string) : string :=
  match s with
  | EmptyString => EmptyString
  | String c s' =>
      if is_space c then squeeze started started s'
      else if pending then String " "%char (String c (squeeze false true s'))
      else String c (squeeze false true s')
  end.

Definition normalize (s : string) : string := squeeze false false (lower s).

Fixpoint contains (needle hay : string) : bool :=
  String.prefix needle hay ||
  match hay with
  | EmptyString => false
  | String _ hay' => contains needle hay'
  end.

(** [s.endsWith(suffix)]. *)
Fixpoint ends_with (suffix s : string) : bool :=
  String.eqb suffix s ||
  match s with
  | EmptyString => false
  | String _ s' => ends_with suffix s'
  end.

(** [s.replace(pat, rep)] for a string pattern: the first occurrence of
    [pat] is replaced. *)
Fixpoint replace_first (pat rep s : string) : string :=
  if String.prefix pat s then
    rep +:+ String.substring (String.length pat)
              (String.length s - String.length pat) s
  else
    match s with
    | EmptyString => EmptyString
    | String c s' => String c (replace_first pat rep s')
    end.

End Text.

(* ===================================================================== *)
(** ** types/index.ts                                                     *)
(* ===================================================================== *)

Module BrowsingTask.
Record t : Type := mk { url : string; instruction : string }.
End BrowsingTask.

Inductive sender : Type := user | agent.

(** [content] and [timestamp] hold what the handler stores: for an agent
    message the raw [data.content] and [data.timestamp]. *)
Module ChatMessage.
Record t : Type := mk { id : string; content : jsval; type : sender; timestamp : jsval }.
End ChatMessage.

Module ScreenshotData.
Record t : Type := mk { imageData : jsval; timestamp : jsval }.
End ScreenshotData.

Module StatusUpdate.
Record t : Type := mk { status : jsval; timestamp : jsval }.
End StatusUpdate.

(** [WebSocketUpdate]: the declared shape of a frame, as a check on a parsed
    object.  Each alternative lists its required members with their types;
    [thinking] is optional in a message.  TypeScript's structural typing
    allows further members.  The [action] alternative, whose [details] is
    an object, is only logged by the client and has no check here. *)
Module WebSocketUpdate.

Definition is_string (v : jsval) : bool :=
  match v with JStr _ => true | _ => false end.
Definition is_number (v : jsval) : bool :=
  match v with JNum _ | JFloat _ _ => true | _ => false end.
Definition optional (p : jsval -> bool) (v : jsval) : bool :=
  match v with JUndefined => true | _ => p v end.

Definition screenshot (o : gmap string jsval) : bool :=
  strict_eq_str (o.["type"]) "screenshot"
  && is_string (o.["image_data"]) && is_number (o.["timestamp"]).
Definition message (o : gmap string jsval) : bool :=
  strict_eq_str (o.["type"]) "message"
  && is_string (o.["content"]) && optional is_string (o.["thinking"])
  && is_number (o.["timestamp"]).
Definition status (o : gmap string jsval) : bool :=
  strict_eq_str (o.["type"]) "status"
  && is_string (o.["status"]) && is_number (o.["timestamp"]).
Definition error (o : gmap string jsval) : bool :=
  strict_eq_str (o.["type"]) "error"
  && is_string (o.["message"]) && is_number (o.["timestamp"]).
Definition ping (o : gmap string jsval) : bool :=
  strict_eq_str (o.["type"]) "ping" && is_number (o.["timestamp"]).

End WebSocketUpdate.

(* ===================================================================== *)
(** ** pages/index.tsx                                                    *)
(* ===================================================================== *)

Module Index.

(** What a handler reads from outside the program during one call: the
    two [Date.now()] and [uuidv4()] results it may need (the second ones
    are read in a [catch] block), and whether [new WebSocket] or
    [socket.send] throws. *)
Record Ambient : Type := mkAmbient {
  Date_now : Z;
  Date_now' : Z;
  uuidv4 : string;
  uuidv4' : string;
  WebSocket_throws : bool;
  send_throws : bool
}.

(** [WebSocket.readyState]. *)
Inductive readyState : Type := CONNECTING | OPEN | CLOSING | CLOSED.

Definition readyState_code (r : readyState) : nat :=
  match r with CONNECTING => 0 | OPEN => 1 | CLOSING => 2 | CLOSED => 3 end.

(** The module-level variables. *)
Record Globals : Type := mkGlobals {
  globalWebSocket : option readyState;
  connectionAttemptCount : nat;
  connectionInProgress : bool
}.

(** The state of the [Home] component: its [useState] cells and
    [mountedRef]. *)
Record Home : Type := mkHome {
  messages : list ChatMessage.t;
  screenshot : option ScreenshotData.t;
  status : option StatusUpdate.t;
  isConnected : bool;
  isLoading : bool;
  hasError : bool;
  lastUpdateTime : Z;
  connectionAttempts : nat;
  mountedRef : bool
}.

Definition setMessages (f : list ChatMessage.t -> list ChatMessage.t) (st : Home) : Home :=
  mkHome (f (messages st)) (screenshot st) (status st) (isConnected st)
         (isLoading st) (hasError st) (lastUpdateTime st) (connectionAttempts st)
         (mountedRef st).
Definition setScreenshot (x : option ScreenshotData.t) (st : Home) : Home :=
  mkHome (messages st) x (status st) (isConnected st)
         (isLoading st) (hasError st) (lastUpdateTime st) (connectionAttempts st)
         (mountedRef st).
Definition setStatus (x : option StatusUpdate.t) (st : Home) : Home :=
  mkHome (messages st) (screenshot st) x (isConnected st)
         (isLoading st) (hasError st) (lastUpdateTime st) (connectionAttempts st)
         (mountedRef st).
Definition setIsConnected (x : bool) (st : Home) : Home :=
  mkHome (messages st) (screenshot st) (status st) x
         (isLoading st) (hasError st) (lastUpdateTime st) (connectionAttempts st)
         (mountedRef st).
Definition setIsLoading (x : bool) (st : Home) : Home :=
  mkHome (messages st) (screenshot st) (status st) (isConnected st)
         x (hasError st) (lastUpdateTime st) (connectionAttempts st)
         (mountedRef st).
Definition setHasError (x : bool) (st : Home) : Home :=
  mkHome (messages st) (screenshot st) (status st) (isConnected st)
         (isLoading st) x (lastUpdateTime st) (connectionAttempts st)
         (mountedRef st).
Definition setLastUpdateTime (x : Z) (st : Home) : Home :=
  mkHome (messages st) (screenshot st) (status st) (isConnected st)
         (isLoading st) (hasError st) x (connectionAttempts st)
         (mountedRef st).
Definition setConnectionAttempts (x : nat) (st : Home) : Home :=
  mkHome (messages st) (screenshot st) (status st) (isConnected st)
         (isLoading st) (hasError st) (lastUpdateTime st) x
         (mountedRef st).

(** An agent message, as the handlers build it. *)
Definition agent_message (id : string) (content timestamp : jsval) : ChatMessage.t :=
  ChatMessage.mk id content agent timestamp.

(** How the [try] block of [ws.onmessage] ends: normally (by [return],
    [break] or falling off the [switch]) or by a thrown exception.  The
    state updates made before the exception stay. *)
Inductive completion : Type :=
  | Normal (st : Home)
  | Thrown (st : Home).

(** [data.image_data && data.image_data.length > 0]: the image passes when
    it is true as a condition and its length is greater than 0, as a
    non-empty string and a non-empty array are. *)
Definition has_image (image_data : jsval) : bool :=
  truthy image_data
  && match dot_length image_data with
     | Some len => default false (gt_zero len)
     | None => false
     end.

(** [case 'screenshot'].  The log of the length reads
    [data.image_data.length] and prints it in a template, before the
    test. *)
Definition case_screenshot (o : gmap string jsval) (st : Home) : completion :=
  match dot_length (o.["image_data"]) with
  | None => Thrown st
  | Some len =>
      match to_template len with
      | None => Thrown st
      | Some _ =>
          if truthy (o.["image_data"]) then
            match gt_zero len with
            | None => Thrown st
            | Some true =>
                let newScreenshot :=
                  ScreenshotData.mk (o.["image_data"]) (o.["timestamp"]) in
                Normal (setHasError false (setScreenshot (Some newScreenshot) st))
            | Some false => Normal st
            end
          else Normal st
      end
  end.

(** [case 'message']. *)
Definition case_message (a : Ambient) (o : gmap string jsval) (st : Home) : Home :=
  setMessages (fun prev =>
    (prev ++ [agent_message (uuidv4 a) (o.["content"]) (o.["timestamp"])])%list) st.

(** [case 'status']. *)
Definition case_status (o : gmap string jsval) (st : Home) : Home :=
  let st1 := setStatus (Some (StatusUpdate.mk (o.["status"]) (o.["timestamp"]))) st in
  if strict_eq_str (o.["status"]) "Task completed" then setIsLoading false st1
  else st1.

(** The content of the message of [case 'error']: the template
    [`Error: ${data.message}`].  It is evaluated inside the updater given
    to [setMessages], which React runs while it renders [Home]; when the
    conversion of [data.message] throws, it does so there.  The raw value
    is then kept as the content, on which rendering throws as well. *)
Definition error_content (message : jsval) : jsval :=
  match to_template message with
  | Some text => JStr ("Error: " +:+ text)
  | None => message
  end.

(** [case 'error']. *)
Definition case_error (a : Ambient) (o : gmap string jsval) (st : Home) : Home :=
  setHasError true (setIsLoading false (setMessages (fun prev =>
    (prev ++ [agent_message (uuidv4 a) (error_content (o.["message"]))
                (o.["timestamp"])])%list) st)).

(** The [try] block on an object, once the component is known mounted.
    It starts by printing [data.type] in a template, and [case 'action']
    prints [data.action]; either conversion may throw.  The [default]
    branch prints [data.type] again, which succeeds as it did the first
    time; [logMessageSize] prints the length of [JSON.stringify(data)],
    a string for every value [JSON.parse] builds. *)
Definition try_object (a : Ambient) (o : gmap string jsval) (st : Home) : completion :=
  match to_template (o.["type"]) with
  | None => Thrown st
  | Some _ =>
      if strict_eq_str (o.["type"]) "ping" then Normal st
      else if strict_eq_str (o.["type"]) "status"
              && strict_eq_str (o.["status"]) "Connected"
      then Normal (setIsConnected true st)
      else
        let st1 := setLastUpdateTime (Date_now a) st in
        if strict_eq_str (o.["type"]) "screenshot" then case_screenshot o st1
        else if strict_eq_str (o.["type"]) "message" then Normal (case_message a o st1)
        else if strict_eq_str (o.["type"]) "status" then Normal (case_status o st1)
        else if strict_eq_str (o.["type"]) "error" then Normal (case_error a o st1)
        else if strict_eq_str (o.["type"]) "action" then
          match to_template (o.["action"]) with
          | None => Thrown st1
          | Some _ => Normal st1
          end
        else Normal st1
  end.

(** The outer [catch]. *)
Definition catch_block (a : Ambient) (st : Home) : Home :=
  if mountedRef st then
    setHasError true (setIsLoading false (setMessages (fun prev =>
      (prev ++ [agent_message (uuidv4' a)
                  (JStr "Error: Failed to process response from server.")
                  (JNum (Date_now' a))])%list) st))
  else st.

(** [ws.onmessage]. *)
Definition onmessage (a : Ambient) (data : parsed) (st : Home) : Home :=
  match data with
  | SyntaxError => st
  | _ =>
      if negb (mountedRef st) then st
      else
        let c :=
          match data with
          | Null => Thrown st                 (* [data.type] on [null] *)
          | Object o => try_object a o st
          | _ => try_object a ∅ st
          end in
        match c with
        | Normal st' => st'
        | Thrown st' => catch_block a st'
        end
  end.

(** [connectWebSocket]: what the call does before it returns.  The
    handlers it installs on a new socket run later, as events arrive. *)
Definition connectWebSocket (a : Ambient) (g : Globals) (st : Home) : Globals * Home :=
  match globalWebSocket g with
  | Some OPEN => (g, setIsConnected true st)
  | sock =>
      if connectionInProgress g then (g, st)
      else
        match sock with
        | Some CONNECTING => (g, st)
        | _ =>
            (* a socket that is closing or closed is dropped *)
            let count := S (connectionAttemptCount g) in
            let st1 := setConnectionAttempts count st in
            if WebSocket_throws a then (mkGlobals None count false, st1)
            else (mkGlobals (Some CONNECTING) count true, st1)
        end
  end.

(** [!globalWebSocket || globalWebSocket.readyState !== WebSocket.OPEN],
    negated. *)
Definition socket_open (g : Globals) : bool :=
  match globalWebSocket g with
  | Some OPEN => true
  | _ => false
  end.

Definition newline : string := String (ascii_of_nat 10) EmptyString.

(** [JSON.stringify(task)], kept as the JSON document it writes: the
    members of the object in their order. *)
Definition JSON_stringify (task : BrowsingTask.t) : list (string * jsval) :=
  [("url", JStr (BrowsingTask.url task));
   ("instruction", JStr (BrowsingTask.instruction task))].

(** What a call of [handleSubmitTask] leaves behind: the variables, the
    frames given to [globalWebSocket.send], and the task its
    [setTimeout(..., 2000)] callback holds, when it set one. *)
Record Outcome : Type := mkOutcome {
  globals : Globals;
  home : Home;
  sent : list (list (string * jsval));
  timeout : option BrowsingTask.t
}.

(** [handleSubmitTask]. *)
Definition handleSubmitTask (a : Ambient) (task : BrowsingTask.t)
    (g : Globals) (st : Home) : Outcome :=
  let st1 := setScreenshot None (setHasError false st) in
  if negb (socket_open g) then
    let '(g', st2) := connectWebSocket a g st1 in
    let st3 := setMessages (fun prev =>
      (prev ++ [agent_message (uuidv4 a) (JStr "Connecting to server...")
                  (JNum (Date_now a))])%list) st2 in
    mkOutcome g' st3 [] (Some task)
  else
    let userMessage :=
      ChatMessage.mk (uuidv4 a)
        (JStr ("URL: " +:+ BrowsingTask.url task +:+ newline +:+
               "Task: " +:+ BrowsingTask.instruction task))
        user (JNum (Date_now a)) in
    let st2 := setIsLoading true
                 (setMessages (fun prev => (prev ++ [userMessage])%list) st1) in
    if send_throws a then
      mkOutcome g
        (setIsLoading false (setMessages (fun prev =>
           (prev ++ [agent_message (uuidv4' a)
                       (JStr "Error: Could not send task to server. Please try again.")
                       (JNum (Date_now' a))])%list) st2))
        [] None
    else mkOutcome g st2 [JSON_stringify task] None.

(** The callback of the timeout that [handleSubmitTask] sets: it runs
    with the variables as they are two seconds later. *)
Definition retry_callback (a : Ambient) (task : BrowsingTask.t)
    (g : Globals) (st : Home) : Outcome :=
  if socket_open g then handleSubmitTask a task g st
  else
    mkOutcome g
      (setMessages (fun prev =>
         (prev ++ [agent_message (uuidv4 a)
                     (JStr "Error: Could not connect to server. Please try again.")
                     (JNum (Date_now a))])%list) st)
      [] None.

(** ** The socket handlers and the mount effect *)

Definition setMountedRef (x : bool) (st : Home) : Home :=
  mkHome (messages st) (screenshot st) (status st) (isConnected st)
         (isLoading st) (hasError st) (lastUpdateTime st) (connectionAttempts st)
         x.

(** The browser changes [readyState] before it calls a handler. *)
Definition with_readyState (r : readyState) (g : Globals) : Globals :=
  match globalWebSocket g with
  | Some _ => mkGlobals (Some r) (connectionAttemptCount g) (connectionInProgress g)
  | None => g
  end.

(** [ws.onopen]. *)
Definition onopen (g : Globals) (st : Home) : Globals * Home :=
  (mkGlobals (globalWebSocket g) 0 false,
   setConnectionAttempts 0 (setIsConnected true st)).

(** [Math.min(30000, (connectionAttemptCount + 1) * 2000)]. *)
Definition reconnectDelay (g : Globals) : Z :=
  Z.min 30000 ((Z.of_nat (connectionAttemptCount g) + 1) * 2000).

(** [ws.onclose].  [reconnectTimeoutRef] holds the delay of the pending
    reconnect timer, if there is one. *)
Definition onclose (code : Z) (g : Globals) (reconnectTimeoutRef : option Z)
    (st : Home) : Globals * option Z * Home :=
  let st1 := setIsConnected false st in
  let g1 := mkGlobals (globalWebSocket g) (connectionAttemptCount g) false in
  if negb (code =? 1000)
     && negb (bool_decide (is_Some reconnectTimeoutRef))
     && mountedRef st
  then (g1, Some (reconnectDelay g1), st1)
  else (g1, reconnectTimeoutRef, st1).

(** The callback of the reconnect timer. *)
Definition reconnect_callback (a : Ambient) (g : Globals) (st : Home)
    : Globals * option Z * Home :=
  if mountedRef st then
    let '(g', st') := connectWebSocket a g st in (g', None, st')
  else (g, None, st).

(** [ws.onerror]. *)
Definition onerror (a : Ambient) (g : Globals) (st : Home) : Home :=
  if (2 <? connectionAttemptCount g)%nat && mountedRef st then
    setHasError true (setIsLoading false (setMessages (fun prev =>
      (prev ++ [agent_message (uuidv4 a)
                  (JStr "Error: Connection failed after multiple attempts. Check server status.")
                  (JNum (Date_now a))])%list) st))
  else st.

(** The delay of the first connection in the mount effect. *)
Definition connectionDelay (g : Globals) : Z :=
  if (connectionAttemptCount g =? 0)%nat then 0
  else Z.min 5000 (Z.of_nat (connectionAttemptCount g) * 1000).

(** The state of an instance of [Home] when it is created: the initial
    values of its [useState] cells and of [mountedRef];
    [connectionAttempts] starts at the count of the module. *)
Definition created (g : Globals) : Home :=
  mkHome [] None None false false false 0 (connectionAttemptCount g) false.

(** The mount effect: the state it leaves and the delay of the connection
    timer it sets, if any. *)
Definition mount_effect (g : Globals) (st : Home) : Home * option Z :=
  let st1 := setMountedRef true st in
  match globalWebSocket g with
  | None | Some CLOSING | Some CLOSED => (st1, Some (connectionDelay g))
  | Some OPEN => (setIsConnected true st1, None)
  | Some CONNECTING => (st1, None)
  end.

(** The callback of the connection timer. *)
Definition mount_callback (a : Ambient) (g : Globals) (st : Home)
    : Globals * Home :=
  if mountedRef st then connectWebSocket a g st else (g, st).

(** The cleanup of the mount effect: the socket is kept. *)
Definition unmount_cleanup (reconnectTimeoutRef : option Z) (st : Home)
    : option Z * Home :=
  (None, setMountedRef false st).

End Index.

(* ===================================================================== *)
(** ** components/TaskInput.tsx                                           *)
(* ===================================================================== *)

Module TaskInput.

Record Props : Type := mkProps { isLoading : bool; disabled : bool }.

(** The [useState] cells.  The effect that sets the warning from the
    host name of [url] is not embedded. *)
Record State : Type := mkState {
  url : string;
  instruction : string;
  showWarning : bool;
  warningMessage : string
}.

(** [handleSubmit]: the task given to [onSubmit], if any. *)
Definition handleSubmit (s : State) : option BrowsingTask.t :=
  if truthy (JStr (url s)) && truthy (JStr (instruction s))
  then Some (BrowsingTask.mk (url s) (instruction s))
  else None.

(** The [disabled] attribute of the submit button. *)
Definition submit_disabled (p : Props) (s : State) : bool :=
  isLoading p || negb (truthy (JStr (url s)))
  || negb (truthy (JStr (instruction s))) || disabled p.

(** A submit event of the form inside [Home], whose [onSubmit] is
    [handleSubmitTask]. *)
Definition submit (a : Index.Ambient) (s : State) (g : Index.Globals)
    (st : Index.Home) : Index.Outcome :=
  match handleSubmit s with
  | Some task => Index.handleSubmitTask a task g st
  | None => Index.mkOutcome g st [] None
  end.

(** ** The warning on restricted domains *)

Definition restrictedDomains : list string :=
  ["chase.com"; "bankofamerica.com"; "wellsfargo.com"; "citi.com";
   "americanexpress.com"; "discover.com"; "capitalone.com"; "usbank.com";
   "paypal.com"; "stripe.com"; "coinbase.com"; "robinhood.com"].

Definition setShowWarning (x : bool) (s : State) : State :=
  mkState (url s) (instruction s) x (warningMessage s).
Definition setWarningMessage (x : string) (s : State) : State :=
  mkState (url s) (instruction s) (showWarning s) x.

(** [domain === d || domain.endsWith(`.${d}`)] for some restricted [d]. *)
Definition isRestricted (domain : string) : bool :=
  existsb (fun d => String.eqb domain d || Text.ends_with ("." +:+ d) domain)
          restrictedDomains.

Section DomainWarning.

(** [new URL(url).hostname], which the browser computes; [None] when the
    constructor throws. *)
Variable URL_hostname : string → option string.

(** The effect that runs when [url] changes. *)
Definition check_url (s : State) : State :=
  if negb (truthy (JStr (url s))) then setShowWarning false s
  else
    match URL_hostname (url s) with
    | None => setShowWarning false s
    | Some hostname =>
        let domain := Text.replace_first "www." "" hostname in
        if isRestricted domain then
          setWarningMessage
            ("Warning: " +:+ domain +:+
             " has strong anti-automation protections and may not work well with this tool. Consider using a different site for testing.")
            (setShowWarning true s)
        else setShowWarning false s
    end.

End DomainWarning.

End TaskInput.

(* ===================================================================== *)
(** ** components/Chat.tsx                                                *)
(* ===================================================================== *)

Module Chat.

(** The class of the status line:
    [status.status.toLowerCase().includes('error') ? 'text-red-500' : ''],
    with the lower case of the letters A to Z. *)
Definition status_class (status : string) : string :=
  if Text.contains "error" (Text.lower status) then "text-red-500" else "".

(** [content.toLowerCase().includes('error')]. *)
Definition includes_error (content : string) : bool :=
  Text.contains "error" (Text.lower content).

(** What a message is rendered as: the error block with its heading
    "Error Encountered" and the list of solutions, or the bare markdown. *)
Inductive body : Type :=
  | ErrorBlock (markdown : string)
  | Plain (markdown : string).

Record MessageView : Type := mkMessageView {
  key : string;
  className : string;
  rendered : body
}.

(** One element of [messages.map]; [None] when [content.toLowerCase]
    throws, which it does on anything but a string. *)
Definition message_view (m : ChatMessage.t) : option MessageView :=
  match ChatMessage.content m with
  | JStr content =>
      Some (mkMessageView (ChatMessage.id m)
        ("chat-message " +:+
         match ChatMessage.type m with
         | user => "user-message"
         | agent => "agent-message"
         end +:+ " " +:+
         (if includes_error content then "error-message" else ""))
        match ChatMessage.type m with
        | agent => if includes_error content then ErrorBlock content
                   else Plain content
        | user => Plain content
        end)
  | _ => None
  end.

Fixpoint message_views (ms : list ChatMessage.t) : option (list MessageView) :=
  match ms with
  | [] => Some []
  | m :: ms' =>
      match message_view m with
      | None => None
      | Some v =>
          match message_views ms' with
          | None => None
          | Some vs => Some (v :: vs)
          end
      end
  end.

(** The status line: its class and its text. *)
Definition status_view (u : StatusUpdate.t) : option (string * string) :=
  match StatusUpdate.status u with
  | JStr s => Some ("status-indicator " +:+ status_class s, s)
  | _ => None
  end.

Inductive view : Type :=
  | GetStarted
  | History (ms : list MessageView) (status_line : option (string * string)).

(** The component: [None] when rendering throws. *)
Definition render (messages : list ChatMessage.t)
    (status : option StatusUpdate.t) : option view :=
  match messages with
  | [] => Some GetStarted
  | _ =>
      match message_views messages with
      | None => None
      | Some vs =>
          match status with
          | None => Some (History vs None)
          | Some u =>
              match status_view u with
              | None => None
              | Some line => Some (History vs (Some line))
              end
          end
      end
  end.

End Chat.

(* ===================================================================== *)
(** ** components/Screenshot.tsx                                          *)
(* ===================================================================== *)

Module Screenshot.

Inductive icon : Type := ErrorIcon | MonitorIcon.

(** What is shown while there is no screenshot. *)
Record Placeholder : Type := mkPlaceholder {
  icon_path : icon;
  icon_class : string;
  title : string;
  hint : string;
  recommended : list string
}.

(** What the component gives: the image, the placeholder, or an
    exception thrown while it renders or in its effect. *)
Inductive view : Type :=
  | Img (src : string)
  | NoImage (p : Placeholder)
  | Throws.

(** The component.  The template of [src] converts [imageData] to a
    string, and the effect reads [imageData.length]. *)
Definition render (screenshot : option ScreenshotData.t) (hasError : bool) : view :=
  match screenshot with
  | Some s =>
      match to_template (ScreenshotData.imageData s),
            dot_length (ScreenshotData.imageData s) with
      | Some text, Some _ => Img ("data:image/jpeg;base64," +:+ text)
      | _, _ => Throws
      end
  | None =>
      NoImage
        (mkPlaceholder
           (if hasError then ErrorIcon else MonitorIcon)
           (if hasError then "text-red-400" else "text-gray-400")
           (if hasError then "Unable to capture webpage screenshot"
            else "No screenshot available")
           (if hasError then "Try a website with less security restrictions"
            else "Enter a URL and task to start browsing")
           (if hasError
            then ["wikipedia.org"; "github.com"; "nytimes.com"; "weather.gov";
                  "mozilla.org"]
            else []))
  end.

End Screenshot.

(* ===================================================================== *)
(** ** What [Home] renders                                                *)
(* ===================================================================== *)

Module HomeView.

(** [<Chat messages={messages} status={status} />]. *)
Definition chat (st : Index.Home) : option Chat.view :=
  Chat.render (Index.messages st) (Index.status st).

(** [<Screenshot screenshot={screenshot} hasError={hasError} />]. *)
Definition screenshot (st : Index.Home) : Screenshot.view :=
  Screenshot.render (Index.screenshot st) (Index.hasError st).

(** [<TaskInput isLoading={isLoading} disabled={!isConnected} />]. *)
Definition taskInputProps (st : Index.Home) : TaskInput.Props :=
  TaskInput.mkProps (Index.isLoading st) (negb (Index.isConnected st)).

End HomeView.

(* ===================================================================== *)
(** ** The page under the events of the browser                           *)
(* ===================================================================== *)

Module Page.

(** One instance of [Home] between two events: the module variables, the
    reconnect timer, the component state, the connection timers of the
    mount effect that have not fired, the tasks held by retry timers that
    have not fired (oldest first: they all wait two seconds), and the
    frames given to [send] so far.

    The state is that of one instance, from its creation on; the socket
    in [globalWebSocket], when there is one, was opened by this instance,
    so that its handlers hold the setters and the [mountedRef] of this
    instance.  What happens when [Home] is unmounted for good and a new
    instance is mounted is the matter of [Tab] below. *)
Record t : Type := mk {
  globals : Index.Globals;
  reconnectTimeoutRef : option Z;
  home : Index.Home;
  connectTimers : nat;
  retries : list BrowsingTask.t;
  sent : list (list (string * jsval))
}.

(** What the browser may call next.  [Setup] is a run of the mount
    effect of the instance and [Cleanup] a run of the cleanup the effect
    returns.  React runs them once each in the life of an instance, the
    cleanup when the instance is unmounted; in the strict mode of
    development it runs the effect, the cleanup and the effect again on
    the same instance, whose state and references stay: the sequence
    [Cleanup; Setup] is this second run, not a new instance.  After the
    cleanup that ends the instance no [Setup] follows; the handlers and
    timers it leaves behind may still be called. *)
Inductive event : Type :=
  | Frame (a : Index.Ambient) (data : parsed)
  | Opened
  | Closed (code : Z)
  | Failed (a : Index.Ambient)
  | ReconnectTimer (a : Index.Ambient)
  | Setup
  | ConnectTimer (a : Index.Ambient)
  | Cleanup
  | Submit (a : Index.Ambient) (form : TaskInput.State)
  | RetryTimer (a : Index.Ambient).

Definition after_outcome (r : Index.Outcome) (pending : list BrowsingTask.t)
    (p : t) : t :=
  mk (Index.globals r) (reconnectTimeoutRef p) (Index.home r) (connectTimers p)
     (pending ++ match Index.timeout r with Some task => [task] | None => [] end)%list
     (sent p ++ Index.sent r)%list.

(** The handler that runs on an event.  A socket event needs a socket, a
    timer event a timer that is set; otherwise nothing runs. *)
Definition react (e : event) (p : t) : t :=
  match e with
  | Frame a data =>
      mk (globals p) (reconnectTimeoutRef p) (Index.onmessage a data (home p))
         (connectTimers p) (retries p) (sent p)
  | Opened =>
      match Index.globalWebSocket (globals p) with
      | None => p
      | Some _ =>
          let '(g, st) :=
            Index.onopen (Index.with_readyState Index.OPEN (globals p)) (home p) in
          mk g (reconnectTimeoutRef p) st (connectTimers p) (retries p) (sent p)
      end
  | Closed code =>
      match Index.globalWebSocket (globals p) with
      | None => p
      | Some _ =>
          let '(g, ref, st) :=
            Index.onclose code (Index.with_readyState Index.CLOSED (globals p))
              (reconnectTimeoutRef p) (home p) in
          mk g ref st (connectTimers p) (retries p) (sent p)
      end
  | Failed a =>
      mk (globals p) (reconnectTimeoutRef p) (Index.onerror a (globals p) (home p))
         (connectTimers p) (retries p) (sent p)
  | ReconnectTimer a =>
      match reconnectTimeoutRef p with
      | None => p
      | Some _ =>
          let '(g, ref, st) := Index.reconnect_callback a (globals p) (home p) in
          mk g ref st (connectTimers p) (retries p) (sent p)
      end
  | Setup =>
      let '(st, timer) := Index.mount_effect (globals p) (home p) in
      mk (globals p) (reconnectTimeoutRef p) st
         (match timer with Some _ => S (connectTimers p) | None => connectTimers p end)
         (retries p) (sent p)
  | ConnectTimer a =>
      match connectTimers p with
      | O => p
      | S n =>
          let '(g, st) := Index.mount_callback a (globals p) (home p) in
          mk g (reconnectTimeoutRef p) st n (retries p) (sent p)
      end
  | Cleanup =>
      let '(ref, st) := Index.unmount_cleanup (reconnectTimeoutRef p) (home p) in
      mk (globals p) ref st (connectTimers p) (retries p) (sent p)
  | Submit a form =>
      after_outcome (TaskInput.submit a form (globals p) (home p)) (retries p) p
  | RetryTimer a =>
      match retries p with
      | [] => p
      | task :: pending =>
          after_outcome (Index.retry_callback a task (globals p) (home p)) pending p
      end
  end.

(** The page after a sequence of events. *)
Definition run (events : list event) (p : t) : t :=
  fold_left (fun q e => react e q) events p.

(** A page that was just loaded. *)
Definition fresh : t :=
  mk (Index.mkGlobals None 0 false) None
     (Index.mkHome [] None None false false false 0 0 false) 0 [] [].

(** A frame that carries a task with a non-empty [url] and a non-empty
    [instruction], and nothing else. *)
Definition complete_task (f : list (string * jsval)) : Prop :=
  ∃ url instruction, url ≠ "" ∧ instruction ≠ ""
    ∧ f = [("url", JStr url); ("instruction", JStr instruction)].

(** A task with a non-empty [url] and a non-empty [instruction]. *)
Definition complete (task : BrowsingTask.t) : Prop :=
  BrowsingTask.url task ≠ "" ∧ BrowsingTask.instruction task ≠ "".

End Page.

(* ===================================================================== *)
(** ** The tab: [Home] unmounted and mounted anew                         *)
(* ===================================================================== *)

Module Tab.

(** The browser tab: the module variables and the instance of [Home] that
    is mounted ([page]), and what the instances before it have left
    behind.  The cleanup keeps the socket, and the handlers of a socket
    are set once, by the instance that opens it: [stale] says that the
    handlers of [globalWebSocket] are those of an instance that is gone.
    They hold its setters, which change nothing any more, and its
    [mountedRef], which its cleanup has set to false.  [orphans] are the
    tasks held by the retry timers of such instances, which are not
    cleared. *)
Record t : Type := mk {
  page : Page.t;
  stale : bool;
  orphans : list BrowsingTask.t
}.

Inductive event : Type :=
  | Of (e : Page.event)
  | Replaced
  | OrphanRetryTimer (a : Index.Ambient).

(** An instance that is gone, as its handlers see it: [mountedRef] is
    false, the reconnect timer is cleared, and the state is not shown. *)
Definition gone : Index.Home := Index.created (Index.mkGlobals None 0 false).

(** A socket event whose handlers are stale changes the module variables
    only. *)
Definition stale_socket_event (e : Page.event) (p : Page.t) : Page.t :=
  match e with
  | Page.Opened =>
      match Index.globalWebSocket (Page.globals p) with
      | None => p
      | Some _ =>
          let '(g, _) :=
            Index.onopen (Index.with_readyState Index.OPEN (Page.globals p)) gone in
          Page.mk g (Page.reconnectTimeoutRef p) (Page.home p)
            (Page.connectTimers p) (Page.retries p) (Page.sent p)
      end
  | Page.Closed code =>
      match Index.globalWebSocket (Page.globals p) with
      | None => p
      | Some _ =>
          let '(g, _, _) :=
            Index.onclose code
              (Index.with_readyState Index.CLOSED (Page.globals p)) None gone in
          Page.mk g (Page.reconnectTimeoutRef p) (Page.home p)
            (Page.connectTimers p) (Page.retries p) (Page.sent p)
      end
  | _ => p
  end.

Definition is_socket_event (e : Page.event) : bool :=
  match e with
  | Page.Frame _ _ | Page.Opened | Page.Closed _ | Page.Failed _ => true
  | _ => false
  end.

(** The handler that runs on an event.  An event of the socket runs the
    handlers the socket has; any other event of [Page] belongs to the
    instance that is mounted, and when it makes a connection attempt the
    old socket is dropped, so that no stale handler is left.  [Replaced]:
    the instance is unmounted for good (its cleanup runs, its connection
    timers find [mountedRef] false, its retry timers stay) and a new
    instance is created and mounted. *)
Definition react (e : event) (tab : t) : t :=
  match e with
  | Of e =>
      if is_socket_event e && stale tab then
        mk (stale_socket_event e (page tab)) true (orphans tab)
      else
        let q := Page.react e (page tab) in
        let attempted :=
          negb (Index.connectionAttemptCount (Page.globals q)
                =? Index.connectionAttemptCount (Page.globals (page tab)))%nat in
        mk q (stale tab && negb attempted) (orphans tab)
  | Replaced =>
      let p := Page.react Page.Cleanup (page tab) in
      let '(st, timer) :=
        Index.mount_effect (Page.globals p) (Index.created (Page.globals p)) in
      mk (Page.mk (Page.globals p) None st
            (match timer with Some _ => 1%nat | None => 0%nat end) []
            (Page.sent p))
         (bool_decide (is_Some (Index.globalWebSocket (Page.globals p))))
         (orphans tab ++ Page.retries p)%list
  | OrphanRetryTimer a =>
      match orphans tab with
      | [] => tab
      | task :: pending =>
          let r := Index.retry_callback a task (Page.globals (page tab)) gone in
          mk (Page.mk (Index.globals r) (Page.reconnectTimeoutRef (page tab))
                (Page.home (page tab)) (Page.connectTimers (page tab))
                (Page.retries (page tab)) (Page.sent (page tab) ++ Index.sent r)%list)
             (stale tab)
             (pending ++ match Index.timeout r with
                         | Some task' => [task']
                         | None => []
                         end)%list
      end
  end.

Definition run (events : list event) (tab : t) : t :=
  fold_left (fun q e => react e q) events tab.

(** The tab when the page was just loaded. *)
Definition fresh : t := mk Page.fresh false [].

End Tab.

(* ===================================================================== *)
(** ** The run registry of the core                                       *)
(* ===================================================================== *)

Module Core.

Definition runId : Type := nat.

(** A run: its task and the external stop signal. *)
Record Run : Type := mkRun { task : BrowsingTask.t; stopRequested : bool }.

(** The runs the core knows and the next free identifier. *)
Record t : Type := mk { runs : gmap nat Run; nextId : nat }.

Definition empty : t := mk ∅ 0%nat.

(** Modelled from the spec: [startRun(task: {url, instruction}) -> runId]
    of section 6, which is part of the backend and is missing from the
    sources; the run is registered under a fresh identifier. *)
Definition startRun (task : BrowsingTask.t) (c : t) : t * runId :=
  (mk (<[nextId c := mkRun task false]> (runs c)) (S (nextId c)), nextId c).

(** Modelled from the spec: [cancelRun(runId)] of section 6, missing from
    the sources; it raises the stop signal of a known run (section 5:
    cancellation is cooperative) and refuses an unknown identifier. *)
Definition cancelRun (id : runId) (c : t) : option t :=
  match runs c !! id with
  | Some r => Some (mk (<[id := mkRun (task r) true]> (runs c)) (nextId c))
  | None => None
  end.

(** Identifiers in use are below [nextId]. *)
Definition wf (c : t) : Prop :=
  ∀ id, is_Some (runs c !! id) → (id < nextId c)%nat.

End Core.

(* ===================================================================== *)
(** ** The selector resolver                                              *)
(* ===================================================================== *)

Module Resolver.

Inductive frameContext : Type :=
  | main
  | iframe (id : string)
  | shadow (hostPath : list string).

Record boundingBox : Type := mkBox { x : Z; y : Z; width : Z; height : Z }.

Record ElementCandidate : Type := mkCandidate {
  handle : nat;
  frame : frameContext;
  tagName : string;
  visibleText : string;
  attributes : gmap string string;
  box : boundingBox;
  isVisible : bool;
  isInteractable : bool
}.

Inductive confidence : Type := exact | repaired | ambiguous | none.

(** The matching candidates in document order, and the tag. *)
Record ResolvedTarget : Type := mkResolved {
  candidates : list ElementCandidate;
  tag : confidence
}.

(** The candidate acted on: the first one in document order. *)
Definition chosen (r : ResolvedTarget) : option ElementCandidate :=
  head (candidates r).

(** A structural selector: a tag and attribute-equality clauses. *)
Record Selector : Type := mkSelector {
  sel_tag : string;
  sel_clauses : list (string * string)
}.

(** Modelled from the spec: the five matching rules of section 4.3, which
    belong to the backend and are missing from the sources: structural
    equality, text equality up to case and white space, structural
    containment, text containment either way, and containment in one of
    four attributes. *)

Definition structural_exact (sel : Selector) (c : ElementCandidate) : bool :=
  String.eqb (tagName c) (sel_tag sel)
  && forallb (fun kv => bool_decide (attributes c !! kv.1 = Some kv.2))
             (sel_clauses sel).

Definition text_exact (targetHint : string) (c : ElementCandidate) : bool :=
  String.eqb (Text.normalize targetHint) (Text.normalize (visibleText c)).

Definition attribute_contains (c : ElementCandidate) (k v : string) : bool :=
  match attributes c !! k with
  | Some v' => Text.contains v v'
  | None => false
  end.

Definition structural_repaired (sel : Selector) (c : ElementCandidate) : bool :=
  String.eqb (tagName c) (sel_tag sel)
  && forallb (fun kv => attribute_contains c kv.1 kv.2) (sel_clauses sel).

Definition text_partial (targetHint : string) (c : ElementCandidate) : bool :=
  Text.contains targetHint (visibleText c)
  || Text.contains (visibleText c) targetHint.

Definition fallback_attributes : list string :=
  ["aria-label"; "title"; "alt"; "placeholder"].

Definition attribute_fallback (targetHint : string) (c : ElementCandidate) : bool :=
  existsb (fun k => attribute_contains c k targetHint) fallback_attributes.

Section Ladder.

(** The syntax of structural selectors is not fixed by the
    specification: the parser is a parameter. *)
Variable parse : string → option Selector.

(** Modelled from the spec: the matching ladder of section 4.3, missing
    from the sources: each step with the tag of a single match. *)
Definition ladder (targetHint : string)
    : list (confidence * (ElementCandidate → bool)) :=
  [ (exact, fun c => match parse targetHint with
                     | Some sel => structural_exact sel c
                     | None => false
                     end);
    (exact, text_exact targetHint);
    (repaired, fun c => match parse targetHint with
                        | Some sel => structural_repaired sel c
                        | None => false
                        end);
    (repaired, text_partial targetHint);
    (repaired, attribute_fallback targetHint) ].

(** The candidates a step may return: those that can be interacted
    with and that match, in document order. *)
Definition matching (p : ElementCandidate → bool)
    (snapshot : list ElementCandidate) : list ElementCandidate :=
  List.filter (fun c => isInteractable c && p c) snapshot.

(** The first step that yields a candidate decides. *)
Fixpoint climb (steps : list (confidence * (ElementCandidate → bool)))
    (snapshot : list ElementCandidate) : ResolvedTarget :=
  match steps with
  | [] => mkResolved [] none
  | (conf, p) :: rest =>
      match matching p snapshot with
      | [] => climb rest snapshot
      | [c] => mkResolved [c] conf
      | cs => mkResolved cs ambiguous
      end
  end.

(** Modelled from the spec: [resolve(targetHint, snapshot)] of section
    4.3, part of the backend and missing from the sources: the five
    steps in order until one yields a candidate, [none] otherwise,
    [ambiguous] when several candidates remain. *)
Definition resolve (targetHint : string) (snapshot : list ElementCandidate)
    : ResolvedTarget :=
  climb (ladder targetHint) snapshot.

End Ladder.

End Resolver.

(* ===================================================================== *)
(** ** The loop controller                                                *)
(* ===================================================================== *)

Module Loop.

Inductive state : Type :=
  | PERCEIVING | DECIDING | RESOLVING | ACTING | VERIFYING
  | DONE
  | FAILED (reason : string).

Definition terminal (s : state) : bool :=
  match s with
  | DONE | FAILED _ => true
  | _ => false
  end.

Inductive kind : Type := click | hover | scroll | navigate | type | finish | fail.

(** The policy constants. *)
Record Config : Type := mkConfig {
  maxIterations : nat;
  wallClockBudget : nat;
  retryLimit : nat
}.

(** What the collaborators answer to the stage that runs. *)
Inductive perception : Type := Snapshot | PerceptionError.
Inductive decision : Type := Directive (k : kind) | DecisionError.
Inductive execution : Type := Attempted | ExecutionError.
Inductive verification : Type := Changed | Unchanged | TaskEnded.

(** The surroundings at one transition: the elapsed wall-clock time, the
    external stop signal, and the answer of each collaborator (the
    transition reads the one of its stage; [perceived] is the answer
    after the one retry of section 4.1). *)
Record Input : Type := mkInput {
  elapsed : nat;
  stop : bool;
  perceived : perception;
  decided : decision;
  resolved : Resolver.confidence;
  executed : execution;
  verified : verification
}.

Record Controller : Type := mkController {
  phase : state;
  iteration : nat;
  failures : nat
}.

Definition initial : Controller := mkController PERCEIVING 0 0.

(** Modelled from the spec: the retry policy of section 4.6, missing from
    the sources.  A soft failure leads back to [PERCEIVING] with the
    counter of the current directive incremented, or to [FAILED] once the
    count would exceed the retry limit. *)
Definition soft_failure (cfg : Config) (c : Controller) : Controller :=
  if (retryLimit cfg <=? failures c)%nat
  then mkController (FAILED "could not complete step") (iteration c) (failures c)
  else mkController PERCEIVING (iteration c) (S (failures c)).

(** Modelled from the spec: one transition of the loop controller of
    sections 4.6, 5 and 7, part of the backend and missing from the
    sources.  The stop signal and the two budgets are checked at the top
    of the transition. *)
Definition step (cfg : Config) (i : Input) (c : Controller) : Controller :=
  if terminal (phase c) then c
  else if stop i then
    mkController (FAILED "cancelled") (iteration c) (failures c)
  else if (wallClockBudget cfg <? elapsed i)%nat then
    mkController (FAILED "wall-clock budget exceeded") (iteration c) (failures c)
  else
    match phase c with
    | PERCEIVING =>
        if (maxIterations cfg <=? iteration c)%nat then
          mkController (FAILED "iteration budget exceeded") (iteration c) (failures c)
        else
          match perceived i with
          | Snapshot => mkController DECIDING (S (iteration c)) (failures c)
          | PerceptionError =>
              mkController (FAILED "the page could not be read")
                           (iteration c) (failures c)
          end
    | DECIDING =>
        match decided i with
        | Directive finish => mkController DONE (iteration c) (failures c)
        | Directive fail =>
            mkController (FAILED "the model could not decide")
                         (iteration c) (failures c)
        | Directive _ => mkController RESOLVING (iteration c) (failures c)
        | DecisionError => soft_failure cfg c
        end
    | RESOLVING =>
        match resolved i with
        | Resolver.exact | Resolver.repaired =>
            mkController ACTING (iteration c) (failures c)
        | Resolver.ambiguous | Resolver.none => soft_failure cfg c
        end
    | ACTING =>
        match executed i with
        | Attempted => mkController VERIFYING (iteration c) (failures c)
        | ExecutionError =>
            mkController (FAILED "the browser session was lost")
                         (iteration c) (failures c)
        end
    | VERIFYING =>
        match verified i with
        | TaskEnded => mkController DONE (iteration c) (failures c)
        | Changed => mkController PERCEIVING (iteration c) 0
        | Unchanged => soft_failure cfg c
        end
    | DONE | FAILED _ => c
    end.

(** [n] transitions from [c], the [k]-th of the run being the first;
    [env] gives the surroundings of each transition. *)
Fixpoint run_from (cfg : Config) (env : nat → Input) (k n : nat)
    (c : Controller) : Controller :=
  match n with
  | O => c
  | S n' => run_from cfg env (S k) n' (step cfg (env k) c)
  end.

Definition run (cfg : Config) (env : nat → Input) (n : nat) : Controller :=
  run_from cfg env 0 n initial.

(** Modelled from the spec: whether a transition is taken by the stage
    of the controller: the controller is not in a terminal state, is not
    stopped, and is within the wall-clock budget. *)
Definition live (cfg : Config) (i : Input) (c : Controller) : bool :=
  negb (terminal (phase c)) && negb (stop i)
  && negb (wallClockBudget cfg <? elapsed i)%nat.

(** Modelled from the spec: the soft failures of sections 4.6 and 7, read
    off the answers of the collaborators and not off the counter: the
    decision fails, the target is ambiguous or missing, or the action
    leaves the page unchanged. *)
Definition soft (cfg : Config) (i : Input) (c : Controller) : bool :=
  live cfg i c
  && match phase c with
     | DECIDING =>
         match decided i with DecisionError => true | Directive _ => false end
     | RESOLVING =>
         match resolved i with
         | Resolver.ambiguous | Resolver.none => true
         | Resolver.exact | Resolver.repaired => false
         end
     | VERIFYING =>
         match verified i with Unchanged => true | Changed | TaskEnded => false end
     | _ => false
     end.

(** Modelled from the spec: a directive is completed when the
    verification sees the page changed. *)
Definition completes (cfg : Config) (i : Input) (c : Controller) : bool :=
  live cfg i c
  && match phase c with
     | VERIFYING =>
         match verified i with Changed => true | Unchanged | TaskEnded => false end
     | _ => false
     end.

(** Modelled from the spec: the consecutive soft failures of the current
    directive after [n] transitions of the run (section 7: "consecutive
    soft-failure retries per directive"), counted on the run itself and
    not read off the counter: the soft failures since the last directive
    that was completed. *)
Fixpoint streak (cfg : Config) (env : nat → Input) (n : nat) : nat :=
  match n with
  | O => 0
  | S n' =>
      if soft cfg (env n') (run cfg env n') then S (streak cfg env n')
      else if completes cfg (env n') (run cfg env n') then 0
      else streak cfg env n'
  end.

(** Transitions that remain at most before a terminal state. *)
Definition fuel (cfg : Config) (c : Controller) : nat :=
  match phase c with
  | DONE | FAILED _ => 0
  | PERCEIVING => 5 * (maxIterations cfg - iteration c) + 1
  | DECIDING => 5 * (maxIterations cfg - iteration c) + 5
  | RESOLVING => 5 * (maxIterations cfg - iteration c) + 4
  | ACTING => 5 * (maxIterations cfg - iteration c) + 3
  | VERIFYING => 5 * (maxIterations cfg - iteration c) + 2
  end%nat.

(** What every reachable controller satisfies. *)
Definition inv (cfg : Config) (c : Controller) : Prop :=
  (iteration c ≤ maxIterations cfg)%nat ∧ (failures c ≤ retryLimit cfg)%nat.

End Loop.

(* ===================================================================== *)
(** ** The event shapes as the specification words them                   *)
(* ===================================================================== *)

Module SpecEvents.

(** Section 6: [{type: screenshot, imageData: base64 image, timestamp}]. *)
Definition screenshot (o : gmap string jsval) : bool :=
  strict_eq_str (o.["type"]) "screenshot"
  && WebSocketUpdate.is_string (o.["imageData"])
  && WebSocketUpdate.is_number (o.["timestamp"]).

(** Section 6: [status: enum{Connected, Running, "Task completed", Failed}]. *)
Definition status_value (v : jsval) : bool :=
  strict_eq_str v "Connected" || strict_eq_str v "Running"
  || strict_eq_str v "Task completed" || strict_eq_str v "Failed".

(** Section 6: [{type: message, content: string, timestamp}], these
    members and no other. *)
Definition message (o : gmap string jsval) : bool :=
  strict_eq_str (o.["type"]) "message"
  && WebSocketUpdate.is_string (o.["content"])
  && WebSocketUpdate.is_number (o.["timestamp"])
  && bool_decide (dom o = {["type"; "content"; "timestamp"]}).

End SpecEvents.

(* ===================================================================== *)
(** ** Sample data                                                        *)
(* ===================================================================== *)

Module Sample.

Definition ambient : Index.Ambient :=
  Index.mkAmbient 1700000000500 1700000000501 "id-1" "id-2" false false.

(** A mounted page with an error shown. *)
Definition home : Index.Home :=
  Index.mkHome [] None None true true true 0 0 true.

Definition open_socket : Index.Globals := Index.mkGlobals (Some Index.OPEN) 0 false.
Definition no_socket : Index.Globals := Index.mkGlobals None 0 false.

Definition ping : gmap string jsval :=
  {[ "type" := JStr "ping"; "timestamp" := JNum 1700000000000 ]}.

Definition screenshot_wire : gmap string jsval :=
  {[ "type" := JStr "screenshot"; "image_data" := JStr "aGVsbG8=";
     "timestamp" := JNum 1700000000000 ]}.

Definition screenshot_spec : gmap string jsval :=
  {[ "type" := JStr "screenshot"; "imageData" := JStr "aGVsbG8=";
     "timestamp" := JNum 1700000000000 ]}.

Definition screenshot_empty : gmap string jsval :=
  {[ "type" := JStr "screenshot"; "image_data" := JStr "";
     "timestamp" := JNum 1700000000000 ]}.

Definition status_navigating : gmap string jsval :=
  {[ "type" := JStr "status"; "status" := JStr "Navigating to https://example.com";
     "timestamp" := JNum 1700000000000 ]}.

Definition message_plain : gmap string jsval :=
  {[ "type" := JStr "message"; "content" := JStr "Clicking the pricing link";
     "timestamp" := JNum 1700000000000 ]}.

Definition message_thinking : gmap string jsval :=
  <[ "thinking" := JStr "The link text matches the task" ]> message_plain.

Definition task : BrowsingTask.t :=
  BrowsingTask.mk "https://example.com" "find the pricing link".

Definition form : TaskInput.State :=
  TaskInput.mkState "https://example.com" "find the pricing link" false "".

(** Four links, the second of which cannot be interacted with. *)
Definition link (h : nat) (text href : string) (interactable : bool)
    : Resolver.ElementCandidate :=
  Resolver.mkCandidate h Resolver.main "a" text {[ "href" := href ]}
    (Resolver.mkBox 0 0 80 20) true interactable.

Definition snapshot : list Resolver.ElementCandidate :=
  [ link 0 "Home" "/" true;
    link 1 "Products" "/products/consumer" false;
    link 2 "Products" "/products/enterprise" true;
    link 3 "  products " "/products" true ].

Definition no_selector : string → option Resolver.Selector := λ _, None.

(** A loop whose actions never change the page. *)
Definition config : Loop.Config := Loop.mkConfig 10 600 2.

Definition stuck : nat → Loop.Input :=
  λ k, Loop.mkInput k false Loop.Snapshot (Loop.Directive Loop.click)
         Resolver.exact Loop.Attempted Loop.Unchanged.

(** More events and pages. *)
Definition error_event : gmap string jsval :=
  {[ "type" := JStr "error"; "message" := JStr "navigation timed out";
     "timestamp" := JNum 1700000000000 ]}.

Definition action_event : gmap string jsval :=
  {[ "type" := JStr "action"; "action" := JStr "click";
     "timestamp" := JNum 1700000000000 ]}.

Definition screenshot_null : gmap string jsval :=
  {[ "type" := JStr "screenshot"; "image_data" := JNull;
     "timestamp" := JNum 1700000000000 ]}.

Definition message_without_content : gmap string jsval :=
  {[ "type" := JStr "message"; "timestamp" := JNum 1700000000000 ]}.

(** A mounted, connected page at rest. *)
Definition idle : Index.Home :=
  Index.mkHome [] None None true false false 0 0 true.

(** The same page with a screenshot shown. *)
Definition showing : Index.Home :=
  Index.mkHome [] (Some (ScreenshotData.mk (JStr "aGVsbG8=") (JNum 1700000000000)))
    None true true false 0 0 true.

Definition status_completed : gmap string jsval :=
  {[ "type" := JStr "status"; "status" := JStr "Task completed";
     "timestamp" := JNum 1700000000000 ]}.

Definition dropped_socket : Index.Globals :=
  Index.mkGlobals (Some Index.CLOSED) 3 false.

(** A screenshot event whose image is an array, not a string, and one
    that has no timestamp. *)
Definition screenshot_array : gmap string jsval :=
  {[ "type" := JStr "screenshot"; "image_data" := JArr [JNum 1];
     "timestamp" := JNum 1700000000000 ]}.

Definition screenshot_undated : gmap string jsval :=
  {[ "type" := JStr "screenshot"; "image_data" := JStr "aGVsbG8=" ]}.

(** Events whose [type], [action] or [message] cannot be printed. *)
Definition unprintable : jsval := JObj [("toString", JNum 1)].

Definition unprintable_type : gmap string jsval :=
  {[ "type" := unprintable; "timestamp" := JNum 1700000000000 ]}.

Definition unprintable_action : gmap string jsval :=
  {[ "type" := JStr "action"; "action" := unprintable;
     "timestamp" := JNum 1700000000000 ]}.

Definition hostname_of : string → option string :=
  λ url, if String.eqb url "https://www.chase.com/login" then Some "www.chase.com"
         else None.

Definition chase_form : TaskInput.State :=
  TaskInput.mkState "https://www.chase.com/login" "" false "".

End Sample.

(* ===================================================================== *)
(** ** Tactics                                                            *)
(* ===================================================================== *)

(** Case analysis on every branch of the handler. *)
Ltac onmessage_cases :=
  unfold Index.onmessage, Index.try_object, Index.case_screenshot,
    Index.case_message, Index.case_status, Index.case_error, Index.catch_block;
  repeat match goal with
         | |- context [match ?d with SyntaxError => _ | _ => _ end] => destruct d
         | |- context [if negb (Index.mountedRef ?st) then _ else _] =>
             destruct (Index.mountedRef st) eqn:?; cbn [negb]
         | |- context [if ?b then _ else _] => destruct b eqn:?
         | |- context [match to_template ?v with _ => _ end] =>
             destruct (to_template v) eqn:?
         | |- context [match dot_length ?v with _ => _ end] =>
             destruct (dot_length v) eqn:?
         | |- context [match gt_zero ?v with _ => _ end] =>
             destruct (gt_zero v) as [[]|] eqn:?
         end;
  cbn [Index.messages Index.screenshot Index.status Index.isConnected
       Index.isLoading Index.hasError Index.lastUpdateTime
       Index.connectionAttempts Index.mountedRef
       Index.setMessages Index.setScreenshot Index.setStatus
       Index.setIsConnected Index.setIsLoading Index.setHasError
       Index.setLastUpdateTime] in *.

(* ===================================================================== *)
(** ** Property reads                                                     *)
(* ===================================================================== *)

Lemma prop_insert_ne (o : gmap string jsval) (k k' : string) (v : jsval) :
  k ≠ k' → (<[k := v]> o).[k'] = o.[k'].
Proof. intros Hne. unfold Js.prop. by rewrite lookup_insert_ne. Qed.

Lemma strict_eq_str_true (v : jsval) (lit : string) :
  strict_eq_str v lit = true ↔ v = JStr lit.
Proof.
  destruct v; simpl; try (split; [discriminate | congruence]).
  rewrite String.eqb_eq. split; congruence.
Qed.

Lemma strict_eq_str_refl (lit : string) : strict_eq_str (JStr lit) lit = true.
Proof. by apply strict_eq_str_true. Qed.

(** A value that compares with 0 prints in a template. *)
Lemma gt_zero_prints (v : jsval) (b : bool) :
  gt_zero v = Some b → is_Some (to_template v).
Proof.
  destruct v as [| |[]|n|t p|s|l|m]; intros H; try (by eexists);
    unfold gt_zero in H;
    match type of H with
    | context [to_template ?v] => destruct (to_template v); [by eexists | done]
    end.
Qed.

(** Which values pass the test of [case 'screenshot']: of the strings the
    non-empty ones, of the arrays the non-empty ones, no other scalar. *)
Lemma has_image_string (s : string) : Index.has_image (JStr s) = true ↔ s ≠ "".
Proof.
  unfold Index.has_image. destruct s as [|c s]; simpl; split; try done.
Qed.

Lemma has_image_array (l : list jsval) :
  Index.has_image (JArr l) = true ↔ l ≠ [].
Proof.
  unfold Index.has_image. destruct l as [|e l]; simpl; split; try done.
Qed.

Lemma has_image_scalar (v : jsval) :
  Index.has_image v = true →
  (∃ s, v = JStr s ∧ s ≠ "") ∨ (∃ l, v = JArr l ∧ l ≠ []) ∨ (∃ m, v = JObj m).
Proof.
  destruct v as [| |b|n|t p|s|l|m]; unfold Index.has_image; simpl;
    rewrite ?andb_false_r; try discriminate.
  - intros H. left. exists s. split; [done |]. by apply has_image_string.
  - intros H. right. left. exists l. split; [done |]. by apply has_image_array.
  - intros _. right. right. eauto.
Qed.

(** [case 'screenshot'] stores an image that passes, and leaves the
    screenshot and the error flag as they are otherwise. *)
Lemma case_screenshot_image (o : gmap string jsval) (st : Index.Home) :
  Index.has_image (o.["image_data"]) = true →
  Index.case_screenshot o st
  = Index.Normal
      (Index.setHasError false
         (Index.setScreenshot
            (Some (ScreenshotData.mk (o.["image_data"]) (o.["timestamp"]))) st)).
Proof.
  unfold Index.has_image, Index.case_screenshot. intros H.
  apply andb_prop in H as [Ht H]. rewrite Ht.
  destruct (dot_length (o.["image_data"])) as [len|]; [| done].
  destruct (gt_zero len) as [[]|] eqn:Hg; try done.
  destruct (gt_zero_prints len true Hg) as [text ->]. done.
Qed.

Lemma case_screenshot_no_image (o : gmap string jsval) (st : Index.Home) :
  Index.has_image (o.["image_data"]) = false →
  Index.case_screenshot o st = Index.Normal st
  ∨ Index.case_screenshot o st = Index.Thrown st.
Proof.
  unfold Index.has_image, Index.case_screenshot. intros H.
  destruct (dot_length (o.["image_data"])) as [len|]; [| by right].
  destruct (to_template len); [| by right].
  destruct (truthy (o.["image_data"])); [| by left].
  destruct (gt_zero len) as [[]|]; simpl in H; try done; auto.
Qed.

(* ===================================================================== *)
(** ** [ws.onmessage]                                                     *)
(* ===================================================================== *)

Lemma onmessage_unmounted (a : Index.Ambient) (d : parsed) (st : Index.Home) :
  Index.mountedRef st = false → Index.onmessage a d st = st.
Proof. intros Hm. unfold Index.onmessage. rewrite Hm. by destruct d. Qed.

Lemma onmessage_ping (a : Index.Ambient) (o : gmap string jsval) (st : Index.Home) :
  o.["type"] = JStr "ping" → Index.onmessage a (Object o) st = st.
Proof.
  intros Ht. unfold Index.onmessage, Index.try_object. rewrite Ht. simpl.
  by destruct (Index.mountedRef st).
Qed.

(** C8: a ping event changes no state of the page: the message list, the
    screenshot, the status, the loading flag, the error flag and the time
    of the last update are what they were (and so is the rest of the
    state). *)
Theorem ping_changes_nothing (a : Index.Ambient) (o : gmap string jsval)
    (st : Index.Home) :
  o.["type"] = JStr "ping" →
  let st' := Index.onmessage a (Object o) st in
  Index.messages st' = Index.messages st
  ∧ Index.screenshot st' = Index.screenshot st
  ∧ Index.status st' = Index.status st
  ∧ Index.isLoading st' = Index.isLoading st
  ∧ Index.hasError st' = Index.hasError st
  ∧ Index.lastUpdateTime st' = Index.lastUpdateTime st
  ∧ st' = st.
Proof.
  intros Ht st'. subst st'. rewrite (onmessage_ping a o st Ht). repeat split.
Qed.

Lemma ping_changes_nothing_witness :
  Sample.ping.["type"] = JStr "ping"
  ∧ Index.onmessage Sample.ambient (Object Sample.ping) Sample.home = Sample.home.
Proof.
  split; [vm_compute; reflexivity |].
  apply (ping_changes_nothing Sample.ambient Sample.ping Sample.home).
  vm_compute. reflexivity.
Defined.

(** The state after [case 'screenshot'] on a mounted page. *)
Lemma onmessage_screenshot (a : Index.Ambient) (o : gmap string jsval)
    (st : Index.Home) :
  Index.mountedRef st = true →
  o.["type"] = JStr "screenshot" →
  Index.onmessage a (Object o) st =
    match Index.case_screenshot o (Index.setLastUpdateTime (Index.Date_now a) st) with
    | Index.Normal st' => st'
    | Index.Thrown st' => Index.catch_block a st'
    end.
Proof.
  intros Hm Ht. unfold Index.onmessage, Index.try_object.
  rewrite Hm, Ht. reflexivity.
Qed.

Lemma onmessage_screenshot_image (a : Index.Ambient) (o : gmap string jsval)
    (st : Index.Home) :
  Index.mountedRef st = true →
  o.["type"] = JStr "screenshot" →
  Index.has_image (o.["image_data"]) = true →
  Index.onmessage a (Object o) st =
    Index.setHasError false
      (Index.setScreenshot
         (Some (ScreenshotData.mk (o.["image_data"]) (o.["timestamp"])))
         (Index.setLastUpdateTime (Index.Date_now a) st)).
Proof.
  intros Hm Ht Hi. rewrite (onmessage_screenshot a o st Hm Ht).
  by rewrite (case_screenshot_image o _ Hi).
Qed.

Lemma onmessage_screenshot_no_image (a : Index.Ambient) (o : gmap string jsval)
    (st : Index.Home) :
  Index.mountedRef st = true →
  o.["type"] = JStr "screenshot" →
  Index.has_image (o.["image_data"]) = false →
  let st1 := Index.setLastUpdateTime (Index.Date_now a) st in
  Index.onmessage a (Object o) st = st1
  ∨ Index.onmessage a (Object o) st = Index.catch_block a st1.
Proof.
  intros Hm Ht Hi st1. rewrite (onmessage_screenshot a o st Hm Ht). fold st1.
  destruct (case_screenshot_no_image o st1 Hi) as [-> | ->]; auto.
Qed.

(** No other event touches the screenshot. *)
Lemma onmessage_other_keeps_screenshot (a : Index.Ambient) (d : parsed)
    (st : Index.Home) :
  (∀ o, d = Object o → o.["type"] ≠ JStr "screenshot") →
  Index.screenshot (Index.onmessage a d st) = Index.screenshot st.
Proof.
  intros Hty. unfold Index.onmessage.
  destruct d as [| |o|]; try reflexivity;
    destruct (Index.mountedRef st) eqn:Hm; simpl; try reflexivity;
    try (unfold Index.catch_block; rewrite Hm; reflexivity).
  - unfold Index.try_object, Index.case_status, Index.case_message, Index.case_error.
    assert (strict_eq_str (o.["type"]) "screenshot" = false) as ->.
    { destruct (strict_eq_str (o.["type"]) "screenshot") eqn:E; [|done].
      apply strict_eq_str_true in E. by destruct (Hty o eq_refl). }
    unfold Index.catch_block.
    repeat match goal with
           | |- context [match to_template ?v with _ => _ end] =>
               destruct (to_template v)
           | |- context [if ?b then _ else _] => destruct b eqn:?
           end; simpl; rewrite ?Hm; reflexivity.
Qed.

(** When the screenshot cell changes, the event was a screenshot object
    whose [image_data] passes the test, stored under [imageData]. *)
Lemma screenshot_replaced_inv (a : Index.Ambient) (d : parsed) (st : Index.Home) :
  Index.screenshot (Index.onmessage a d st) ≠ Index.screenshot st →
  ∃ o, d = Object o ∧ Index.mountedRef st = true
    ∧ o.["type"] = JStr "screenshot"
    ∧ Index.has_image (o.["image_data"]) = true
    ∧ Index.screenshot (Index.onmessage a d st)
        = Some (ScreenshotData.mk (o.["image_data"]) (o.["timestamp"]))
    ∧ Index.hasError (Index.onmessage a d st) = false.
Proof.
  intros Hne.
  destruct (Index.mountedRef st) eqn:Hm;
    [| by rewrite onmessage_unmounted in Hne].
  destruct d as [| |o|];
    try (exfalso; apply Hne, onmessage_other_keeps_screenshot; by intros o' [=]).
  destruct (decide (o.["type"] = JStr "screenshot")) as [Ht|Ht]; cycle 1.
  { exfalso. apply Hne, onmessage_other_keeps_screenshot. by intros o' [= <-]. }
  destruct (Index.has_image (o.["image_data"])) eqn:Hg.
  - exists o. rewrite (onmessage_screenshot_image a o st Hm Ht Hg).
    by repeat split.
  - exfalso. apply Hne.
    destruct (onmessage_screenshot_no_image a o st Hm Ht Hg) as [-> | ->];
      [reflexivity |].
    unfold Index.catch_block. simpl. by rewrite Hm.
Qed.

(** C9, as worded, fails in its second half: a screenshot event whose
    [image_data] is a non-empty array, not a string, replaces the
    screenshot shown and clears the error flag. *)
Lemma empty_screenshot_array_counterexample :
  Sample.screenshot_array.["type"] = JStr "screenshot"
  ∧ (∀ s, Sample.screenshot_array.["image_data"] ≠ JStr s)
  ∧ Index.hasError Sample.home = true
  ∧ Index.screenshot Sample.home = None
  ∧ Index.screenshot
      (Index.onmessage Sample.ambient (Object Sample.screenshot_array) Sample.home)
      = Some (ScreenshotData.mk (JArr [JNum 1]) (JNum 1700000000000))
  ∧ Index.hasError
      (Index.onmessage Sample.ambient (Object Sample.screenshot_array) Sample.home)
      = false.
Proof. vm_compute. repeat split. intros s. discriminate. Qed.

(** C9, amended: on a screenshot event whose [image_data] is absent or
    the empty string the screenshot shown stays and the error flag is not
    cleared (a raised flag stays raised).  The screenshot is replaced only
    when [image_data] passes the test of the handler, that is, is true as
    a condition and has a length greater than 0: of the strings these are
    the non-empty ones, and otherwise a non-empty array or an object; on a
    mounted page every such event replaces the screenshot and clears the
    error flag. *)
Theorem empty_screenshot_keeps_state (a : Index.Ambient)
    (o : gmap string jsval) (st : Index.Home) :
  o.["type"] = JStr "screenshot" →
  let st' := Index.onmessage a (Object o) st in
  (o !! "image_data" = None ∨ o.["image_data"] = JStr "" →
     Index.screenshot st' = Index.screenshot st
     ∧ (Index.hasError st = true → Index.hasError st' = true))
  ∧ (Index.screenshot st' ≠ Index.screenshot st →
     Index.has_image (o.["image_data"]) = true
     ∧ ((∃ s, o.["image_data"] = JStr s ∧ s ≠ "")
        ∨ (∃ l, o.["image_data"] = JArr l ∧ l ≠ [])
        ∨ (∃ m, o.["image_data"] = JObj m)))
  ∧ (Index.mountedRef st = true → Index.has_image (o.["image_data"]) = true →
     Index.screenshot st'
       = Some (ScreenshotData.mk (o.["image_data"]) (o.["timestamp"]))
     ∧ Index.hasError st' = false)
  ∧ (∀ s, Index.has_image (JStr s) = true ↔ s ≠ "").
Proof.
  intros Ht st'. subst st'. split; [| split; [| split]].
  - intros Himg.
    destruct (Index.mountedRef st) eqn:Hm;
      [| by rewrite onmessage_unmounted].
    assert (Hg : Index.has_image (o.["image_data"]) = false).
    { destruct Himg as [Habs|Hemp].
      - unfold Js.prop. by rewrite Habs.
      - by rewrite Hemp. }
    destruct (onmessage_screenshot_no_image a o st Hm Ht Hg) as [-> | ->];
      [by split |].
    unfold Index.catch_block. simpl. rewrite Hm. by split.
  - intros Hne.
    destruct (screenshot_replaced_inv a (Object o) st Hne)
      as (o' & [= <-] & _ & _ & Hg & _).
    split; [exact Hg |]. by apply has_image_scalar.
  - intros Hm Hg. rewrite (onmessage_screenshot_image a o st Hm Ht Hg). by split.
  - apply has_image_string.
Qed.

Lemma empty_screenshot_keeps_state_witness :
  Sample.screenshot_empty.["type"] = JStr "screenshot"
  ∧ Sample.screenshot_empty.["image_data"] = JStr ""
  ∧ Index.screenshot
      (Index.onmessage Sample.ambient (Object Sample.screenshot_empty) Sample.home)
      = Index.screenshot Sample.home
  ∧ Index.hasError
      (Index.onmessage Sample.ambient (Object Sample.screenshot_empty) Sample.home)
      = true.
Proof.
  assert (Ht : Sample.screenshot_empty.["type"] = JStr "screenshot")
    by (vm_compute; reflexivity).
  assert (He : Sample.screenshot_empty.["image_data"] = JStr "")
    by (vm_compute; reflexivity).
  pose proof (empty_screenshot_keeps_state Sample.ambient
                Sample.screenshot_empty Sample.home Ht) as [Hkeep _].
  destruct (Hkeep (or_intror He)) as [Hshot Herr].
  split; [exact Ht |]. split; [exact He |]. split; [exact Hshot |].
  exact (Herr eq_refl).
Defined.

(** C1, as the specification words it, fails: the event the client shows
    carries the image under [image_data] and is not of the worded shape,
    and an event of the worded shape (image under [imageData]) is not
    shown but reported as a failure. *)
Lemma screenshot_event_imageData_counterexample :
  WebSocketUpdate.screenshot Sample.screenshot_wire = true
  ∧ Index.screenshot
      (Index.onmessage Sample.ambient (Object Sample.screenshot_wire) Sample.home)
      = Some (ScreenshotData.mk (JStr "aGVsbG8=") (JNum 1700000000000))
  ∧ SpecEvents.screenshot Sample.screenshot_wire = false
  ∧ SpecEvents.screenshot Sample.screenshot_spec = true
  ∧ Index.screenshot
      (Index.onmessage Sample.ambient (Object Sample.screenshot_spec) Sample.home)
      = None
  ∧ Index.messages
      (Index.onmessage Sample.ambient (Object Sample.screenshot_spec) Sample.home)
      = [Index.agent_message "id-2"
           (JStr "Error: Failed to process response from server.")
           (JNum 1700000000501)].
Proof. vm_compute. repeat split. Qed.

(** C1, amended: a screenshot event is declared as a record of type
    [screenshot] whose image is a string member named [image_data], with a
    number [timestamp].  On a mounted page an event of this shape with a
    non-empty image is stored as the record [{imageData, timestamp}] of
    that string and that number, and the error flag is cleared.  The
    client does not check the shape: whenever an event replaces the
    screenshot, it is an object of type [screenshot] whose [image_data]
    passes the test of the handler (true as a condition, length greater
    than 0), and the record stored holds its [image_data] and its
    [timestamp] as they are; an event without a timestamp is stored with
    the timestamp [undefined]. *)
Theorem screenshot_event_shape (a : Index.Ambient) (d : parsed) (st : Index.Home) :
  (∀ o, d = Object o → Index.mountedRef st = true →
     WebSocketUpdate.screenshot o = true → o.["image_data"] ≠ JStr "" →
     ∃ s, o.["image_data"] = JStr s
       ∧ WebSocketUpdate.is_number (o.["timestamp"]) = true
       ∧ Index.screenshot (Index.onmessage a d st)
           = Some (ScreenshotData.mk (JStr s) (o.["timestamp"]))
       ∧ Index.hasError (Index.onmessage a d st) = false)
  ∧ (Index.screenshot (Index.onmessage a d st) ≠ Index.screenshot st →
     ∃ o, d = Object o ∧ o.["type"] = JStr "screenshot"
       ∧ Index.has_image (o.["image_data"]) = true
       ∧ Index.screenshot (Index.onmessage a d st)
           = Some (ScreenshotData.mk (o.["image_data"]) (o.["timestamp"])))
  ∧ (∀ o, d = Object o → Index.mountedRef st = true →
     o.["type"] = JStr "screenshot" →
     Index.has_image (o.["image_data"]) = true →
     o !! "timestamp" = None →
     Index.screenshot (Index.onmessage a d st)
       = Some (ScreenshotData.mk (o.["image_data"]) JUndefined)).
Proof.
  split; [| split].
  - intros o -> Hm Hwf Hne. unfold WebSocketUpdate.screenshot in Hwf.
    apply andb_prop in Hwf as [Hwf Hts]. apply andb_prop in Hwf as [Ht Hs].
    apply strict_eq_str_true in Ht.
    destruct (o.["image_data"]) as [| | | | |s| |] eqn:Himg; try discriminate.
    assert (Hg : Index.has_image (o.["image_data"]) = true).
    { rewrite Himg. apply has_image_string. congruence. }
    exists s. rewrite (onmessage_screenshot_image a o st Hm Ht Hg), Himg.
    by repeat split.
  - intros Hne.
    destruct (screenshot_replaced_inv a d st Hne)
      as (o & -> & _ & Ht & Hg & Hst & _).
    by exists o.
  - intros o -> Hm Ht Hg Hts.
    rewrite (onmessage_screenshot_image a o st Hm Ht Hg). simpl.
    unfold Js.prop at 2. by rewrite Hts.
Qed.

Lemma screenshot_event_shape_witness :
  Index.mountedRef Sample.home = true
  ∧ WebSocketUpdate.screenshot Sample.screenshot_wire = true
  ∧ Sample.screenshot_wire.["image_data"] ≠ JStr ""
  ∧ Index.screenshot
      (Index.onmessage Sample.ambient (Object Sample.screenshot_wire) Sample.home)
      = Some (ScreenshotData.mk (JStr "aGVsbG8=") (JNum 1700000000000))
  ∧ Sample.screenshot_undated !! "timestamp" = None
  ∧ Index.screenshot
      (Index.onmessage Sample.ambient (Object Sample.screenshot_undated) Sample.home)
      = Some (ScreenshotData.mk (JStr "aGVsbG8=") JUndefined).
Proof.
  assert (Hwf : WebSocketUpdate.screenshot Sample.screenshot_wire = true)
    by (vm_compute; reflexivity).
  assert (Hne : Sample.screenshot_wire.["image_data"] ≠ JStr "")
    by (vm_compute; discriminate).
  assert (Hts : Sample.screenshot_undated !! "timestamp" = None)
    by (vm_compute; reflexivity).
  split; [reflexivity |]. split; [exact Hwf |]. split; [exact Hne |].
  destruct (proj1 (screenshot_event_shape Sample.ambient
                     (Object Sample.screenshot_wire) Sample.home)
              Sample.screenshot_wire eq_refl eq_refl Hwf Hne)
    as (s & Hs & _ & Hst & _).
  split.
  - rewrite Hst. vm_compute in Hs. injection Hs as <-. reflexivity.
  - split; [exact Hts |].
    exact (proj2 (proj2 (screenshot_event_shape Sample.ambient
                           (Object Sample.screenshot_undated) Sample.home))
             Sample.screenshot_undated eq_refl eq_refl eq_refl eq_refl Hts).
Defined.

(* ===================================================================== *)
(** ** Status and message events                                          *)
(* ===================================================================== *)

(** The state after a status event on a mounted page. *)
Lemma onmessage_status (a : Index.Ambient) (o : gmap string jsval)
    (st : Index.Home) :
  Index.mountedRef st = true →
  o.["type"] = JStr "status" →
  Index.onmessage a (Object o) st =
    if strict_eq_str (o.["status"]) "Connected" then Index.setIsConnected true st
    else Index.case_status o (Index.setLastUpdateTime (Index.Date_now a) st).
Proof.
  intros Hm Ht. unfold Index.onmessage, Index.try_object. rewrite Hm, Ht. simpl.
  by destruct (strict_eq_str (o.["status"]) "Connected").
Qed.

(** The status line is never red for one of the four worded values: the
    red class of [Chat] serves other statuses. *)
Lemma status_class_of_worded_value (s : string) :
  SpecEvents.status_value (JStr s) = true → Chat.status_class s = "".
Proof.
  unfold SpecEvents.status_value. simpl. rewrite !orb_true_iff, !String.eqb_eq.
  intros [[[-> | ->] | ->] | ->]; reflexivity.
Qed.

(** C2, as the specification words it, fails: a status event whose status
    is none of the four values is a status event of the declared type, and
    the client takes it as the current status without reporting an error;
    the status line has a red class for statuses that mention an error. *)
Lemma status_enum_counterexample :
  WebSocketUpdate.status Sample.status_navigating = true
  ∧ SpecEvents.status_value (Sample.status_navigating.["status"]) = false
  ∧ Chat.status_class "Error: the page did not load" = "text-red-500"
  ∧ Index.status
      (Index.onmessage Sample.ambient (Object Sample.status_navigating) Sample.home)
      = Some (StatusUpdate.mk (JStr "Navigating to https://example.com")
                (JNum 1700000000000))
  ∧ Index.messages
      (Index.onmessage Sample.ambient (Object Sample.status_navigating) Sample.home)
      = Index.messages Sample.home.
Proof. vm_compute. repeat split. Qed.

(** C2, amended: the status of a status event is a string.  [Connected]
    confirms the connection and changes nothing else; any other string is
    stored with the timestamp as the current status, and
    ["Task completed"] also ends loading.  Messages, screenshot and error
    flag stay. *)
Theorem status_event_handling (a : Index.Ambient) (o : gmap string jsval)
    (s : string) (st : Index.Home) :
  Index.mountedRef st = true →
  o.["type"] = JStr "status" →
  o.["status"] = JStr s →
  let st' := Index.onmessage a (Object o) st in
  if String.eqb s "Connected" then st' = Index.setIsConnected true st
  else
    Index.status st' = Some (StatusUpdate.mk (JStr s) (o.["timestamp"]))
    ∧ Index.isLoading st'
        = (if String.eqb s "Task completed" then false else Index.isLoading st)
    ∧ Index.lastUpdateTime st' = Index.Date_now a
    ∧ Index.messages st' = Index.messages st
    ∧ Index.screenshot st' = Index.screenshot st
    ∧ Index.hasError st' = Index.hasError st
    ∧ Index.isConnected st' = Index.isConnected st.
Proof.
  intros Hm Ht Hs st'. subst st'.
  rewrite (onmessage_status a o st Hm Ht). unfold Index.case_status.
  rewrite Hs. simpl.
  destruct (String.eqb s "Connected"); [reflexivity |].
  destruct (String.eqb s "Task completed"); simpl; by repeat split.
Qed.

Lemma status_event_handling_witness :
  Index.mountedRef Sample.home = true
  ∧ Sample.status_navigating.["type"] = JStr "status"
  ∧ Sample.status_navigating.["status"] = JStr "Navigating to https://example.com"
  ∧ Index.status
      (Index.onmessage Sample.ambient (Object Sample.status_navigating) Sample.home)
      = Some (StatusUpdate.mk (JStr "Navigating to https://example.com")
                (Sample.status_navigating.["timestamp"])).
Proof.
  assert (Ht : Sample.status_navigating.["type"] = JStr "status")
    by (vm_compute; reflexivity).
  assert (Hs : Sample.status_navigating.["status"]
               = JStr "Navigating to https://example.com")
    by (vm_compute; reflexivity).
  repeat (split; [first [reflexivity | assumption] |]).
  exact (proj1 (status_event_handling Sample.ambient Sample.status_navigating
                  "Navigating to https://example.com" Sample.home
                  eq_refl Ht Hs)).
Defined.

(** The handler never reads [thinking]. *)
Lemma onmessage_ignores_thinking (a : Index.Ambient) (o : gmap string jsval)
    (v : jsval) (st : Index.Home) :
  Index.onmessage a (Object (<["thinking" := v]> o)) st
  = Index.onmessage a (Object o) st.
Proof.
  unfold Index.onmessage, Index.try_object, Index.case_screenshot,
    Index.case_message, Index.case_status, Index.case_error.
  by rewrite !prop_insert_ne by done.
Qed.

(** C6, as the specification words it, fails: a message event may carry a
    fourth member, [thinking]; such an event is of the declared type, is
    not of the worded shape, and is shown like any other. *)
Lemma message_exact_fields_counterexample :
  WebSocketUpdate.message Sample.message_thinking = true
  ∧ SpecEvents.message Sample.message_thinking = false
  ∧ SpecEvents.message Sample.message_plain = true
  ∧ Index.messages
      (Index.onmessage Sample.ambient (Object Sample.message_thinking) Sample.home)
      = [Index.agent_message "id-1" (JStr "Clicking the pricing link")
           (JNum 1700000000000)].
Proof. vm_compute. repeat split. Qed.

(** C6, amended: a message event has the members [type] message, a string
    [content] and a [timestamp], and optionally a string [thinking].  The
    client appends [content] with the [timestamp] as an agent message, and
    [thinking] has no effect on the page. *)
Theorem message_event_handling (a : Index.Ambient) (o : gmap string jsval)
    (st : Index.Home) :
  Index.mountedRef st = true →
  WebSocketUpdate.message o = true →
  Index.messages (Index.onmessage a (Object o) st)
    = (Index.messages st
       ++ [Index.agent_message (Index.uuidv4 a) (o.["content"]) (o.["timestamp"])])%list
  ∧ (∃ c, o.["content"] = JStr c)
  ∧ ∀ v, Index.onmessage a (Object (<["thinking" := v]> o)) st
         = Index.onmessage a (Object o) st.
Proof.
  intros Hm Hwf. unfold WebSocketUpdate.message in Hwf.
  apply andb_prop in Hwf as [Hwf _]. apply andb_prop in Hwf as [Hwf _].
  apply andb_prop in Hwf as [Ht Hc]. apply strict_eq_str_true in Ht.
  split; [| split].
  - unfold Index.onmessage, Index.try_object. rewrite Hm, Ht. reflexivity.
  - destruct (o.["content"]); try discriminate. eauto.
  - intros v. apply onmessage_ignores_thinking.
Qed.

Lemma message_event_handling_witness :
  Index.mountedRef Sample.home = true
  ∧ WebSocketUpdate.message Sample.message_thinking = true
  ∧ Index.messages
      (Index.onmessage Sample.ambient (Object Sample.message_thinking) Sample.home)
    = (Index.messages Sample.home
       ++ [Index.agent_message (Index.uuidv4 Sample.ambient)
             (Sample.message_thinking.["content"])
             (Sample.message_thinking.["timestamp"])])%list.
Proof.
  assert (Hwf : WebSocketUpdate.message Sample.message_thinking = true)
    by (vm_compute; reflexivity).
  split; [reflexivity |]. split; [exact Hwf |].
  exact (proj1 (message_event_handling Sample.ambient Sample.message_thinking
                  Sample.home eq_refl Hwf)).
Defined.

(* ===================================================================== *)
(** ** Submitting a task                                                  *)
(* ===================================================================== *)

Lemma truthy_string (s : string) : truthy (JStr s) = true ↔ s ≠ "".
Proof.
  simpl. destruct (String.eqb_spec s ""); simpl; split; congruence.
Qed.

Lemma handleSubmit_Some (s : TaskInput.State) (t : BrowsingTask.t) :
  TaskInput.handleSubmit s = Some t →
  TaskInput.url s ≠ "" ∧ TaskInput.instruction s ≠ ""
  ∧ t = BrowsingTask.mk (TaskInput.url s) (TaskInput.instruction s).
Proof.
  unfold TaskInput.handleSubmit.
  destruct (truthy (JStr (TaskInput.url s))) eqn:Hu; [| discriminate].
  destruct (truthy (JStr (TaskInput.instruction s))) eqn:Hi; [| discriminate].
  simpl. intros [= <-].
  apply truthy_string in Hu. apply truthy_string in Hi. done.
Qed.

Lemma handleSubmitTask_sent (a : Index.Ambient) (t : BrowsingTask.t)
    (g : Index.Globals) (st : Index.Home) (f : list (string * jsval)) :
  In f (Index.sent (Index.handleSubmitTask a t g st)) →
  f = Index.JSON_stringify t ∧ Index.socket_open g = true.
Proof.
  unfold Index.handleSubmitTask.
  destruct (Index.socket_open g); simpl.
  - destruct (Index.send_throws a); simpl; [done |]. intros [<- | []]. done.
  - destruct (Index.connectWebSocket a g _). simpl. done.
Qed.

Lemma handleSubmitTask_timeout (a : Index.Ambient) (t t' : BrowsingTask.t)
    (g : Index.Globals) (st : Index.Home) :
  Index.timeout (Index.handleSubmitTask a t g st) = Some t' →
  t' = t ∧ Index.socket_open g = false.
Proof.
  unfold Index.handleSubmitTask.
  destruct (Index.socket_open g); simpl.
  - by destruct (Index.send_throws a).
  - destruct (Index.connectWebSocket a g _). simpl. by intros [= <-].
Qed.

Lemma retry_callback_sent (a : Index.Ambient) (t : BrowsingTask.t)
    (g : Index.Globals) (st : Index.Home) (f : list (string * jsval)) :
  In f (Index.sent (Index.retry_callback a t g st)) →
  f = Index.JSON_stringify t.
Proof.
  unfold Index.retry_callback.
  destruct (Index.socket_open g); simpl; [| done].
  intros Hin. by apply handleSubmitTask_sent in Hin as [-> _].
Qed.

Lemma retry_callback_timeout (a : Index.Ambient) (t : BrowsingTask.t)
    (g : Index.Globals) (st : Index.Home) :
  Index.timeout (Index.retry_callback a t g st) = None.
Proof.
  unfold Index.retry_callback.
  destruct (Index.socket_open g) eqn:Ho; simpl; [| done].
  destruct (Index.timeout (Index.handleSubmitTask a t g st)) as [t'|] eqn:E;
    [| done].
  apply handleSubmitTask_timeout in E as [_ E]. congruence.
Qed.

(** C7: a task is the two strings [url] and [instruction]; from its
    submission on it is passed along unchanged: the frame sent is the
    document of these two members, the retry holds the same task, sends
    the same document and sets no further timer. *)
Theorem task_is_immutable (a : Index.Ambient) (task : BrowsingTask.t)
    (g : Index.Globals) (st : Index.Home) :
  let r := Index.handleSubmitTask a task g st in
  Index.JSON_stringify task
    = [("url", JStr (BrowsingTask.url task));
       ("instruction", JStr (BrowsingTask.instruction task))]
  ∧ (∀ f, In f (Index.sent r) → f = Index.JSON_stringify task)
  ∧ (∀ t, Index.timeout r = Some t →
       t = task
       ∧ ∀ a' g' st',
           let r' := Index.retry_callback a' t g' st' in
           (∀ f, In f (Index.sent r') → f = Index.JSON_stringify task)
           ∧ Index.timeout r' = None).
Proof.
  intros r. subst r. split; [reflexivity |]. split.
  - intros f Hin. by apply handleSubmitTask_sent in Hin as [-> _].
  - intros t Ht. apply handleSubmitTask_timeout in Ht as [-> _].
    split; [reflexivity |]. intros a' g' st' r'. subst r'. split.
    + intros f Hin. by apply retry_callback_sent in Hin.
    + apply retry_callback_timeout.
Qed.

Lemma task_is_immutable_witness :
  Index.timeout (Index.handleSubmitTask Sample.ambient Sample.task
                   Sample.no_socket Sample.home) = Some Sample.task
  ∧ In (Index.JSON_stringify Sample.task)
       (Index.sent (Index.retry_callback Sample.ambient Sample.task
                      Sample.open_socket Sample.home))
  ∧ Index.timeout (Index.retry_callback Sample.ambient Sample.task
                     Sample.open_socket Sample.home) = None.
Proof.
  split; [reflexivity |]. split; [left; reflexivity |].
  exact (proj2 (proj2 (proj2 (proj2 (task_is_immutable Sample.ambient Sample.task
                                       Sample.no_socket Sample.home))
                         Sample.task eq_refl)
                  Sample.ambient Sample.open_socket Sample.home)).
Defined.

(** C10: a frame leaves the client only for a form whose [url] and
    [instruction] are both non-empty, and it is the document of that
    task; this holds for the submission and for its retry.  The submit
    button is enabled only for such a form. *)
Theorem submit_sends_only_complete_tasks (a : Index.Ambient)
    (s : TaskInput.State) (g : Index.Globals) (st : Index.Home) :
  let r := TaskInput.submit a s g st in
  let task := BrowsingTask.mk (TaskInput.url s) (TaskInput.instruction s) in
  (∀ f, In f (Index.sent r) →
     TaskInput.url s ≠ "" ∧ TaskInput.instruction s ≠ ""
     ∧ f = Index.JSON_stringify task)
  ∧ (∀ t a' g' st' f, Index.timeout r = Some t →
       In f (Index.sent (Index.retry_callback a' t g' st')) →
       TaskInput.url s ≠ "" ∧ TaskInput.instruction s ≠ ""
       ∧ f = Index.JSON_stringify task)
  ∧ (∀ p, TaskInput.submit_disabled p s = false →
       TaskInput.url s ≠ "" ∧ TaskInput.instruction s ≠ "").
Proof.
  intros r task. subst r task. unfold TaskInput.submit. split; [| split].
  - intros f Hin.
    destruct (TaskInput.handleSubmit s) as [t|] eqn:Hs; [| destruct Hin].
    apply handleSubmit_Some in Hs as (Hu & Hi & ->).
    by apply handleSubmitTask_sent in Hin as [-> _].
  - intros t a' g' st' f Ht Hin.
    destruct (TaskInput.handleSubmit s) as [t0|] eqn:Hs; [| discriminate].
    apply handleSubmit_Some in Hs as (Hu & Hi & ->).
    apply handleSubmitTask_timeout in Ht as [-> _].
    by apply retry_callback_sent in Hin as ->.
  - intros p Hd. unfold TaskInput.submit_disabled in Hd.
    apply orb_false_elim in Hd as [Hd _]. apply orb_false_elim in Hd as [Hd Hi].
    apply orb_false_elim in Hd as [_ Hu].
    apply negb_false_iff in Hu, Hi.
    apply truthy_string in Hu. apply truthy_string in Hi. done.
Qed.

Lemma submit_sends_only_complete_tasks_witness :
  In (Index.JSON_stringify Sample.task)
     (Index.sent (TaskInput.submit Sample.ambient Sample.form
                    Sample.open_socket Sample.home))
  ∧ TaskInput.url Sample.form ≠ "" ∧ TaskInput.instruction Sample.form ≠ "".
Proof.
  assert (Hin : In (Index.JSON_stringify Sample.task)
                  (Index.sent (TaskInput.submit Sample.ambient Sample.form
                                 Sample.open_socket Sample.home)))
    by (left; reflexivity).
  split; [exact Hin |].
  destruct (proj1 (submit_sends_only_complete_tasks Sample.ambient Sample.form
                     Sample.open_socket Sample.home) _ Hin) as (Hu & Hi & _).
  split; assumption.
Defined.

(* ===================================================================== *)
(** ** Starting and cancelling a run                                      *)
(* ===================================================================== *)

Lemma startRun_wf (task : BrowsingTask.t) (c : Core.t) :
  Core.wf c → Core.wf (Core.startRun task c).1.
Proof.
  intros Hwf id. simpl. rewrite lookup_insert.
  case_decide as Hid; [subst; lia |].
  intros His. specialize (Hwf id His). lia.
Qed.

Lemma empty_wf : Core.wf Core.empty.
Proof. intros id. simpl. rewrite lookup_empty. by intros [? ?]. Qed.

(** C3: [startRun] takes a task of a url and an instruction and returns a
    run identifier, fresh in the registry, under which the task is
    registered; [cancelRun] accepts that identifier and raises the stop
    signal of that run. *)
Theorem startRun_then_cancelRun (task : BrowsingTask.t) (c : Core.t) :
  Core.wf c →
  let c1 := (Core.startRun task c).1 in
  let id := (Core.startRun task c).2 in
  Core.runs c !! id = None
  ∧ Core.runs c1 !! id = Some (Core.mkRun task false)
  ∧ Core.wf c1
  ∧ ∃ c2, Core.cancelRun id c1 = Some c2
          ∧ Core.runs c2 !! id = Some (Core.mkRun task true)
          ∧ ∀ id', id' ≠ id → Core.runs c2 !! id' = Core.runs c !! id'.
Proof.
  intros Hwf c1 id. subst c1 id. simpl. repeat split.
  - destruct (Core.runs c !! Core.nextId c) eqn:E; [| done].
    specialize (Hwf (Core.nextId c) (mk_is_Some _ _ E)). lia.
  - by rewrite lookup_insert_eq.
  - by apply startRun_wf.
  - unfold Core.cancelRun. simpl. rewrite lookup_insert_eq.
    eexists. split; [reflexivity |]. simpl. split.
    + by rewrite lookup_insert_eq.
    + intros id' Hne. by rewrite !lookup_insert_ne.
Qed.

Lemma startRun_then_cancelRun_witness :
  Core.wf Core.empty
  ∧ (Core.startRun Sample.task Core.empty).2 = 0%nat
  ∧ ∃ c2, Core.cancelRun 0%nat (Core.startRun Sample.task Core.empty).1 = Some c2
          ∧ Core.runs c2 !! 0%nat = Some (Core.mkRun Sample.task true).
Proof.
  split; [exact empty_wf |]. split; [reflexivity |].
  destruct (startRun_then_cancelRun Sample.task Core.empty empty_wf)
    as (_ & _ & _ & c2 & Hc & Hr & _).
  exists c2. split; [exact Hc | exact Hr].
Defined.

(* ===================================================================== *)
(** ** The resolver                                                       *)
(* ===================================================================== *)

Section ResolverFacts.

Import Resolver.

(** The head of a filtered list is the first element that passes. *)
Lemma filter_head_first {A : Type} (q : A → bool) (l : list A) (c : A) :
  head (List.filter q l) = Some c →
  ∃ before after, l = (before ++ c :: after)%list ∧ q c = true
    ∧ ∀ c', In c' before → q c' = false.
Proof.
  induction l as [|e l IH]; simpl; [discriminate |].
  destruct (q e) eqn:He; simpl.
  - intros [= ->]. exists [], l. by repeat split.
  - intros Hh. destruct (IH Hh) as (before & after & -> & Hc & Hb).
    exists (e :: before), after. repeat split; [done |].
    intros c' [<- | Hin]; [done | by apply Hb].
Qed.

(** What [climb] returns comes from one step of the ladder it was
    given. *)
Lemma climb_candidates (steps : list (confidence * (ElementCandidate → bool)))
    (snapshot : list ElementCandidate) :
  candidates (climb steps snapshot) ≠ [] →
  ∃ conf p, In (conf, p) steps
    ∧ candidates (climb steps snapshot) = matching p snapshot.
Proof.
  induction steps as [|[conf p] rest IH]; simpl; [done |].
  destruct (matching p snapshot) as [|c [|c' cs]] eqn:E; simpl.
  - intros Hne. destruct (IH Hne) as (conf' & p' & Hin & Hc). eauto.
  - intros _. exists conf, p. split; [by left | by rewrite E].
  - intros _. exists conf, p. split; [by left | by rewrite E].
Qed.

Lemma climb_tag (steps : list (confidence * (ElementCandidate → bool)))
    (snapshot : list ElementCandidate) :
  (∀ conf p, In (conf, p) steps → conf = exact ∨ conf = repaired) →
  match tag (climb steps snapshot) with
  | none => candidates (climb steps snapshot) = []
  | ambiguous => (2 ≤ length (candidates (climb steps snapshot)))%nat
  | exact | repaired => length (candidates (climb steps snapshot)) = 1%nat
  end.
Proof.
  induction steps as [|[conf p] rest IH]; simpl; [done |].
  intros Hconf.
  destruct (matching p snapshot) as [|c [|c' cs]] eqn:E; simpl.
  - apply IH. intros conf' p' Hin. eapply Hconf. by right.
  - destruct (Hconf conf p (or_introl eq_refl)) as [-> | ->]; reflexivity.
  - lia.
Qed.

Lemma ladder_tags (parse : string → option Selector) (targetHint : string) :
  ∀ conf p, In (conf, p) (ladder parse targetHint) →
            conf = exact ∨ conf = repaired.
Proof.
  intros conf p Hin. unfold ladder in Hin. simpl in Hin.
  repeat destruct Hin as [[= <- _] | Hin]; auto. destruct Hin.
Qed.

(** C5: [resolve] is a function of the snapshot and of the target hint
    (of the parser only through its reading of the hint), so repeated
    calls agree.  The candidate it chooses is the first one in document
    order that can be interacted with and matches at the deciding step:
    no earlier candidate of the snapshot does.  The tag is [ambiguous]
    exactly when several candidates remain. *)
Theorem resolve_deterministic (parse parse' : string → option Selector)
    (targetHint : string) (snapshot : list ElementCandidate) :
  parse targetHint = parse' targetHint →
  let r := resolve parse targetHint snapshot in
  resolve parse' targetHint snapshot = r
  ∧ (∀ c, chosen r = Some c →
       ∃ conf p before after,
         In (conf, p) (ladder parse targetHint)
         ∧ candidates r = matching p snapshot
         ∧ snapshot = (before ++ c :: after)%list
         ∧ isInteractable c && p c = true
         ∧ ∀ c', In c' before → isInteractable c' && p c' = false)
  ∧ (tag r = ambiguous ↔ (2 ≤ length (candidates r))%nat)
  ∧ (tag r = none ↔ chosen r = None).
Proof.
  intros Hparse r. subst r. split; [| split; [| split]].
  - unfold resolve, ladder. by rewrite Hparse.
  - intros c Hc. unfold chosen in Hc.
    destruct (climb_candidates (ladder parse targetHint) snapshot)
      as (conf & p & Hin & Hcs).
    { unfold resolve in Hc. by destruct (candidates _). }
    unfold resolve in Hc |- *. rewrite Hcs in Hc. unfold matching in Hc.
    destruct (filter_head_first _ _ _ Hc) as (before & after & Hs & Hq & Hb).
    exists conf, p, before, after. by repeat split.
  - pose proof (climb_tag (ladder parse targetHint) snapshot
                  (ladder_tags parse targetHint)) as Ht.
    unfold resolve. destruct (tag _); split; try done; try lia.
    rewrite Ht. simpl. lia.
  - pose proof (climb_tag (ladder parse targetHint) snapshot
                  (ladder_tags parse targetHint)) as Ht.
    unfold resolve, chosen.
    destruct (tag _); split; try done;
      try (by rewrite Ht);
      destruct (candidates _); simpl in *; try done; lia.
Qed.

Lemma resolve_deterministic_witness :
  Sample.no_selector "Products" = Sample.no_selector "Products"
  ∧ chosen (resolve Sample.no_selector "Products" Sample.snapshot)
      = Some (Sample.link 2 "Products" "/products/enterprise" true)
  ∧ tag (resolve Sample.no_selector "Products" Sample.snapshot) = ambiguous
  ∧ resolve Sample.no_selector "Products" Sample.snapshot
      = resolve Sample.no_selector "Products" Sample.snapshot.
Proof.
  split; [reflexivity |]. split; [vm_compute; reflexivity |].
  split; [vm_compute; reflexivity |].
  exact (proj1 (resolve_deterministic Sample.no_selector Sample.no_selector
                  "Products" Sample.snapshot eq_refl)).
Defined.

End ResolverFacts.

(* ===================================================================== *)
(** ** The loop controller                                                *)
(* ===================================================================== *)

Section LoopFacts.

Import Loop.

Variable cfg : Config.

Lemma step_terminal (i : Input) (c : Controller) :
  terminal (phase c) = true → step cfg i c = c.
Proof. intros Ht. unfold step. by rewrite Ht. Qed.

Lemma soft_failure_inv (c : Controller) :
  inv cfg c → inv cfg (soft_failure cfg c).
Proof.
  intros [Hi Hf]. unfold soft_failure, inv.
  destruct (Nat.leb_spec (retryLimit cfg) (failures c)); simpl; lia.
Qed.

Lemma soft_failure_phase (c : Controller) :
  (phase (soft_failure cfg c) = FAILED "could not complete step"
   ∧ (retryLimit cfg ≤ failures c)%nat)
  ∨ (phase (soft_failure cfg c) = PERCEIVING
     ∧ failures (soft_failure cfg c) = S (failures c)
     ∧ (failures c < retryLimit cfg)%nat).
Proof.
  unfold soft_failure.
  destruct (Nat.leb_spec (retryLimit cfg) (failures c)); simpl; auto.
Qed.

Lemma soft_failure_iteration (c : Controller) :
  iteration (soft_failure cfg c) = iteration c.
Proof. unfold soft_failure. by destruct (_ <=? _)%nat. Qed.

Lemma soft_failure_fuel (c : Controller) :
  (fuel cfg (soft_failure cfg c)
   ≤ 5 * (maxIterations cfg - iteration c) + 1)%nat.
Proof.
  unfold soft_failure, fuel.
  destruct (retryLimit cfg <=? failures c)%nat; cbn [phase iteration]; lia.
Qed.

Lemma step_inv (i : Input) (c : Controller) :
  inv cfg c → inv cfg (step cfg i c).
Proof.
  intros Hinv. pose proof (soft_failure_inv c Hinv) as Hsoft.
  destruct Hinv as [Hi Hf]. unfold step.
  destruct (terminal (phase c)); [done |].
  destruct (stop i); [done |].
  destruct (wallClockBudget cfg <? elapsed i)%nat; [done |].
  destruct (phase c); try done.
  - destruct (Nat.leb_spec (maxIterations cfg) (iteration c)); [done |].
    destruct (perceived i); [| done]. unfold inv. simpl. lia.
  - destruct (decided i) as [[]|]; done.
  - destruct (resolved i); done.
  - destruct (executed i); done.
  - destruct (verified i); try done. unfold inv. simpl. lia.
Qed.

(** Every transition from a state that is not terminal uses fuel. *)
Lemma step_fuel (i : Input) (c : Controller) :
  terminal (phase c) = false →
  (fuel cfg (step cfg i c) < fuel cfg c)%nat.
Proof.
  intros Ht. pose proof (soft_failure_fuel c) as Hsoft.
  assert (Hpos : (1 ≤ fuel cfg c)%nat).
  { unfold fuel. destruct (phase c); try discriminate; lia. }
  unfold step. rewrite Ht.
  destruct (stop i); [exact Hpos |].
  destruct (wallClockBudget cfg <? elapsed i)%nat; [exact Hpos |].
  unfold fuel at 2. unfold fuel in Hpos, Hsoft.
  destruct (phase c); try discriminate.
  - destruct (Nat.leb_spec (maxIterations cfg) (iteration c)); [exact Hpos |].
    destruct (perceived i); [| exact Hpos].
    unfold fuel. cbn [phase iteration]. lia.
  - destruct (decided i) as [[]|]; unfold fuel; cbn [phase iteration]; lia.
  - destruct (resolved i); unfold fuel; cbn [phase iteration]; lia.
  - destruct (executed i); unfold fuel; cbn [phase iteration]; lia.
  - destruct (verified i); unfold fuel; cbn [phase iteration]; lia.
Qed.

Variable env : nat → Input.

Lemma run_from_terminal (k n : nat) (c : Controller) :
  terminal (phase c) = true → run_from cfg env k n c = c.
Proof.
  revert k. induction n as [|n IH]; intros k Ht; simpl; [done |].
  rewrite step_terminal by done. by apply IH.
Qed.

Lemma run_from_inv (k n : nat) (c : Controller) :
  inv cfg c → inv cfg (run_from cfg env k n c).
Proof.
  revert k c. induction n as [|n IH]; intros k c Hinv; simpl; [done |].
  apply IH. by apply step_inv.
Qed.

Lemma run_from_fuel (n k : nat) (c : Controller) :
  (fuel cfg c ≤ n)%nat → terminal (phase (run_from cfg env k n c)) = true.
Proof.
  revert k c. induction n as [|n IH]; intros k c Hfuel; simpl.
  - destruct (terminal (phase c)) eqn:Ht; [done |].
    unfold fuel in Hfuel. destruct (phase c); simpl in *; try done; lia.
  - destruct (terminal (phase c)) eqn:Ht.
    + rewrite step_terminal by done. by rewrite run_from_terminal.
    + apply IH. pose proof (step_fuel (env k) c Ht). lia.
Qed.

Lemma run_from_snoc (n k : nat) (c : Controller) :
  run_from cfg env k (S n) c
  = step cfg (env (k + n)%nat) (run_from cfg env k n c).
Proof.
  revert k c. induction n as [|n IH]; intros k c.
  - simpl. by rewrite Nat.add_0_r.
  - change (run_from cfg env k (S (S n)) c)
      with (run_from cfg env (S k) (S n) (step cfg (env k) c)).
    rewrite IH. simpl. by rewrite Nat.add_succ_r.
Qed.

Lemma step_over_budget (i : Input) (c : Controller) :
  stop i = true ∨ (wallClockBudget cfg < elapsed i)%nat →
  terminal (phase (step cfg i c)) = true.
Proof.
  intros Hover. unfold step.
  destruct (terminal (phase c)) eqn:Ht; [done |].
  destruct (stop i); [done |].
  destruct Hover as [? | Hover]; [done |].
  apply Nat.ltb_lt in Hover. by rewrite Hover.
Qed.

Lemma run_S (n : nat) : run cfg env (S n) = step cfg (env n) (run cfg env n).
Proof. unfold run. by rewrite run_from_snoc. Qed.

(** A soft failure is handled by the retry policy. *)
Lemma step_soft (i : Input) (c : Controller) :
  soft cfg i c = true → step cfg i c = soft_failure cfg c.
Proof.
  unfold soft, live, step.
  destruct (terminal (phase c)); [done |].
  destruct (stop i); [done |].
  destruct (wallClockBudget cfg <? elapsed i)%nat; [done |]. simpl.
  destruct (phase c); try done.
  - by destruct (decided i).
  - by destruct (resolved i).
  - by destruct (verified i).
Qed.

(** A completed directive resets the counter. *)
Lemma step_completes (i : Input) (c : Controller) :
  completes cfg i c = true →
  step cfg i c = mkController PERCEIVING (iteration c) 0.
Proof.
  unfold completes, live, step.
  destruct (terminal (phase c)); [done |].
  destruct (stop i); [done |].
  destruct (wallClockBudget cfg <? elapsed i)%nat; [done |]. simpl.
  destruct (phase c); try done. by destruct (verified i).
Qed.

(** No other transition touches the counter. *)
Lemma step_other (i : Input) (c : Controller) :
  soft cfg i c = false → completes cfg i c = false →
  failures (step cfg i c) = failures c
  ∧ phase (step cfg i c) ≠ FAILED "could not complete step"
    ∨ step cfg i c = c.
Proof.
  unfold soft, completes, live, step.
  destruct (terminal (phase c)); [by right |].
  destruct (stop i); [by left |].
  destruct (wallClockBudget cfg <? elapsed i)%nat; [by left |]. simpl.
  destruct (phase c); try (by right).
  - destruct (maxIterations cfg <=? iteration c)%nat; [by left |].
    by destruct (perceived i); left.
  - by destruct (decided i) as [[]|]; left.
  - by destruct (resolved i); left.
  - by destruct (executed i); left.
  - by destruct (verified i); left.
Qed.

(** While the run goes on, the counter is the number of consecutive soft
    failures of the current directive. *)
Lemma failures_streak (n : nat) :
  (terminal (phase (run cfg env n)) = false →
   failures (run cfg env n) = streak cfg env n)
  ∧ (streak cfg env n ≤ S (retryLimit cfg))%nat.
Proof.
  induction n as [|n [IHf IHs]].
  - split; [done | simpl; lia].
  - assert (Hinv : inv cfg (run cfg env n)).
    { apply run_from_inv. unfold inv. simpl. lia. }
    destruct Hinv as [_ Hle].
    rewrite run_S. cbn [streak].
    destruct (soft cfg (env n) (run cfg env n)) eqn:Hsoft.
    + assert (Hlive : terminal (phase (run cfg env n)) = false).
      { unfold soft, live in Hsoft.
        by destruct (terminal (phase (run cfg env n))). }
      specialize (IHf Hlive). rewrite (step_soft _ _ Hsoft).
      unfold soft_failure.
      destruct (Nat.leb_spec (retryLimit cfg) (failures (run cfg env n)));
        simpl; split; try done; lia.
    + destruct (completes cfg (env n) (run cfg env n)) eqn:Hc.
      * rewrite (step_completes _ _ Hc). simpl. split; [done | lia].
      * split; [| lia]. intros Ht.
        destruct (step_other _ _ Hsoft Hc) as [[Hf _] | Heq].
        -- rewrite Hf. apply IHf.
           destruct (terminal (phase (run cfg env n))) eqn:Hn; [| done].
           rewrite step_terminal in Ht by done. congruence.
        -- rewrite Heq in Ht |- *. by apply IHf.
Qed.

(** C4: every run reaches [DONE] or [FAILED] within the iteration
    budget, after at most [5 * maxIterations + 1] transitions, and stays
    there; a transition taken past the wall-clock budget (or under the
    stop signal) ends in a terminal state; the failure counter never
    exceeds the retry limit, and a soft failure at the limit ends the
    run with the reason "could not complete step".  The counter bounds
    the retries: while the run goes on it is the number of consecutive
    soft failures of the current directive, counted on the run itself;
    that number never exceeds the retry limit by more than the failure
    that ends the run; a soft failure below the limit is retried from
    [PERCEIVING], a soft failure at the limit ends the run with "could
    not complete step", and the run ends with that reason in no other
    way. *)
Theorem loop_terminates :
  (∀ n, (5 * maxIterations cfg + 1 ≤ n)%nat →
        terminal (phase (run cfg env n)) = true)
  ∧ (∀ n m, terminal (phase (run cfg env n)) = true → (n ≤ m)%nat →
            run cfg env m = run cfg env n)
  ∧ (∀ k, (wallClockBudget cfg < elapsed (env k))%nat →
          terminal (phase (run cfg env (S k))) = true)
  ∧ (∀ n, (failures (run cfg env n) ≤ retryLimit cfg)%nat
          ∧ (iteration (run cfg env n) ≤ maxIterations cfg)%nat)
  ∧ (∀ c, (retryLimit cfg ≤ failures c)%nat →
          phase (soft_failure cfg c) = FAILED "could not complete step")
  ∧ (∀ n, terminal (phase (run cfg env n)) = false →
          failures (run cfg env n) = streak cfg env n
          ∧ (streak cfg env n ≤ retryLimit cfg)%nat)
  ∧ (∀ n, (streak cfg env n ≤ S (retryLimit cfg))%nat)
  ∧ (∀ n, soft cfg (env n) (run cfg env n) = true →
          if (streak cfg env n <? retryLimit cfg)%nat
          then phase (run cfg env (S n)) = PERCEIVING
               ∧ iteration (run cfg env (S n)) = iteration (run cfg env n)
               ∧ streak cfg env (S n) = S (streak cfg env n)
          else phase (run cfg env (S n)) = FAILED "could not complete step")
  ∧ (∀ n, terminal (phase (run cfg env n)) = false →
          phase (run cfg env (S n)) = FAILED "could not complete step" →
          soft cfg (env n) (run cfg env n) = true
          ∧ streak cfg env n = retryLimit cfg).
Proof.
  assert (Hinit : inv cfg initial) by (unfold inv; simpl; lia).
  assert (Hcount : ∀ n, terminal (phase (run cfg env n)) = false →
            failures (run cfg env n) = streak cfg env n
            ∧ (streak cfg env n ≤ retryLimit cfg)%nat).
  { intros n Ht. destruct (failures_streak n) as [Hf _].
    specialize (Hf Ht). split; [done |]. rewrite <- Hf.
    by destruct (run_from_inv 0 n initial Hinit) as [_ Hle]. }
  assert (Hlive : ∀ n, soft cfg (env n) (run cfg env n) = true →
            terminal (phase (run cfg env n)) = false).
  { intros n Hsoft. unfold soft, live in Hsoft.
    by destruct (terminal (phase (run cfg env n))). }
  repeat apply conj.
  - intros n Hn. apply run_from_fuel. unfold fuel. simpl. lia.
  - intros n m Ht Hle. unfold run in *.
    replace m with (n + (m - n))%nat by lia.
    generalize (m - n)%nat as d. intros d. induction d as [|d IH].
    + by rewrite Nat.add_0_r.
    + rewrite Nat.add_succ_r, run_from_snoc, IH. by apply step_terminal.
  - intros k Hk. unfold run. rewrite run_from_snoc. simpl.
    apply step_over_budget. by right.
  - intros n. by destruct (run_from_inv 0 n initial Hinit) as [Hi Hf].
  - intros c Hc. destruct (soft_failure_phase c) as [[-> _] | (_ & _ & Hlt)];
      [done | lia].
  - exact Hcount.
  - intros n. by destruct (failures_streak n).
  - intros n Hsoft. destruct (Hcount n (Hlive n Hsoft)) as [Hf Hle].
    rewrite run_S, (step_soft _ _ Hsoft). cbn [streak]. rewrite Hsoft.
    unfold soft_failure. rewrite Hf.
    destruct (Nat.ltb_spec (streak cfg env n) (retryLimit cfg)) as [Hlt|Hge].
    + apply Nat.leb_gt in Hlt. by rewrite Hlt.
    + apply Nat.leb_le in Hge. by rewrite Hge.
  - intros n Ht Hfail. destruct (Hcount n Ht) as [Hf Hle].
    rewrite run_S in Hfail.
    destruct (soft cfg (env n) (run cfg env n)) eqn:Hsoft.
    + split; [done |]. rewrite (step_soft _ _ Hsoft) in Hfail.
      destruct (soft_failure_phase (run cfg env n)) as [[_ Hge] | (Hp & _)];
        [lia | congruence].
    + exfalso.
      destruct (completes cfg (env n) (run cfg env n)) eqn:Hc.
      * by rewrite (step_completes _ _ Hc) in Hfail.
      * destruct (step_other _ _ Hsoft Hc) as [[_ Hne] | Heq]; [done |].
        rewrite Heq in Hfail. by rewrite Hfail in Ht.
Qed.

End LoopFacts.

Lemma loop_terminates_witness :
  (5 * Loop.maxIterations Sample.config + 1 ≤ 51)%nat
  ∧ Loop.terminal (Loop.phase (Loop.run Sample.config Sample.stuck 51)) = true
  ∧ Loop.soft Sample.config (Sample.stuck 14)
      (Loop.run Sample.config Sample.stuck 14) = true
  ∧ Loop.streak Sample.config Sample.stuck 14 = Loop.retryLimit Sample.config
  ∧ Loop.phase (Loop.run Sample.config Sample.stuck 15)
      = Loop.FAILED "could not complete step".
Proof.
  assert (Hn : (5 * Loop.maxIterations Sample.config + 1 ≤ 51)%nat)
    by (vm_compute; lia).
  assert (Hsoft : Loop.soft Sample.config (Sample.stuck 14)
                    (Loop.run Sample.config Sample.stuck 14) = true)
    by (vm_compute; reflexivity).
  assert (Hstreak : Loop.streak Sample.config Sample.stuck 14
                    = Loop.retryLimit Sample.config)
    by (vm_compute; reflexivity).
  destruct (loop_terminates Sample.config Sample.stuck)
    as (Hend & _ & _ & _ & _ & _ & _ & Hretry & _).
  split; [exact Hn |]. split; [exact (Hend 51%nat Hn) |].
  split; [exact Hsoft |]. split; [exact Hstreak |].
  specialize (Hretry 14%nat Hsoft). rewrite Hstreak, Nat.ltb_irrefl in Hretry.
  exact Hretry.
Defined.

(* ===================================================================== *)
(** ** More on [ws.onmessage]                                             *)
(* ===================================================================== *)

(** The state after an error event on a mounted page. *)
Lemma onmessage_error (a : Index.Ambient) (o : gmap string jsval)
    (st : Index.Home) :
  Index.mountedRef st = true →
  o.["type"] = JStr "error" →
  Index.onmessage a (Object o) st
  = Index.case_error a o (Index.setLastUpdateTime (Index.Date_now a) st).
Proof.
  intros Hm Ht. unfold Index.onmessage, Index.try_object. by rewrite Hm, Ht.
Qed.


(** A frame adds messages at the end of the history only. *)
Lemma onmessage_messages (a : Index.Ambient) (d : parsed) (st : Index.Home) :
  ∃ l, Index.messages (Index.onmessage a d st) = (Index.messages st ++ l)%list.
Proof.
  onmessage_cases;
    first [ by (exists []; rewrite app_nil_r) | by eexists [_] ].
Qed.

(** X1: an error event on a mounted page appends one agent message,
    stops loading and raises the error flag; the screenshot, the status
    and the connection flag stay.  The content of the message is "Error: "
    followed by the text JavaScript prints for [message]: the string
    itself when [message] is a string, the word "undefined" when the
    member is missing, and for any other value that can be printed the
    text of it (a number outside the integers printed as digits by its
    own text, as "1e+21"). *)
Theorem error_event_handling (a : Index.Ambient) (o : gmap string jsval)
    (st : Index.Home) (text : string) :
  Index.mountedRef st = true →
  o.["type"] = JStr "error" →
  wf (o.["message"]) = true →
  to_template (o.["message"]) = Some text →
  let st' := Index.onmessage a (Object o) st in
  Index.messages st'
    = (Index.messages st
       ++ [Index.agent_message (Index.uuidv4 a) (JStr ("Error: " +:+ text))
             (o.["timestamp"])])%list
  ∧ (∀ m, o.["message"] = JStr m → text = m)
  ∧ (o !! "message" = None → text = "undefined")
  ∧ (∀ t p, o.["message"] = JFloat t p → text = t)
  ∧ Index.isLoading st' = false
  ∧ Index.hasError st' = true
  ∧ Index.screenshot st' = Index.screenshot st
  ∧ Index.status st' = Index.status st
  ∧ Index.isConnected st' = Index.isConnected st.
Proof.
  intros Hm Ht _ Htext st'. subst st'.
  rewrite (onmessage_error a o st Hm Ht).
  unfold Index.case_error, Index.error_content. rewrite Htext. simpl.
  repeat split.
  - intros m Hs. rewrite Hs in Htext. by injection Htext.
  - intros Habs. unfold Js.prop in Htext. rewrite Habs in Htext.
    by injection Htext.
  - intros t p Hs. rewrite Hs in Htext. by injection Htext.
Qed.

(** X2: what a frame from the server never does: it never starts the
    loading state, never marks the page disconnected, never removes a
    screenshot or a status that is shown, and never touches the mounted
    flag or the count of connection attempts. *)
Theorem onmessage_never (a : Index.Ambient) (d : parsed) (st : Index.Home) :
  let st' := Index.onmessage a d st in
  (Index.isLoading st' = true → Index.isLoading st = true)
  ∧ (Index.isConnected st = true → Index.isConnected st' = true)
  ∧ (is_Some (Index.screenshot st) → is_Some (Index.screenshot st'))
  ∧ (is_Some (Index.status st) → is_Some (Index.status st'))
  ∧ Index.mountedRef st' = Index.mountedRef st
  ∧ Index.connectionAttempts st' = Index.connectionAttempts st.
Proof.
  intros st'. subst st'.
  onmessage_cases; repeat split; intros; try done; try congruence; eauto.
Qed.

Lemma prop_empty (k : string) : (∅ : gmap string jsval).[k] = JUndefined.
Proof. unfold Js.prop. by rewrite lookup_empty. Qed.

(** A scalar or an array is handled like an object without members. *)
Lemma onmessage_Other (a : Index.Ambient) (st : Index.Home) :
  Index.onmessage a Other st = Index.onmessage a (Object ∅) st.
Proof. reflexivity. Qed.

Lemma onmessage_object_keeps_error (a : Index.Ambient) (o : gmap string jsval)
    (st : Index.Home) :
  o.["type"] ≠ JStr "screenshot" →
  Index.hasError st = true →
  Index.hasError (Index.onmessage a (Object o) st) = true.
Proof.
  intros Hty He.
  assert (Hs : strict_eq_str (o.["type"]) "screenshot" = false).
  { destruct (strict_eq_str (o.["type"]) "screenshot") eqn:E; [|done].
    by apply strict_eq_str_true in E. }
  onmessage_cases; try done; congruence.
Qed.

Lemma onmessage_other_keeps_error (a : Index.Ambient) (d : parsed)
    (st : Index.Home) :
  (∀ o, d = Object o → o.["type"] ≠ JStr "screenshot") →
  Index.hasError st = true →
  Index.hasError (Index.onmessage a d st) = true.
Proof.
  intros Hty He. destruct d as [| |o|].
  - done.
  - unfold Index.onmessage, Index.catch_block.
    by destruct (Index.mountedRef st) eqn:Hm.
  - by apply onmessage_object_keeps_error; [apply Hty |].
  - rewrite onmessage_Other. apply onmessage_object_keeps_error; [| done].
    by rewrite prop_empty.
Qed.

(** X3: the error flag is lowered by one event only: a screenshot object
    whose [image_data] passes the test of the handler (true as a
    condition, with a length greater than 0: a non-empty string, a
    non-empty array or an object), which is then the screenshot shown. *)
Theorem error_flag_lowered_only_by_screenshot (a : Index.Ambient) (d : parsed)
    (st : Index.Home) :
  Index.hasError st = true →
  Index.hasError (Index.onmessage a d st) = false →
  ∃ o, d = Object o ∧ o.["type"] = JStr "screenshot"
    ∧ Index.has_image (o.["image_data"]) = true
    ∧ ((∃ s, o.["image_data"] = JStr s ∧ s ≠ "")
       ∨ (∃ l, o.["image_data"] = JArr l ∧ l ≠ [])
       ∨ (∃ m, o.["image_data"] = JObj m))
    ∧ Index.screenshot (Index.onmessage a d st)
        = Some (ScreenshotData.mk (o.["image_data"]) (o.["timestamp"])).
Proof.
  intros He Hc.
  destruct (Index.mountedRef st) eqn:Hm;
    [| rewrite onmessage_unmounted in Hc by done; congruence].
  assert (∃ o, d = Object o ∧ o.["type"] = JStr "screenshot") as (o & -> & Ht).
  { destruct d as [| |o|];
      try (rewrite onmessage_other_keeps_error in Hc;
           [discriminate | by intros ? [=] | done]).
    destruct (decide (o.["type"] = JStr "screenshot")) as [Ht|Ht]; [eauto |].
    rewrite onmessage_other_keeps_error in Hc; [discriminate | | done].
    by intros ? [= <-]. }
  destruct (Index.has_image (o.["image_data"])) eqn:Hg.
  - exists o. rewrite (onmessage_screenshot_image a o st Hm Ht Hg).
    repeat split; try done. by apply has_image_scalar.
  - exfalso.
    destruct (onmessage_screenshot_no_image a o st Hm Ht Hg) as [E | E];
      rewrite E in Hc; simpl in Hc; [congruence |].
    unfold Index.catch_block in Hc. simpl in Hc. rewrite Hm in Hc. done.
Qed.

Lemma error_event_handling_witness :
  Index.mountedRef Sample.home = true
  ∧ Sample.error_event.["type"] = JStr "error"
  ∧ wf (Sample.error_event.["message"]) = true
  ∧ to_template (Sample.error_event.["message"]) = Some "navigation timed out"
  ∧ Index.messages
      (Index.onmessage Sample.ambient (Object Sample.error_event) Sample.home)
    = [Index.agent_message "id-1" (JStr "Error: navigation timed out")
         (JNum 1700000000000)].
Proof.
  assert (Ht : Sample.error_event.["type"] = JStr "error")
    by (vm_compute; reflexivity).
  assert (Hw : wf (Sample.error_event.["message"]) = true)
    by (vm_compute; reflexivity).
  assert (Hp : to_template (Sample.error_event.["message"])
               = Some "navigation timed out")
    by (vm_compute; reflexivity).
  split; [reflexivity |]. split; [exact Ht |]. split; [exact Hw |].
  split; [exact Hp |].
  rewrite (proj1 (error_event_handling Sample.ambient Sample.error_event
                    Sample.home "navigation timed out" eq_refl Ht Hw Hp)).
  vm_compute. reflexivity.
Defined.

Lemma onmessage_never_witness :
  Index.isConnected Sample.home = true
  ∧ Index.isConnected
      (Index.onmessage Sample.ambient (Object Sample.error_event) Sample.home)
    = true.
Proof.
  split; [reflexivity |].
  exact (proj1 (proj2 (onmessage_never Sample.ambient (Object Sample.error_event)
                         Sample.home)) eq_refl).
Defined.

Lemma error_flag_lowered_only_by_screenshot_witness :
  Index.hasError Sample.home = true
  ∧ Index.hasError
      (Index.onmessage Sample.ambient (Object Sample.screenshot_wire) Sample.home)
    = false
  ∧ ∃ o, Object Sample.screenshot_wire = Object o
      ∧ Index.has_image (o.["image_data"]) = true.
Proof.
  assert (Hc : Index.hasError
                 (Index.onmessage Sample.ambient (Object Sample.screenshot_wire)
                    Sample.home) = false)
    by (vm_compute; reflexivity).
  split; [reflexivity |]. split; [exact Hc |].
  destruct (error_flag_lowered_only_by_screenshot Sample.ambient
              (Object Sample.screenshot_wire) Sample.home eq_refl Hc)
    as (o & Hd & _ & Hg & _).
  exists o. by split.
Defined.

(** X4: a frame from the server adds at most one message to the history,
    at its end, and that message is an agent message; the messages that
    were there stay in place. *)
Theorem onmessage_appends (a : Index.Ambient) (d : parsed) (st : Index.Home) :
  ∃ l, Index.messages (Index.onmessage a d st) = (Index.messages st ++ l)%list
    ∧ (length l ≤ 1)%nat
    ∧ Forall (λ m, ChatMessage.type m = agent) l.
Proof.
  onmessage_cases;
    first [ by (exists []; rewrite app_nil_r; repeat split; [simpl; lia | constructor])
          | by (eexists [_]; repeat split; [simpl; lia | repeat constructor]) ].
Qed.

(** X5: a frame that cannot be processed is reported: the JSON [null], and
    a screenshot object whose [image_data] is missing or [null], make the
    handler throw, and the page then shows the agent message
    "Error: Failed to process response from server.", raises the error
    flag, stops loading and keeps the screenshot.  The time of the last
    update is set for the screenshot object and not for [null]. *)
Theorem processing_failure (a : Index.Ambient) (d : parsed) (st : Index.Home) :
  Index.mountedRef st = true →
  d = Null
  ∨ (∃ o, d = Object o ∧ o.["type"] = JStr "screenshot"
       ∧ (o.["image_data"] = JUndefined ∨ o.["image_data"] = JNull)) →
  let st' := Index.onmessage a d st in
  Index.messages st'
    = (Index.messages st
       ++ [Index.agent_message (Index.uuidv4' a)
             (JStr "Error: Failed to process response from server.")
             (JNum (Index.Date_now' a))])%list
  ∧ Index.hasError st' = true
  ∧ Index.isLoading st' = false
  ∧ Index.screenshot st' = Index.screenshot st
  ∧ Index.lastUpdateTime st'
      = match d with Null => Index.lastUpdateTime st | _ => Index.Date_now a end.
Proof.
  intros Hm [-> | (o & -> & Ht & Himg)] st'; subst st'.
  - unfold Index.onmessage, Index.catch_block. rewrite ?Hm. simpl.
    by rewrite ?Hm.
  - rewrite (onmessage_screenshot a o st Hm Ht). unfold Index.case_screenshot.
    destruct Himg as [-> | ->]; simpl; unfold Index.catch_block; simpl;
      by rewrite ?Hm.
Qed.

Lemma processing_failure_witness :
  Index.mountedRef Sample.idle = true
  ∧ Sample.screenshot_null.["type"] = JStr "screenshot"
  ∧ Sample.screenshot_null.["image_data"] = JNull
  ∧ Index.hasError
      (Index.onmessage Sample.ambient (Object Sample.screenshot_null) Sample.idle)
    = true.
Proof.
  assert (Ht : Sample.screenshot_null.["type"] = JStr "screenshot")
    by (vm_compute; reflexivity).
  assert (Hn : Sample.screenshot_null.["image_data"] = JNull)
    by (vm_compute; reflexivity).
  split; [reflexivity |]. split; [exact Ht |]. split; [exact Hn |].
  exact (proj1 (proj2 (processing_failure Sample.ambient
                         (Object Sample.screenshot_null) Sample.idle eq_refl
                         (or_intror (ex_intro _ Sample.screenshot_null
                            (conj eq_refl (conj Ht (or_intror Hn)))))))).
Defined.

(** X6: an event of a type the handler has no case for, an [action] event
    among them, only sets the time of the last update, provided the
    handler can print what it logs: the [type] and, for an [action]
    event, the [action].  When the [type] cannot be printed the handler
    throws before it sets the time, and when the [action] of an [action]
    event cannot be printed it throws after; the failure is then
    reported by the [catch] block.  A frame that is a scalar or an array
    only sets the time. *)
Theorem unhandled_event_sets_time_only (a : Index.Ambient)
    (o : gmap string jsval) (st : Index.Home) :
  Index.mountedRef st = true →
  o.["type"] ≠ JStr "ping" → o.["type"] ≠ JStr "status" →
  o.["type"] ≠ JStr "screenshot" → o.["type"] ≠ JStr "message" →
  o.["type"] ≠ JStr "error" →
  let now := Index.Date_now a in
  (is_Some (to_template (o.["type"])) →
   (o.["type"] = JStr "action" → is_Some (to_template (o.["action"]))) →
   Index.onmessage a (Object o) st = Index.setLastUpdateTime now st)
  ∧ (to_template (o.["type"]) = None →
     Index.onmessage a (Object o) st = Index.catch_block a st)
  ∧ (o.["type"] = JStr "action" → to_template (o.["action"]) = None →
     Index.onmessage a (Object o) st
     = Index.catch_block a (Index.setLastUpdateTime now st))
  ∧ Index.onmessage a Other st = Index.setLastUpdateTime now st.
Proof.
  intros Hm H1 H2 H3 H4 H5 now. subst now.
  assert (Hf : ∀ (o' : gmap string jsval) lit,
            o'.["type"] ≠ JStr lit → strict_eq_str (o'.["type"]) lit = false).
  { intros o' lit Hne. destruct (strict_eq_str (o'.["type"]) lit) eqn:E; [|done].
    by apply strict_eq_str_true in E. }
  split; [| split; [| split]].
  - intros [t Ht] Hact. unfold Index.onmessage, Index.try_object.
    rewrite Hm, Ht. simpl. rewrite !Hf by done. simpl.
    destruct (strict_eq_str (o.["type"]) "action") eqn:E; [| done].
    apply strict_eq_str_true in E. by destruct (Hact E) as [t' ->].
  - intros Ht. unfold Index.onmessage, Index.try_object. by rewrite Hm, Ht.
  - intros Ht Hact. unfold Index.onmessage, Index.try_object.
    by rewrite Hm, Ht, Hact.
  - rewrite onmessage_Other. unfold Index.onmessage, Index.try_object.
    rewrite Hm. simpl. by rewrite !prop_empty.
Qed.

Lemma unhandled_event_sets_time_only_witness :
  Index.mountedRef Sample.idle = true
  ∧ Sample.action_event.["type"] = JStr "action"
  ∧ Index.onmessage Sample.ambient (Object Sample.action_event) Sample.idle
    = Index.setLastUpdateTime 1700000000500 Sample.idle
  ∧ to_template (Sample.unprintable_type.["type"]) = None
  ∧ Index.onmessage Sample.ambient (Object Sample.unprintable_type) Sample.idle
    = Index.catch_block Sample.ambient Sample.idle
  ∧ to_template (Sample.unprintable_action.["action"]) = None
  ∧ Index.onmessage Sample.ambient (Object Sample.unprintable_action) Sample.idle
    = Index.catch_block Sample.ambient
        (Index.setLastUpdateTime 1700000000500 Sample.idle).
Proof.
  assert (Ht : Sample.action_event.["type"] = JStr "action")
    by (vm_compute; reflexivity).
  assert (Hu : to_template (Sample.unprintable_type.["type"]) = None)
    by (vm_compute; reflexivity).
  assert (Hta : Sample.unprintable_action.["type"] = JStr "action")
    by (vm_compute; reflexivity).
  assert (Hua : to_template (Sample.unprintable_action.["action"]) = None)
    by (vm_compute; reflexivity).
  split; [reflexivity |]. split; [exact Ht |]. split; [| split; [exact Hu |]].
  - refine (proj1 (unhandled_event_sets_time_only Sample.ambient
                     Sample.action_event Sample.idle eq_refl _ _ _ _ _) _ _);
      try (rewrite Ht; discriminate).
    + rewrite Ht. by eexists.
    + intros _. vm_compute. by eexists.
  - split; [| split; [exact Hua |]].
    + refine (proj1 (proj2 (unhandled_event_sets_time_only Sample.ambient
                              Sample.unprintable_type Sample.idle eq_refl
                              _ _ _ _ _)) Hu);
        vm_compute; discriminate.
    + refine (proj1 (proj2 (proj2 (unhandled_event_sets_time_only Sample.ambient
                              Sample.unprintable_action Sample.idle eq_refl
                              _ _ _ _ _))) Hta Hua);
        rewrite Hta; discriminate.
Defined.

(* ===================================================================== *)
(** ** Connecting and reconnecting                                        *)
(* ===================================================================== *)

(** X7: [connectWebSocket] leaves a socket that is open or connecting, and
    a connection in progress, alone: the module variables stay, no attempt
    is counted, and on an open socket the page is marked connected. *)
Theorem connectWebSocket_keeps_live_socket (a : Index.Ambient)
    (g : Index.Globals) (st : Index.Home) :
  Index.globalWebSocket g = Some Index.OPEN
  ∨ Index.globalWebSocket g = Some Index.CONNECTING
  ∨ Index.connectionInProgress g = true →
  (Index.connectWebSocket a g st).1 = g
  ∧ Index.connectionAttempts (Index.connectWebSocket a g st).2
      = Index.connectionAttempts st
  ∧ Index.messages (Index.connectWebSocket a g st).2 = Index.messages st
  ∧ (Index.globalWebSocket g = Some Index.OPEN →
     Index.isConnected (Index.connectWebSocket a g st).2 = true).
Proof.
  unfold Index.connectWebSocket.
  intros [Hs | [Hs | Hp]]; try rewrite Hs; try rewrite Hp; simpl.
  - done.
  - by destruct (Index.connectionInProgress g).
  - destruct (Index.globalWebSocket g) as [[]|]; simpl; repeat split; done.
Qed.

Lemma connectWebSocket_keeps_live_socket_witness :
  Index.globalWebSocket Sample.open_socket = Some Index.OPEN
  ∧ (Index.connectWebSocket Sample.ambient Sample.open_socket Sample.idle).1
    = Sample.open_socket.
Proof.
  split; [reflexivity |].
  exact (proj1 (connectWebSocket_keeps_live_socket Sample.ambient
                  Sample.open_socket Sample.idle (or_introl eq_refl))).
Defined.

(** X8: with no socket, or one that is closing or closed, and no
    connection in progress, [connectWebSocket] makes one attempt: the
    count grows by one and is shown, the old socket is dropped, and the
    new one is connecting and in progress, unless the constructor throws,
    which leaves no socket and nothing in progress. *)
Theorem connectWebSocket_attempt (a : Index.Ambient) (g : Index.Globals)
    (st : Index.Home) :
  Index.globalWebSocket g ≠ Some Index.OPEN →
  Index.globalWebSocket g ≠ Some Index.CONNECTING →
  Index.connectionInProgress g = false →
  let count := S (Index.connectionAttemptCount g) in
  (Index.connectWebSocket a g st).1
    = (if Index.WebSocket_throws a then Index.mkGlobals None count false
       else Index.mkGlobals (Some Index.CONNECTING) count true)
  ∧ (Index.connectWebSocket a g st).2 = Index.setConnectionAttempts count st.
Proof.
  intros Ho Hc Hp count. subst count. unfold Index.connectWebSocket.
  rewrite Hp. destruct (Index.globalWebSocket g) as [[]|]; try done;
    by destruct (Index.WebSocket_throws a).
Qed.

Lemma connectWebSocket_attempt_witness :
  Index.globalWebSocket Sample.dropped_socket ≠ Some Index.OPEN
  ∧ Index.globalWebSocket Sample.dropped_socket ≠ Some Index.CONNECTING
  ∧ Index.connectionInProgress Sample.dropped_socket = false
  ∧ (Index.connectWebSocket Sample.ambient Sample.dropped_socket Sample.idle).1
    = Index.mkGlobals (Some Index.CONNECTING) 4 true.
Proof.
  assert (H1 : Index.globalWebSocket Sample.dropped_socket ≠ Some Index.OPEN)
    by discriminate.
  assert (H2 : Index.globalWebSocket Sample.dropped_socket
               ≠ Some Index.CONNECTING) by discriminate.
  split; [exact H1 |]. split; [exact H2 |]. split; [reflexivity |].
  exact (proj1 (connectWebSocket_attempt Sample.ambient Sample.dropped_socket
                  Sample.idle H1 H2 eq_refl)).
Defined.

(** X9: two calls of [connectWebSocket] in a row open one socket: when the
    constructor did not throw, a second call changes nothing. *)
Theorem connectWebSocket_twice (a a' : Index.Ambient) (g : Index.Globals)
    (st : Index.Home) :
  Index.WebSocket_throws a = false →
  Index.connectWebSocket a' (Index.connectWebSocket a g st).1
                            (Index.connectWebSocket a g st).2
  = Index.connectWebSocket a g st.
Proof.
  intros Hth. unfold Index.connectWebSocket at 2 3. rewrite Hth.
  destruct (Index.globalWebSocket g) as [[]|] eqn:Hs;
    destruct (Index.connectionInProgress g) eqn:Hp; simpl;
    unfold Index.connectWebSocket; simpl; rewrite ?Hs, ?Hp, ?Hth; done.
Qed.

Lemma connectWebSocket_twice_witness :
  Index.WebSocket_throws Sample.ambient = false
  ∧ Index.connectWebSocket Sample.ambient
      (Index.connectWebSocket Sample.ambient Sample.no_socket Sample.idle).1
      (Index.connectWebSocket Sample.ambient Sample.no_socket Sample.idle).2
    = Index.connectWebSocket Sample.ambient Sample.no_socket Sample.idle.
Proof.
  split; [reflexivity |].
  exact (connectWebSocket_twice Sample.ambient Sample.ambient Sample.no_socket
           Sample.idle eq_refl).
Defined.

(** X10: the reconnect delay is two seconds per attempt counted, plus two,
    and never more than thirty seconds: it lies between 2000 and 30000,
    grows with the count, and stays at 30000 from fourteen attempts on. *)
Theorem reconnectDelay_bounds (g g' : Index.Globals) :
  2000 ≤ Index.reconnectDelay g ≤ 30000
  ∧ ((Index.connectionAttemptCount g ≤ 14)%nat →
     Index.reconnectDelay g
       = 2000 * (Z.of_nat (Index.connectionAttemptCount g) + 1))
  ∧ ((14 ≤ Index.connectionAttemptCount g)%nat → Index.reconnectDelay g = 30000)
  ∧ ((Index.connectionAttemptCount g ≤ Index.connectionAttemptCount g')%nat →
     Index.reconnectDelay g ≤ Index.reconnectDelay g').
Proof. unfold Index.reconnectDelay. repeat split; intros; lia. Qed.

Lemma reconnectDelay_bounds_witness :
  (Index.connectionAttemptCount Sample.dropped_socket ≤ 14)%nat
  ∧ Index.reconnectDelay Sample.dropped_socket = 8000.
Proof.
  assert (H : (Index.connectionAttemptCount Sample.dropped_socket ≤ 14)%nat)
    by (simpl; lia).
  split; [exact H |].
  rewrite (proj1 (proj2 (reconnectDelay_bounds Sample.dropped_socket
                           Sample.dropped_socket)) H).
  reflexivity.
Defined.

(** X11: [ws.onclose] marks the page disconnected and nothing in progress.
    It sets the reconnect timer only after a closure whose code is not
    1000, on a mounted page, with no timer pending; a pending timer is
    never replaced, so there is one reconnect timer at most.  Messages,
    flags and the attempt count stay. *)
Theorem onclose_schedule (code : Z) (g : Index.Globals) (ref : option Z)
    (st : Index.Home) :
  let r := Index.onclose code g ref st in
  r.1.1 = Index.mkGlobals (Index.globalWebSocket g)
            (Index.connectionAttemptCount g) false
  ∧ r.2 = Index.setIsConnected false st
  ∧ (code = 1000 ∨ is_Some ref ∨ Index.mountedRef st = false → r.1.2 = ref)
  ∧ (code ≠ 1000 → ref = None → Index.mountedRef st = true →
     r.1.2 = Some (Index.reconnectDelay g)).
Proof.
  intros r. subst r. unfold Index.onclose.
  destruct (Z.eqb_spec code 1000) as [->|Hc]; destruct ref as [d|];
    destruct (Index.mountedRef st) eqn:Hm; simpl;
    repeat split; try done;
    try (intros [? | [[? ?] | ?]]; done).
Qed.

Lemma onclose_schedule_witness :
  (1006 : Z) ≠ 1000
  ∧ Index.mountedRef Sample.idle = true
  ∧ (Index.onclose 1006 Sample.dropped_socket None Sample.idle).1.2 = Some 8000.
Proof.
  assert (Hc : (1006 : Z) ≠ 1000) by discriminate.
  split; [exact Hc |]. split; [reflexivity |].
  exact (proj2 (proj2 (proj2 (onclose_schedule 1006 Sample.dropped_socket None
                                Sample.idle))) Hc eq_refl eq_refl).
Defined.

(** X12: [ws.onerror] is silent during the first two attempts and on an
    unmounted page; from the third attempt on it appends the agent message
    about the failed connection, stops loading and raises the error
    flag. *)
Theorem onerror_threshold (a : Index.Ambient) (g : Index.Globals)
    (st : Index.Home) :
  ((Index.connectionAttemptCount g ≤ 2)%nat ∨ Index.mountedRef st = false →
   Index.onerror a g st = st)
  ∧ ((2 < Index.connectionAttemptCount g)%nat → Index.mountedRef st = true →
     Index.messages (Index.onerror a g st)
       = (Index.messages st
          ++ [Index.agent_message (Index.uuidv4 a)
                (JStr "Error: Connection failed after multiple attempts. Check server status.")
                (JNum (Index.Date_now a))])%list
     ∧ Index.isLoading (Index.onerror a g st) = false
     ∧ Index.hasError (Index.onerror a g st) = true
     ∧ Index.screenshot (Index.onerror a g st) = Index.screenshot st).
Proof.
  unfold Index.onerror. split.
  - intros [Hle | Hm].
    + apply Nat.ltb_ge in Hle. by rewrite Hle.
    + rewrite Hm. by rewrite andb_false_r.
  - intros Hlt Hm. apply Nat.ltb_lt in Hlt. by rewrite Hlt, Hm.
Qed.

Lemma onerror_threshold_witness :
  (2 < Index.connectionAttemptCount Sample.dropped_socket)%nat
  ∧ Index.mountedRef Sample.idle = true
  ∧ Index.hasError (Index.onerror Sample.ambient Sample.dropped_socket Sample.idle)
    = true.
Proof.
  assert (H : (2 < Index.connectionAttemptCount Sample.dropped_socket)%nat)
    by (simpl; lia).
  split; [exact H |]. split; [reflexivity |].
  exact (proj1 (proj2 (proj2 (proj2 (onerror_threshold Sample.ambient
                                       Sample.dropped_socket Sample.idle) H
                                eq_refl)))).
Defined.




(** X14: once a socket has opened, the attempts are forgotten: the count
    is 0 again, also on the page, and a drop that follows is retried
    after two seconds, whatever the count was. *)
Theorem open_resets_backoff (code : Z) (p : Page.t) :
  is_Some (Index.globalWebSocket (Page.globals p)) →
  Page.reconnectTimeoutRef p = None →
  Index.mountedRef (Page.home p) = true →
  code ≠ 1000 →
  let q := Page.react Page.Opened p in
  Page.globals q = Index.mkGlobals (Some Index.OPEN) 0 false
  ∧ Index.isConnected (Page.home q) = true
  ∧ Index.connectionAttempts (Page.home q) = 0%nat
  ∧ Page.reconnectTimeoutRef (Page.react (Page.Closed code) q) = Some 2000
  ∧ Index.isConnected (Page.home (Page.react (Page.Closed code) q)) = false.
Proof.
  intros [r Hs] Href Hm Hc q. subst q. destruct p as [g ref st n rs fs].
  simpl in *. subst ref. rewrite Hs. unfold Index.with_readyState. rewrite Hs.
  simpl. apply Z.eqb_neq in Hc. unfold Index.onclose. simpl. rewrite Hc, Hm.
  done.
Qed.

Lemma open_resets_backoff_witness :
  let p := Page.mk (Index.mkGlobals (Some Index.CONNECTING) 7 true) None
             Sample.idle 0 [] [] in
  is_Some (Index.globalWebSocket (Page.globals p))
  ∧ Index.mountedRef (Page.home p) = true
  ∧ Page.reconnectTimeoutRef
      (Page.react (Page.Closed 1006) (Page.react Page.Opened p)) = Some 2000.
Proof.
  intros p.
  assert (Hs : is_Some (Index.globalWebSocket (Page.globals p))) by (by eexists).
  assert (Hc : (1006 : Z) ≠ 1000) by discriminate.
  split; [exact Hs |]. split; [reflexivity |].
  exact (proj1 (proj2 (proj2 (proj2 (open_resets_backoff 1006 p Hs eq_refl
                                       eq_refl Hc))))).
Defined.

(** X15: unmounting keeps the socket, and an instance of [Home] that is
    mounted afterwards finds it: the module variables are as they were
    and no attempt is counted.  The new instance starts with an empty
    history, no screenshot and no status, is mounted, and has no
    reconnect timer.  With an open socket it sets no connection timer and
    is marked connected; but the handlers of the socket are still those
    of the instance that is gone, so a frame that arrives on it changes
    nothing on the new instance.  With no socket, or one closing or
    closed, the new instance sets one connection timer, of at most five
    seconds.  The second run of the mount effect on one instance, as in
    the strict mode of development, keeps the module variables and the
    history and leaves the instance mounted with no reconnect timer. *)
Theorem remount_reuses_socket (tab : Tab.t) :
  let p := Tab.page tab in
  let g := Page.globals p in
  let q := Tab.react Tab.Replaced tab in
  Page.globals (Tab.page q) = g
  ∧ Page.reconnectTimeoutRef (Tab.page q) = None
  ∧ Index.mountedRef (Page.home (Tab.page q)) = true
  ∧ Index.messages (Page.home (Tab.page q)) = []
  ∧ Index.screenshot (Page.home (Tab.page q)) = None
  ∧ Index.status (Page.home (Tab.page q)) = None
  ∧ Index.connectionAttempts (Page.home (Tab.page q))
    = Index.connectionAttemptCount g
  ∧ Page.sent (Tab.page q) = Page.sent p
  ∧ (Index.globalWebSocket g = Some Index.OPEN →
     Page.connectTimers (Tab.page q) = 0%nat
     ∧ Index.isConnected (Page.home (Tab.page q)) = true
     ∧ ∀ a d, Tab.react (Tab.Of (Page.Frame a d)) q = q)
  ∧ (Index.globalWebSocket g ≠ Some Index.OPEN →
     Index.globalWebSocket g ≠ Some Index.CONNECTING →
     Page.connectTimers (Tab.page q) = 1%nat
     ∧ 0 ≤ Index.connectionDelay g ≤ 5000)
  ∧ (let r := Page.run [Page.Cleanup; Page.Setup] p in
     Page.globals r = g
     ∧ Page.reconnectTimeoutRef r = None
     ∧ Index.mountedRef (Page.home r) = true
     ∧ Index.messages (Page.home r) = Index.messages (Page.home p)
     ∧ Index.screenshot (Page.home r) = Index.screenshot (Page.home p)).
Proof.
  intros p g q. subst p g q. destruct tab as [[g ref st n rs fs] stale orphans].
  unfold Page.run. simpl.
  unfold Index.mount_effect, Index.connectionDelay, Index.created.
  destruct (Index.globalWebSocket g) as [[]|] eqn:Hs; simpl;
    repeat split; try done; try (destruct (_ =? _)%nat; lia).
Qed.

Lemma remount_reuses_socket_witness :
  let tab := Tab.mk (Page.mk Sample.open_socket None Sample.showing 0 [] [])
               false [] in
  Index.globalWebSocket (Page.globals (Tab.page tab)) = Some Index.OPEN
  ∧ Index.isConnected (Page.home (Tab.page (Tab.react Tab.Replaced tab))) = true
  ∧ Tab.react (Tab.Of (Page.Frame Sample.ambient (Object Sample.screenshot_wire)))
      (Tab.react Tab.Replaced tab)
    = Tab.react Tab.Replaced tab.
Proof.
  intros tab. split; [reflexivity |].
  destruct (remount_reuses_socket tab)
    as (_ & _ & _ & _ & _ & _ & _ & _ & Hopen & _).
  destruct (Hopen eq_refl) as (_ & Hc & Hframe).
  split; [exact Hc |]. exact (Hframe Sample.ambient (Object Sample.screenshot_wire)).
Defined.

(** X16: an unmounted page is inert: frames, socket errors and both kinds
    of connection timer leave the component state and the module
    variables as they are, nothing is sent, and a socket that closes sets
    no reconnect timer. *)
Theorem unmounted_page_is_inert (e : Page.event) (p : Page.t) :
  Index.mountedRef (Page.home p) = false →
  match e with
  | Page.Frame _ _ | Page.Failed _ | Page.ReconnectTimer _ | Page.ConnectTimer _ =>
      Page.home (Page.react e p) = Page.home p
      ∧ Page.globals (Page.react e p) = Page.globals p
      ∧ Page.sent (Page.react e p) = Page.sent p
  | Page.Closed _ =>
      Page.reconnectTimeoutRef (Page.react e p) = Page.reconnectTimeoutRef p
      ∧ Index.messages (Page.home (Page.react e p)) = Index.messages (Page.home p)
  | _ => True
  end.
Proof.
  intros Hm. destruct p as [g ref st n rs fs]. simpl in Hm.
  destruct e as [a d| |code|a|a| |a| |a form|a]; simpl; try done.
  - by rewrite onmessage_unmounted.
  - destruct (Index.globalWebSocket g) eqn:Hs; [| done].
    unfold Index.onclose. rewrite Hm, andb_false_r. done.
  - unfold Index.onerror. rewrite Hm, andb_false_r. done.
  - destruct ref; [| done]. unfold Index.reconnect_callback. by rewrite Hm.
  - destruct n; [done |]. unfold Index.mount_callback. by rewrite Hm.
Qed.

Lemma unmounted_page_is_inert_witness :
  Index.mountedRef (Page.home Page.fresh) = false
  ∧ Page.home (Page.react (Page.Frame Sample.ambient (Object Sample.error_event))
                 Page.fresh)
    = Page.home Page.fresh.
Proof.
  split; [reflexivity |].
  exact (proj1 (unmounted_page_is_inert
                  (Page.Frame Sample.ambient (Object Sample.error_event))
                  Page.fresh eq_refl)).
Defined.

(* ===================================================================== *)
(** ** Submitting, seen from the page                                     *)
(* ===================================================================== *)

(** X17: whatever happens to the task, [handleSubmitTask] clears the
    screenshot and the error flag, so the screenshot panel shows the
    neutral placeholder; it adds one or two messages at the end of the
    history; and the page is loading afterwards exactly when a frame was
    sent, except that a submission on a socket that is not open leaves the
    loading flag as it was. *)
Theorem handleSubmitTask_state (a : Index.Ambient) (task : BrowsingTask.t)
    (g : Index.Globals) (st : Index.Home) :
  let r := Index.handleSubmitTask a task g st in
  Index.screenshot (Index.home r) = None
  ∧ Index.hasError (Index.home r) = false
  ∧ HomeView.screenshot (Index.home r)
    = Screenshot.NoImage
        (Screenshot.mkPlaceholder Screenshot.MonitorIcon "text-gray-400"
           "No screenshot available" "Enter a URL and task to start browsing" [])
  ∧ (∃ l, Index.messages (Index.home r) = (Index.messages st ++ l)%list
          ∧ (1 ≤ length l ≤ 2)%nat)
  ∧ (Index.socket_open g = true →
     Index.isLoading (Index.home r) = negb (Index.send_throws a)
     ∧ Index.sent r = if Index.send_throws a then []
                      else [Index.JSON_stringify task])
  ∧ (Index.socket_open g = false →
     Index.isLoading (Index.home r) = Index.isLoading st ∧ Index.sent r = []).
Proof.
  intros r. subst r. unfold Index.handleSubmitTask, HomeView.screenshot.
  destruct (Index.socket_open g) eqn:Ho; simpl.
  - destruct (Index.send_throws a); simpl; repeat split; try done;
      eexists; (split; [rewrite <- ?app_assoc; reflexivity | simpl; lia]).
  - unfold Index.connectWebSocket.
    destruct (Index.globalWebSocket g) as [[]|];
      destruct (Index.connectionInProgress g);
      destruct (Index.WebSocket_throws a); simpl; repeat split; try done;
      eexists; (split; [reflexivity | simpl; lia]).
Qed.

Lemma handleSubmitTask_state_witness :
  Index.socket_open Sample.open_socket = true
  ∧ Index.isLoading
      (Index.home (Index.handleSubmitTask Sample.ambient Sample.task
                     Sample.open_socket Sample.home)) = true.
Proof.
  split; [reflexivity |].
  exact (proj1 (proj1 (proj2 (proj2 (proj2 (proj2
           (handleSubmitTask_state Sample.ambient Sample.task
              Sample.open_socket Sample.home))))) eq_refl)).
Defined.

(** X18: a task submitted while the socket is not open is held for two
    seconds.  If the socket has opened by then, the task is sent, once,
    and the page is loading; if not, nothing is sent, the history gets
    the message that the server could not be reached, and no further
    retry is set: the task is dropped. *)
Theorem offline_submit (a a' : Index.Ambient) (form : TaskInput.State)
    (p : Page.t) :
  TaskInput.url form ≠ "" → TaskInput.instruction form ≠ "" →
  Index.socket_open (Page.globals p) = false →
  Page.retries p = [] →
  let task := BrowsingTask.mk (TaskInput.url form) (TaskInput.instruction form) in
  let q := Page.react (Page.Submit a form) p in
  Page.retries q = [task] ∧ Page.sent q = Page.sent p
  ∧ (∀ later,
       Page.retries later = Page.retries q →
       let z := Page.react (Page.RetryTimer a') later in
       Page.retries z = []
       ∧ (Index.socket_open (Page.globals later) = false →
          Page.sent z = Page.sent later
          ∧ Index.messages (Page.home z)
            = (Index.messages (Page.home later)
               ++ [Index.agent_message (Index.uuidv4 a')
                     (JStr "Error: Could not connect to server. Please try again.")
                     (JNum (Index.Date_now a'))])%list))
  ∧ (∀ later,
       Page.retries later = Page.retries q →
       Index.socket_open (Page.globals later) = true →
       Index.send_throws a' = false →
       let z := Page.react (Page.RetryTimer a') later in
       Page.retries z = []
       ∧ Page.sent z = (Page.sent later ++ [Index.JSON_stringify task])%list
       ∧ Index.isLoading (Page.home z) = true).
Proof.
  intros Hu Hi Ho Hr task q. subst q task.
  assert (Hsub : TaskInput.handleSubmit form
                 = Some (BrowsingTask.mk (TaskInput.url form)
                           (TaskInput.instruction form))).
  { unfold TaskInput.handleSubmit.
    apply truthy_string in Hu. apply truthy_string in Hi. by rewrite Hu, Hi. }
  assert (Hq : Page.retries (Page.react (Page.Submit a form) p)
               = [BrowsingTask.mk (TaskInput.url form) (TaskInput.instruction form)]
             ∧ Page.sent (Page.react (Page.Submit a form) p) = Page.sent p).
  { simpl. unfold TaskInput.submit. rewrite Hsub.
    unfold Page.after_outcome, Index.handleSubmitTask. rewrite Ho, Hr. simpl.
    destruct (Index.connectWebSocket a _ _). simpl. by rewrite app_nil_r. }
  destruct Hq as [Hq1 Hq2]. split; [done |]. split; [done |]. split.
  - intros later Hl z. subst z. simpl. rewrite Hl, Hq1.
    unfold Page.after_outcome. rewrite retry_callback_timeout. simpl.
    split; [done |]. intros Hno. unfold Index.retry_callback. rewrite Hno.
    simpl. by rewrite app_nil_r.
  - intros later Hl Hopen Hsend z. subst z. simpl. rewrite Hl, Hq1.
    unfold Page.after_outcome. rewrite retry_callback_timeout. simpl.
    unfold Index.retry_callback, Index.handleSubmitTask.
    rewrite Hopen, Hsend. simpl. done.
Qed.

Lemma offline_submit_witness :
  let p := Page.mk Sample.no_socket None Sample.idle 0 [] [] in
  TaskInput.url Sample.form ≠ "" ∧ TaskInput.instruction Sample.form ≠ ""
  ∧ Index.socket_open (Page.globals p) = false
  ∧ Page.retries (Page.react (Page.Submit Sample.ambient Sample.form) p)
    = [Sample.task].
Proof.
  intros p.
  assert (Hu : TaskInput.url Sample.form ≠ "") by discriminate.
  assert (Hi : TaskInput.instruction Sample.form ≠ "") by discriminate.
  split; [exact Hu |]. split; [exact Hi |]. split; [reflexivity |].
  exact (proj1 (offline_submit Sample.ambient Sample.ambient Sample.form p
                  Hu Hi eq_refl eq_refl)).
Defined.

(** X19: the submit button is enabled exactly when the page is not
    loading, is marked connected, and both inputs are non-empty, that is
    when [handleSubmit] would hand a task on.  A submission that sends its
    frame disables the button; the status "Task completed" enables it
    again on a page that is mounted and connected. *)
Theorem submit_button_cycle (a a' : Index.Ambient) (form : TaskInput.State)
    (g : Index.Globals) (st : Index.Home) (o : gmap string jsval) :
  let task := BrowsingTask.mk (TaskInput.url form) (TaskInput.instruction form) in
  (TaskInput.submit_disabled (HomeView.taskInputProps st) form = false
   ↔ Index.isLoading st = false ∧ Index.isConnected st = true
     ∧ TaskInput.handleSubmit form = Some task)
  ∧ (TaskInput.submit_disabled (HomeView.taskInputProps st) form = false →
     Index.socket_open g = true → Index.send_throws a = false →
     Index.mountedRef st = true →
     o.["type"] = JStr "status" → o.["status"] = JStr "Task completed" →
     let r := TaskInput.submit a form g st in
     Index.sent r = [Index.JSON_stringify task]
     ∧ TaskInput.submit_disabled (HomeView.taskInputProps (Index.home r)) form
       = true
     ∧ TaskInput.submit_disabled
         (HomeView.taskInputProps (Index.onmessage a' (Object o) (Index.home r)))
         form = false).
Proof.
  intros task. subst task.
  assert (Hiff : TaskInput.submit_disabled (HomeView.taskInputProps st) form = false
     ↔ Index.isLoading st = false ∧ Index.isConnected st = true
       ∧ TaskInput.handleSubmit form
         = Some (BrowsingTask.mk (TaskInput.url form) (TaskInput.instruction form))).
  { unfold TaskInput.submit_disabled, TaskInput.handleSubmit,
      HomeView.taskInputProps. simpl.
    destruct (Index.isLoading st), (Index.isConnected st),
      (negb (String.eqb (TaskInput.url form) "")),
      (negb (String.eqb (TaskInput.instruction form) "")); simpl;
      split; try done; by intros (? & ? & ?). }
  split; [exact Hiff |].
  intros Hen Ho Hsend Hm Ht Hs r. subst r.
  apply Hiff in Hen as (Hl & Hc & Hsub).
  unfold TaskInput.submit. rewrite Hsub.
  assert (Hm' : Index.mountedRef
                  (Index.home (Index.handleSubmitTask a
                     (BrowsingTask.mk (TaskInput.url form)
                        (TaskInput.instruction form)) g st)) = true).
  { unfold Index.handleSubmitTask. rewrite Ho, Hsend. simpl. done. }
  rewrite (onmessage_status a' o _ Hm' Ht). rewrite Hs. simpl.
  unfold Index.handleSubmitTask. rewrite Ho, Hsend. simpl.
  split; [reflexivity |]. split; [reflexivity |].
  unfold Index.case_status. rewrite Hs. simpl.
  unfold TaskInput.submit_disabled, HomeView.taskInputProps. simpl. rewrite Hc.
  unfold TaskInput.handleSubmit in Hsub. simpl in Hsub.
  destruct (String.eqb (TaskInput.url form) "");
    destruct (String.eqb (TaskInput.instruction form) ""); done.
Qed.

Lemma submit_button_cycle_witness :
  TaskInput.submit_disabled (HomeView.taskInputProps Sample.idle) Sample.form
    = false
  ∧ Sample.status_completed.["status"] = JStr "Task completed"
  ∧ TaskInput.submit_disabled
      (HomeView.taskInputProps
         (Index.home (TaskInput.submit Sample.ambient Sample.form
                        Sample.open_socket Sample.idle)))
      Sample.form = true.
Proof.
  assert (H : TaskInput.submit_disabled (HomeView.taskInputProps Sample.idle)
                Sample.form = false) by reflexivity.
  assert (Ht : Sample.status_completed.["type"] = JStr "status")
    by (vm_compute; reflexivity).
  assert (Hs : Sample.status_completed.["status"] = JStr "Task completed")
    by (vm_compute; reflexivity).
  split; [exact H |]. split; [exact Hs |].
  exact (proj1 (proj2 (proj2 (submit_button_cycle Sample.ambient Sample.ambient
                                Sample.form Sample.open_socket Sample.idle
                                Sample.status_completed)
                         H eq_refl eq_refl eq_refl Ht Hs))).
Defined.

(* ===================================================================== *)
(** ** What the panels show                                               *)
(* ===================================================================== *)

(** X20: after a screenshot event with a non-empty image on a mounted
    page, the screenshot panel shows that image as a JPEG data URL. *)
Theorem screenshot_panel_shows_image (a : Index.Ambient)
    (o : gmap string jsval) (s : string) (st : Index.Home) :
  Index.mountedRef st = true →
  o.["type"] = JStr "screenshot" → o.["image_data"] = JStr s → s ≠ "" →
  HomeView.screenshot (Index.onmessage a (Object o) st)
  = Screenshot.Img ("data:image/jpeg;base64," +:+ s).
Proof.
  intros Hm Ht Hs Hnz. unfold HomeView.screenshot.
  assert (Hg : Index.has_image (o.["image_data"]) = true)
    by (rewrite Hs; by apply has_image_string).
  rewrite (onmessage_screenshot_image a o st Hm Ht Hg), Hs. reflexivity.
Qed.

Lemma screenshot_panel_shows_image_witness :
  Index.mountedRef Sample.home = true
  ∧ Sample.screenshot_wire.["type"] = JStr "screenshot"
  ∧ Sample.screenshot_wire.["image_data"] = JStr "aGVsbG8="
  ∧ HomeView.screenshot
      (Index.onmessage Sample.ambient (Object Sample.screenshot_wire) Sample.home)
    = Screenshot.Img "data:image/jpeg;base64,aGVsbG8=".
Proof.
  assert (Ht : Sample.screenshot_wire.["type"] = JStr "screenshot")
    by (vm_compute; reflexivity).
  assert (Hs : Sample.screenshot_wire.["image_data"] = JStr "aGVsbG8=")
    by (vm_compute; reflexivity).
  split; [reflexivity |]. split; [exact Ht |]. split; [exact Hs |].
  refine (screenshot_panel_shows_image Sample.ambient Sample.screenshot_wire
            "aGVsbG8=" Sample.home eq_refl Ht Hs _).
  discriminate.
Defined.



Lemma message_views_snoc (l : list ChatMessage.t) (m : ChatMessage.t) :
  Chat.message_views (l ++ [m])
  = match Chat.message_views l, Chat.message_view m with
    | Some vs, Some v => Some (vs ++ [v])%list
    | _, _ => None
    end.
Proof.
  induction l as [|m' l IH]; simpl.
  - by destruct (Chat.message_view m).
  - destruct (Chat.message_view m') as [v'|]; [| done].
    rewrite IH. destruct (Chat.message_views l); [| done].
    by destruct (Chat.message_view m).
Qed.

Lemma includes_error_prefix (payload : string) :
  Chat.includes_error ("Error: " +:+ payload) = true.
Proof. reflexivity. Qed.

(** X22: an error event is shown as an error block.  On a mounted page
    whose chat panel renders (every content in the history and the status,
    if there is one, are strings), an error event whose [message] can be
    printed makes the chat panel render the history with one more entry,
    of class "chat-message agent-message error-message", under the heading
    of the error block, followed by the status line as it was.  An error
    event whose [message] cannot be printed makes the chat panel fail to
    render. *)
Theorem error_event_renders_as_block (a : Index.Ambient)
    (o : gmap string jsval) (st : Index.Home) (vs : list Chat.MessageView) :
  Index.mountedRef st = true →
  o.["type"] = JStr "error" →
  Chat.message_views (Index.messages st) = Some vs →
  (∀ u, Index.status st = Some u → is_Some (Chat.status_view u)) →
  let st' := Index.onmessage a (Object o) st in
  (∀ text, wf (o.["message"]) = true →
     to_template (o.["message"]) = Some text →
     let entry :=
       Chat.mkMessageView (Index.uuidv4 a)
         "chat-message agent-message error-message"
         (Chat.ErrorBlock ("Error: " +:+ text)) in
     Chat.message_views (Index.messages st') = Some (vs ++ [entry])%list
     ∧ HomeView.chat st'
       = Some (Chat.History (vs ++ [entry])%list
                 (Index.status st ≫= Chat.status_view)))
  ∧ (to_template (o.["message"]) = None → HomeView.chat st' = None).
Proof.
  intros Hm Ht Hvs Hst st'. subst st'.
  rewrite (onmessage_error a o st Hm Ht).
  unfold HomeView.chat, Index.case_error, Index.error_content. simpl.
  assert (Hne : ∀ m : ChatMessage.t,
            Chat.render (Index.messages st ++ [m])%list (Index.status st)
            = match Chat.message_views (Index.messages st ++ [m])%list with
              | None => None
              | Some ws =>
                  match Index.status st with
                  | None => Some (Chat.History ws None)
                  | Some u =>
                      match Chat.status_view u with
                      | None => None
                      | Some line => Some (Chat.History ws (Some line))
                      end
                  end
              end).
  { intros m. unfold Chat.render.
    destruct (Index.messages st ++ [m])%list eqn:E; [| done].
    by destruct (Index.messages st). }
  split.
  - intros text _ Htext. cbv zeta. rewrite Htext, Hne.
    rewrite message_views_snoc, Hvs.
    unfold Chat.message_view. cbn [ChatMessage.content ChatMessage.type
      ChatMessage.id Index.agent_message].
    rewrite includes_error_prefix. split; [done |].
    destruct (Index.status st) as [u|] eqn:Hu; [| done].
    destruct (Hst u eq_refl) as [line Hl]. simpl. by rewrite Hl.
  - intros Htext. rewrite Htext, Hne, message_views_snoc, Hvs.
    assert (Hv : Chat.message_view
                   (Index.agent_message (Index.uuidv4 a) (o.["message"])
                      (o.["timestamp"])) = None).
    { unfold Chat.message_view. simpl.
      destruct (o.["message"]) as [| |[]| | |s| |]; try done. }
    by rewrite Hv.
Qed.

Lemma error_event_renders_as_block_witness :
  Index.mountedRef Sample.idle = true
  ∧ Sample.error_event.["type"] = JStr "error"
  ∧ Chat.message_views (Index.messages Sample.idle) = Some []
  ∧ wf (Sample.error_event.["message"]) = true
  ∧ to_template (Sample.error_event.["message"]) = Some "navigation timed out"
  ∧ HomeView.chat
      (Index.onmessage Sample.ambient (Object Sample.error_event) Sample.idle)
    = Some (Chat.History
              [Chat.mkMessageView "id-1" "chat-message agent-message error-message"
                 (Chat.ErrorBlock "Error: navigation timed out")] None).
Proof.
  assert (Ht : Sample.error_event.["type"] = JStr "error")
    by (vm_compute; reflexivity).
  assert (Hp : to_template (Sample.error_event.["message"])
               = Some "navigation timed out")
    by (vm_compute; reflexivity).
  assert (Hst : ∀ u, Index.status Sample.idle = Some u →
                     is_Some (Chat.status_view u)) by (intros u [=]).
  assert (Hw : wf (Sample.error_event.["message"]) = true)
    by (vm_compute; reflexivity).
  split; [reflexivity |]. split; [exact Ht |]. split; [reflexivity |].
  split; [exact Hw |]. split; [exact Hp |].
  exact (proj2 (proj1 (error_event_renders_as_block Sample.ambient
                         Sample.error_event Sample.idle [] eq_refl Ht eq_refl Hst)
                  "navigation timed out" Hw Hp)).
Defined.

(** X23: the status line is part of the history view only: while the
    history is empty, the chat panel shows the invitation to get started,
    whatever status arrives, even one that is not a string. *)
Theorem status_hidden_without_messages (a : Index.Ambient)
    (o : gmap string jsval) (st : Index.Home) :
  Index.messages st = [] →
  o.["type"] = JStr "status" →
  HomeView.chat (Index.onmessage a (Object o) st) = Some Chat.GetStarted.
Proof.
  intros Hmsg Ht. unfold HomeView.chat.
  destruct (Index.mountedRef st) eqn:Hm.
  - rewrite (onmessage_status a o st Hm Ht). unfold Index.case_status.
    repeat match goal with
           | |- context [if ?b then _ else _] => destruct b
           end; simpl; by rewrite Hmsg.
  - rewrite onmessage_unmounted by done. by rewrite Hmsg.
Qed.

Lemma status_hidden_without_messages_witness :
  Index.messages Sample.idle = []
  ∧ Sample.status_navigating.["type"] = JStr "status"
  ∧ HomeView.chat
      (Index.onmessage Sample.ambient (Object Sample.status_navigating) Sample.idle)
    = Some Chat.GetStarted.
Proof.
  assert (Ht : Sample.status_navigating.["type"] = JStr "status")
    by (vm_compute; reflexivity).
  split; [reflexivity |]. split; [exact Ht |].
  exact (status_hidden_without_messages Sample.ambient Sample.status_navigating
           Sample.idle eq_refl Ht).
Defined.

(** The chat panel renders when every message has a string content and
    the status, if there is one, is a string. *)
Lemma chat_renders (st : Index.Home) :
  is_Some (Chat.message_views (Index.messages st)) →
  (∀ u, Index.status st = Some u → is_Some (Chat.status_view u)) →
  is_Some (HomeView.chat st).
Proof.
  intros [vs Hvs] Hst. unfold HomeView.chat, Chat.render. rewrite Hvs.
  destruct (Index.messages st); [by eexists |].
  destruct (Index.status st) as [u|]; [| by eexists].
  destruct (Hst u eq_refl) as [line Hl]. rewrite Hl. by eexists.
Qed.

(** X24: rendering the chat panel throws on a content or a status that is
    not a string, and the handler stores what arrives.  So a message event
    whose [content] is missing or not a string makes the chat panel fail
    to render; and as long as the message events carry a string [content],
    the status events a string [status] and the error events a [message]
    that can be printed, a page whose messages and status are strings
    stays that way, and its chat panel renders. *)
Theorem chat_panel_renders (a : Index.Ambient) (d : parsed) (st : Index.Home) :
  (∀ o, d = Object o → Index.mountedRef st = true →
     o.["type"] = JStr "message" →
     WebSocketUpdate.is_string (o.["content"]) = false →
     HomeView.chat (Index.onmessage a d st) = None)
  ∧ ((∀ o, d = Object o →
        (o.["type"] = JStr "message" →
         WebSocketUpdate.is_string (o.["content"]) = true)
        ∧ (o.["type"] = JStr "status" →
           WebSocketUpdate.is_string (o.["status"]) = true)
        ∧ (o.["type"] = JStr "error" →
           is_Some (to_template (o.["message"])))) →
     is_Some (Chat.message_views (Index.messages st)) →
     (∀ u, Index.status st = Some u → is_Some (Chat.status_view u)) →
     let st' := Index.onmessage a d st in
     is_Some (Chat.message_views (Index.messages st'))
     ∧ (∀ u, Index.status st' = Some u → is_Some (Chat.status_view u))
     ∧ is_Some (HomeView.chat st')).
Proof.
  split.
  - intros o -> Hm Ht Hc. unfold HomeView.chat.
    assert (Hmsg : Index.messages (Index.onmessage a (Object o) st)
              = (Index.messages st
                 ++ [Index.agent_message (Index.uuidv4 a) (o.["content"])
                       (o.["timestamp"])])%list).
    { unfold Index.onmessage, Index.try_object. by rewrite Hm, Ht. }
    rewrite Hmsg. unfold Chat.render. rewrite message_views_snoc.
    assert (Hv : Chat.message_view
                   (Index.agent_message (Index.uuidv4 a) (o.["content"])
                      (o.["timestamp"])) = None).
    { unfold Chat.message_view. simpl. by destruct (o.["content"]). }
    rewrite Hv.
    destruct (Index.messages st ++ _)%list eqn:E;
      [by destruct (Index.messages st) |].
    by destruct (Chat.message_views (Index.messages st)).
  - intros Hty [vs Hvs] Hst st'. subst st'.
    assert (Hkeep : is_Some (Chat.message_views
                               (Index.messages (Index.onmessage a d st)))
                    ∧ (∀ u, Index.status (Index.onmessage a d st) = Some u →
                            is_Some (Chat.status_view u))).
    { assert (Hstr : ∀ id v ts, WebSocketUpdate.is_string v = true →
                is_Some (Chat.message_view (Index.agent_message id v ts))).
      { intros id v ts Hv. destruct v; try discriminate.
        unfold Chat.message_view. simpl. by eexists. }
      assert (Herr : ∀ id v ts, is_Some (to_template v) →
                is_Some (Chat.message_view
                           (Index.agent_message id (Index.error_content v) ts))).
      { intros id v ts [t Hv]. unfold Index.error_content. rewrite Hv.
        unfold Chat.message_view. simpl. by eexists. }
      assert (Hsnoc : ∀ m, is_Some (Chat.message_view m) →
                is_Some (Chat.message_views (Index.messages st ++ [m]))).
      { intros m [v Hv]. rewrite message_views_snoc, Hvs, Hv. by eexists. }
      assert (Hsv : ∀ v ts, WebSocketUpdate.is_string v = true →
                is_Some (Chat.status_view (StatusUpdate.mk v ts))).
      { intros v ts Hv. destruct v; try discriminate.
        unfold Chat.status_view. simpl. by eexists. }
      assert (Heq : ∀ (o : gmap string jsval) lit,
                strict_eq_str (o.["type"]) lit = true → o.["type"] = JStr lit).
      { intros o lit. apply strict_eq_str_true. }
      assert (Hobj : ∀ o : gmap string jsval,
                (o.["type"] = JStr "message" →
                 WebSocketUpdate.is_string (o.["content"]) = true) →
                (o.["type"] = JStr "status" →
                 WebSocketUpdate.is_string (o.["status"]) = true) →
                (o.["type"] = JStr "error" →
                 is_Some (to_template (o.["message"]))) →
                is_Some (Chat.message_views
                           (Index.messages (Index.onmessage a (Object o) st)))
                ∧ (∀ u, Index.status (Index.onmessage a (Object o) st) = Some u →
                        is_Some (Chat.status_view u))).
      { intros o Hc Hs He.
        onmessage_cases;
          repeat match goal with
                 | H : strict_eq_str (_.["type"]) _ = true |- _ =>
                     apply Heq in H
                 end;
          (split;
           [ first [ exact (mk_is_Some _ _ Hvs)
                   | apply Hsnoc; first [ by apply Hstr; auto
                                        | by apply Herr; auto
                                        | unfold Chat.message_view; simpl;
                                          by eexists ] ]
           | first [ exact Hst
                   | intros u [= <-]; apply Hsv; auto ] ]). }
      destruct d as [| |o|].
      - split; [exact (mk_is_Some _ _ Hvs) | exact Hst].
      - unfold Index.onmessage, Index.catch_block.
        destruct (Index.mountedRef st); simpl;
          (split; [| exact Hst]); try exact (mk_is_Some _ _ Hvs).
        apply Hsnoc. unfold Chat.message_view. simpl. by eexists.
      - by apply Hobj; apply Hty.
      - rewrite onmessage_Other.
        apply Hobj; rewrite prop_empty; discriminate. }
    destruct Hkeep as [H1 H2]. split; [done |]. split; [done |].
    by apply chat_renders.
Qed.

Lemma chat_panel_renders_witness :
  Index.mountedRef Sample.idle = true
  ∧ Sample.message_without_content.["type"] = JStr "message"
  ∧ WebSocketUpdate.is_string (Sample.message_without_content.["content"]) = false
  ∧ HomeView.chat
      (Index.onmessage Sample.ambient (Object Sample.message_without_content)
         Sample.idle) = None.
Proof.
  assert (Ht : Sample.message_without_content.["type"] = JStr "message")
    by (vm_compute; reflexivity).
  assert (Hc : WebSocketUpdate.is_string
                 (Sample.message_without_content.["content"]) = false)
    by (vm_compute; reflexivity).
  split; [reflexivity |]. split; [exact Ht |]. split; [exact Hc |].
  exact (proj1 (chat_panel_renders Sample.ambient
                  (Object Sample.message_without_content) Sample.idle)
           Sample.message_without_content eq_refl eq_refl Ht Hc).
Defined.

(* ===================================================================== *)
(** ** The warning on restricted domains                                  *)
(* ===================================================================== *)

Lemma substring_all (s : string) : String.substring 0 (String.length s) s = s.
Proof. induction s as [|c s IH]; simpl; [done | by rewrite IH]. Qed.

Lemma replace_first_prefix (pat rep s : string) :
  String.prefix pat s = true →
  Text.replace_first pat rep s
  = rep +:+ String.substring (String.length pat)
              (String.length s - String.length pat) s.
Proof.
  intros H.
  assert (Heq : Text.replace_first pat rep s
    = if String.prefix pat s then
        rep +:+ String.substring (String.length pat)
                  (String.length s - String.length pat) s
      else match s with
           | EmptyString => EmptyString
           | String c s' => String c (Text.replace_first pat rep s')
           end) by (by destruct s).
  by rewrite Heq, H.
Qed.

Lemma replace_first_www (d : string) :
  Text.replace_first "www." "" ("www." +:+ d) = d.
Proof.
  rewrite replace_first_prefix by (by destruct d).
  cbv [append]. cbn [String.length String.substring Nat.sub].
  rewrite Nat.sub_0_r. apply substring_all.
Qed.

Lemma replace_first_absent (pat rep s : string) :
  Text.contains pat s = false → Text.replace_first pat rep s = s.
Proof.
  induction s as [|c s IH]; simpl.
  - rewrite orb_false_r. by intros ->.
  - intros H. apply orb_false_elim in H as [-> H]. by rewrite IH.
Qed.

Lemma ends_with_app (pre suffix : string) :
  Text.ends_with suffix (pre +:+ suffix) = true.
Proof.
  induction pre as [|c pre IH]; simpl.
  - destruct suffix; simpl; [done |]. by rewrite Ascii.eqb_refl, String.eqb_refl.
  - rewrite IH. apply orb_true_r.
Qed.

Lemma isRestricted_member (d : string) :
  In d TaskInput.restrictedDomains → TaskInput.isRestricted d = true.
Proof.
  intros Hin. unfold TaskInput.isRestricted. apply existsb_exists.
  exists d. split; [done |]. by rewrite String.eqb_refl.
Qed.

Lemma isRestricted_subdomain (sub d : string) :
  In d TaskInput.restrictedDomains →
  TaskInput.isRestricted (sub +:+ "." +:+ d) = true.
Proof.
  intros Hin. unfold TaskInput.isRestricted. apply existsb_exists.
  exists d. split; [done |].
  change ("." +:+ d) with (String "." d).
  replace (sub +:+ String "." d) with (sub +:+ ("." +:+ d)) by done.
  rewrite ends_with_app. apply orb_true_r.
Qed.

Lemma restricted_without_www (d : string) :
  In d TaskInput.restrictedDomains → Text.replace_first "www." "" d = d.
Proof.
  intros Hin. unfold TaskInput.restrictedDomains in Hin. simpl in Hin.
  repeat destruct Hin as [<- | Hin]; try reflexivity. destruct Hin.
Qed.

Section DomainWarningFacts.

Variable URL_hostname : string → option string.

(** X25: the form warns about a restricted domain.  For a [url] whose
    host is one of the twelve restricted domains, with or without a
    leading "www.", the warning is shown and names the domain; so it is
    for a subdomain whose name does not contain "www.".  An empty [url]
    and one the browser cannot parse hide the warning and keep the text
    of the last one. *)
Theorem restricted_domain_warning (s : TaskInput.State) (d : string) :
  In d TaskInput.restrictedDomains →
  let s' := TaskInput.check_url URL_hostname s in
  let text := λ domain,
    "Warning: " +:+ domain +:+
    " has strong anti-automation protections and may not work well with this tool. Consider using a different site for testing." in
  (TaskInput.url s ≠ "" →
   URL_hostname (TaskInput.url s) = Some d
   ∨ URL_hostname (TaskInput.url s) = Some ("www." +:+ d) →
   TaskInput.showWarning s' = true ∧ TaskInput.warningMessage s' = text d)
  ∧ (∀ sub, TaskInput.url s ≠ "" →
       URL_hostname (TaskInput.url s) = Some (sub +:+ "." +:+ d) →
       Text.contains "www." (sub +:+ "." +:+ d) = false →
       TaskInput.showWarning s' = true
       ∧ TaskInput.warningMessage s' = text (sub +:+ "." +:+ d))
  ∧ (TaskInput.url s = "" ∨ URL_hostname (TaskInput.url s) = None →
     TaskInput.showWarning s' = false
     ∧ TaskInput.warningMessage s' = TaskInput.warningMessage s)
  ∧ TaskInput.url s' = TaskInput.url s
  ∧ TaskInput.instruction s' = TaskInput.instruction s.
Proof.
  intros Hin s' text. subst s' text. unfold TaskInput.check_url.
  split; [| split; [| split]].
  - intros Hu Hhost. apply truthy_string in Hu. rewrite Hu. simpl.
    destruct Hhost as [-> | ->].
    + rewrite (restricted_without_www d Hin), (isRestricted_member d Hin). done.
    + rewrite replace_first_www, (isRestricted_member d Hin). done.
  - intros sub Hu Hhost Hwww. apply truthy_string in Hu. rewrite Hu, Hhost.
    simpl negb. cbv iota. cbv zeta.
    rewrite (replace_first_absent _ _ _ Hwww), (isRestricted_subdomain sub d Hin).
    done.
  - intros [Hu | Hnone].
    + rewrite Hu. done.
    + rewrite Hnone. by destruct (negb _).
  - destruct (negb _); [done |].
    destruct (URL_hostname _); [| done]. by destruct (TaskInput.isRestricted _).
Qed.

End DomainWarningFacts.

Lemma restricted_domain_warning_witness :
  In "chase.com" TaskInput.restrictedDomains
  ∧ TaskInput.url Sample.chase_form ≠ ""
  ∧ Sample.hostname_of (TaskInput.url Sample.chase_form)
    = Some ("www." +:+ "chase.com")
  ∧ TaskInput.showWarning (TaskInput.check_url Sample.hostname_of Sample.chase_form)
    = true.
Proof.
  assert (Hin : In "chase.com" TaskInput.restrictedDomains) by (left; reflexivity).
  assert (Hu : TaskInput.url Sample.chase_form ≠ "") by discriminate.
  assert (Hh : Sample.hostname_of (TaskInput.url Sample.chase_form)
               = Some ("www." +:+ "chase.com")) by reflexivity.
  split; [exact Hin |]. split; [exact Hu |]. split; [exact Hh |].
  exact (proj1 (proj1 (restricted_domain_warning Sample.hostname_of
                         Sample.chase_form "chase.com" Hin) Hu (or_intror Hh))).
Defined.

(* ===================================================================== *)
(** ** Sequences of events                                                *)
(* ===================================================================== *)

Lemma connectWebSocket_messages (a : Index.Ambient) (g : Index.Globals)
    (st : Index.Home) :
  Index.messages (Index.connectWebSocket a g st).2 = Index.messages st.
Proof.
  unfold Index.connectWebSocket.
  destruct (Index.globalWebSocket g) as [[]|];
    destruct (Index.connectionInProgress g);
    destruct (Index.WebSocket_throws a); reflexivity.
Qed.

Lemma handleSubmitTask_messages (a : Index.Ambient) (task : BrowsingTask.t)
    (g : Index.Globals) (st : Index.Home) :
  ∃ l, Index.messages (Index.home (Index.handleSubmitTask a task g st))
       = (Index.messages st ++ l)%list.
Proof.
  unfold Index.handleSubmitTask.
  destruct (Index.socket_open g); simpl.
  - destruct (Index.send_throws a); simpl; rewrite <- ?app_assoc; eauto.
  - pose proof (connectWebSocket_messages a g
                  (Index.setScreenshot None (Index.setHasError false st))) as H.
    destruct (Index.connectWebSocket a g _) as [g' st']. simpl in *.
    rewrite H. eauto.
Qed.

Lemma retry_callback_messages (a : Index.Ambient) (task : BrowsingTask.t)
    (g : Index.Globals) (st : Index.Home) :
  ∃ l, Index.messages (Index.home (Index.retry_callback a task g st))
       = (Index.messages st ++ l)%list.
Proof.
  unfold Index.retry_callback. destruct (Index.socket_open g).
  - apply handleSubmitTask_messages.
  - simpl. eauto.
Qed.

Lemma react_messages (e : Page.event) (p : Page.t) :
  ∃ l, Index.messages (Page.home (Page.react e p))
       = (Index.messages (Page.home p) ++ l)%list.
Proof.
  destruct p as [g ref st n rs fs].
  assert (Hnil : ∀ st', Index.messages st' = Index.messages st →
            ∃ l, Index.messages st' = (Index.messages st ++ l)%list).
  { intros st' ->. exists []. by rewrite app_nil_r. }
  destruct e as [a d| |code|a|a| |a| |a form|a]; simpl.
  - apply onmessage_messages.
  - destruct (Index.globalWebSocket g); by apply Hnil.
  - destruct (Index.globalWebSocket g); [| by apply Hnil].
    unfold Index.onclose. destruct (_ && _); by apply Hnil.
  - unfold Index.onerror. destruct (_ && _); simpl; [eauto | by apply Hnil].
  - destruct ref; [| by apply Hnil]. unfold Index.reconnect_callback.
    destruct (Index.mountedRef st); [| by apply Hnil].
    pose proof (connectWebSocket_messages a g st) as H.
    destruct (Index.connectWebSocket a g st). by apply Hnil.
  - unfold Index.mount_effect.
    destruct (Index.globalWebSocket g) as [[]|]; by apply Hnil.
  - destruct n; [by apply Hnil |]. unfold Index.mount_callback.
    destruct (Index.mountedRef st); [| by apply Hnil].
    pose proof (connectWebSocket_messages a g st) as H.
    destruct (Index.connectWebSocket a g st). by apply Hnil.
  - by apply Hnil.
  - unfold TaskInput.submit. destruct (TaskInput.handleSubmit form).
    + apply handleSubmitTask_messages.
    + by apply Hnil.
  - destruct rs as [|task rs]; [by apply Hnil |]. apply retry_callback_messages.
Qed.

Lemma run_messages (events : list Page.event) (p : Page.t) :
  ∃ l, Index.messages (Page.home (Page.run events p))
       = (Index.messages (Page.home p) ++ l)%list.
Proof.
  revert p. induction events as [|e events IH]; intros p.
  - exists []. by rewrite app_nil_r.
  - unfold Page.run. simpl. fold (Page.run events (Page.react e p)).
    destruct (IH (Page.react e p)) as [l2 H2].
    destruct (react_messages e p) as [l1 H1].
    exists (l1 ++ l2)%list. by rewrite H2, H1, app_assoc.
Qed.

Lemma tab_react_messages (e : Tab.event) (tab : Tab.t) :
  e ≠ Tab.Replaced →
  ∃ l, Index.messages (Page.home (Tab.page (Tab.react e tab)))
       = (Index.messages (Page.home (Tab.page tab)) ++ l)%list.
Proof.
  intros Hne. destruct tab as [p stale orphans].
  destruct e as [e| |a]; [| done |]; simpl.
  - destruct (Tab.is_socket_event e && stale) eqn:Hst; simpl.
    + exists []. rewrite app_nil_r.
      destruct e; simpl; try done.
      * by destruct (Index.globalWebSocket (Page.globals p)).
      * destruct (Index.globalWebSocket (Page.globals p)); [| done].
        by destruct (Index.onclose _ _ _ _) as [[? ?] ?].
    + apply react_messages.
  - exists []. rewrite app_nil_r. by destruct orphans.
Qed.

(** X26: during the life of an instance of [Home] the history is
    append-only.  Whatever the browser calls, in whatever order (frames,
    socket events, timers of this instance and of instances that are
    gone, runs of the mount effect and of its cleanup, submissions), as
    long as [Home] is not replaced by a new instance, the messages that
    were in the history stay, in place, and new ones come after them.  A
    new instance starts with an empty history. *)
Theorem history_is_append_only (events : list Tab.event) (tab : Tab.t) :
  Forall (λ e, e ≠ Tab.Replaced) events →
  (∃ l, Index.messages (Page.home (Tab.page (Tab.run events tab)))
        = (Index.messages (Page.home (Tab.page tab)) ++ l)%list)
  ∧ Index.messages
      (Page.home (Tab.page (Tab.react Tab.Replaced (Tab.run events tab)))) = [].
Proof.
  intros Hev. split.
  - revert tab. induction Hev as [|e events He Hev IH]; intros tab.
    + exists []. by rewrite app_nil_r.
    + unfold Tab.run. simpl. fold (Tab.run events (Tab.react e tab)).
      destruct (IH (Tab.react e tab)) as [l2 H2].
      destruct (tab_react_messages e tab He) as [l1 H1].
      exists (l1 ++ l2)%list. by rewrite H2, H1, app_assoc.
  - destruct (Tab.run events tab) as [[g ref st n rs fs] stale orphans]. simpl.
    unfold Index.mount_effect.
    by destruct (Index.globalWebSocket g) as [[]|].
Qed.

Lemma history_is_append_only_witness :
  let events := [Tab.Of Page.Setup; Tab.Of (Page.ConnectTimer Sample.ambient);
                 Tab.Of Page.Opened;
                 Tab.Of (Page.Frame Sample.ambient (Object Sample.message_plain));
                 Tab.Of Page.Cleanup; Tab.Of Page.Setup;
                 Tab.Of (Page.Frame Sample.ambient (Object Sample.error_event))] in
  Forall (λ e, e ≠ Tab.Replaced) events
  ∧ length (Index.messages (Page.home (Tab.page (Tab.run events Tab.fresh))))
    = 2%nat
  ∧ Index.messages
      (Page.home (Tab.page (Tab.react Tab.Replaced (Tab.run events Tab.fresh))))
    = [].
Proof.
  intros events.
  assert (Hev : Forall (λ e, e ≠ Tab.Replaced) events)
    by (repeat constructor; discriminate).
  split; [exact Hev |]. split; [reflexivity |].
  exact (proj2 (history_is_append_only events Tab.fresh Hev)).
Defined.

Lemma react_complete (e : Page.event) (p : Page.t) :
  Forall Page.complete_task (Page.sent p) →
  Forall Page.complete (Page.retries p) →
  Forall Page.complete_task (Page.sent (Page.react e p))
  ∧ Forall Page.complete (Page.retries (Page.react e p)).
Proof.
  intros Hs Hr.
  assert (Hout : ∀ r task pending,
            Page.complete task → Forall Page.complete pending →
            (∀ f, In f (Index.sent r) → f = Index.JSON_stringify task) →
            (∀ t, Index.timeout r = Some t → t = task) →
            Forall Page.complete_task (Page.sent (Page.after_outcome r pending p))
            ∧ Forall Page.complete (Page.retries (Page.after_outcome r pending p))).
  { intros r task pending [Hu Hi] Hp Hf Ht. unfold Page.after_outcome. simpl. split.
    - apply Forall_app. split; [done |]. apply Forall_forall. intros f Hin.
      apply list_elem_of_In in Hin. rewrite (Hf f Hin).
      exists (BrowsingTask.url task), (BrowsingTask.instruction task). done.
    - apply Forall_app. split; [done |].
      destruct (Index.timeout r) as [t|] eqn:E; [| constructor].
      rewrite (Ht t eq_refl). by repeat constructor. }
  destruct p as [g ref st n rs fs]. simpl in Hs, Hr.
  destruct e as [a d| |code|a|a| |a| |a form|a]; simpl; try done.
  - by destruct (Index.globalWebSocket g).
  - destruct (Index.globalWebSocket g); [| done].
    unfold Index.onclose. by destruct (_ && _).
  - destruct ref; [| done]. unfold Index.reconnect_callback.
    destruct (Index.mountedRef st); [| done].
    by destruct (Index.connectWebSocket a g st).
  - unfold Index.mount_effect. by destruct (Index.globalWebSocket g) as [[]|].
  - destruct n; [done |]. unfold Index.mount_callback.
    destruct (Index.mountedRef st); [| done].
    by destruct (Index.connectWebSocket a g st).
  - unfold TaskInput.submit.
    destruct (TaskInput.handleSubmit form) as [task|] eqn:E.
    + apply handleSubmit_Some in E as (Hu & Hi & ->).
      apply (Hout _ (BrowsingTask.mk (TaskInput.url form)
                       (TaskInput.instruction form))); try done.
      * intros f Hin. by apply handleSubmitTask_sent in Hin as [-> _].
      * intros t Ht. by apply handleSubmitTask_timeout in Ht as [-> _].
    + unfold Page.after_outcome. simpl. by rewrite !app_nil_r.
  - destruct rs as [|task rs]; [done |].
    apply Forall_cons in Hr as [Htask Hr].
    apply (Hout _ task); try done.
    + intros f Hin. by apply retry_callback_sent in Hin.
    + intros t Ht. by rewrite retry_callback_timeout in Ht.
Qed.

(** X27: over any sequence of events, every frame the page gives to
    [send] is a task with a non-empty [url] and a non-empty [instruction]
    and no other member, provided the frames sent before and the tasks
    waiting in retry timers are such; in particular from a page that was
    just loaded. *)
Theorem page_sends_complete_tasks (events : list Page.event) (p : Page.t) :
  (Forall Page.complete_task (Page.sent p) →
   Forall Page.complete (Page.retries p) →
   Forall Page.complete_task (Page.sent (Page.run events p)))
  ∧ Forall Page.complete_task (Page.sent (Page.run events Page.fresh)).
Proof.
  assert (H : ∀ es q, Forall Page.complete_task (Page.sent q) →
            Forall Page.complete (Page.retries q) →
            Forall Page.complete_task (Page.sent (Page.run es q))).
  { induction es as [|e es IH]; intros q Hs Hr; [done |].
    unfold Page.run. simpl. fold (Page.run es (Page.react e q)).
    destruct (react_complete e q Hs Hr). by apply IH. }
  split.
  - intros Hs Hr. by apply H.
  - apply H; constructor.
Qed.

Lemma page_sends_complete_tasks_witness :
  Page.sent (Page.run [Page.Setup; Page.ConnectTimer Sample.ambient; Page.Opened;
                       Page.Submit Sample.ambient Sample.form] Page.fresh)
    = [Index.JSON_stringify Sample.task]
  ∧ Forall Page.complete_task
      (Page.sent (Page.run [Page.Setup; Page.ConnectTimer Sample.ambient;
                            Page.Opened; Page.Submit Sample.ambient Sample.form]
                    Page.fresh)).
Proof.
  split; [reflexivity |].
  exact (proj2 (page_sends_complete_tasks
                  [Page.Setup; Page.ConnectTimer Sample.ambient; Page.Opened;
                   Page.Submit Sample.ambient Sample.form] Page.fresh)).
Defined.

Lemma connectWebSocket_in_progress (a : Index.Ambient) (g : Index.Globals)
    (st : Index.Home) :
  (Index.connectionInProgress g = true →
   Index.globalWebSocket g = Some Index.CONNECTING) →
  Index.connectionInProgress (Index.connectWebSocket a g st).1 = true →
  Index.globalWebSocket (Index.connectWebSocket a g st).1 = Some Index.CONNECTING.
Proof.
  unfold Index.connectWebSocket.
  destruct (Index.globalWebSocket g) as [[]|] eqn:Hs;
    destruct (Index.connectionInProgress g) eqn:Hp;
    destruct (Index.WebSocket_throws a); simpl; rewrite ?Hs, ?Hp;
    intros H1 H2; try done; by apply H1.
Qed.

Lemma react_in_progress (e : Page.event) (p : Page.t) :
  (Index.connectionInProgress (Page.globals p) = true →
   Index.globalWebSocket (Page.globals p) = Some Index.CONNECTING) →
  Index.connectionInProgress (Page.globals (Page.react e p)) = true →
  Index.globalWebSocket (Page.globals (Page.react e p)) = Some Index.CONNECTING.
Proof.
  destruct p as [g ref st n rs fs]. simpl. intros Hinv.
  destruct e as [a d| |code|a|a| |a| |a form|a]; simpl; try done.
  - destruct (Index.globalWebSocket g) eqn:Hs; simpl; [done |].
    rewrite Hs. exact Hinv.
  - destruct (Index.globalWebSocket g) eqn:Hs; simpl; [| rewrite Hs; exact Hinv].
    unfold Index.onclose. by destruct (_ && _).
  - destruct ref; [| done]. unfold Index.reconnect_callback.
    destruct (Index.mountedRef st); [| done].
    pose proof (connectWebSocket_in_progress a g st Hinv) as H.
    by destruct (Index.connectWebSocket a g st).
  - unfold Index.mount_effect.
    destruct (Index.globalWebSocket g) as [[]|] eqn:Hs; simpl;
      intros Hp; specialize (Hinv Hp); congruence.
  - destruct n; [done |]. unfold Index.mount_callback.
    destruct (Index.mountedRef st); [| done].
    pose proof (connectWebSocket_in_progress a g st Hinv) as H.
    by destruct (Index.connectWebSocket a g st).
  - unfold TaskInput.submit. destruct (TaskInput.handleSubmit form); [| done].
    unfold Index.handleSubmitTask. destruct (Index.socket_open g); simpl.
    + by destruct (Index.send_throws a).
    + pose proof (connectWebSocket_in_progress a g
                    (Index.setScreenshot None (Index.setHasError false st)) Hinv)
        as H.
      by destruct (Index.connectWebSocket a g _).
  - destruct rs as [|task rs]; [done |]. simpl.
    unfold Index.retry_callback. destruct (Index.socket_open g) eqn:Ho; [| done].
    unfold Index.handleSubmitTask. rewrite Ho. simpl.
    by destruct (Index.send_throws a).
Qed.

(** X28: reconnection cannot get stuck on the in-progress flag.  After
    any sequence of events on a page that was just loaded, the flag is
    raised only while the socket is connecting; so whenever the socket is
    neither open nor connecting, a call of [connectWebSocket] makes an
    attempt. *)
Theorem reconnect_not_blocked (events : list Page.event) (a : Index.Ambient) :
  let p := Page.run events Page.fresh in
  (Index.connectionInProgress (Page.globals p) = true →
   Index.globalWebSocket (Page.globals p) = Some Index.CONNECTING)
  ∧ (Index.globalWebSocket (Page.globals p) ≠ Some Index.OPEN →
     Index.globalWebSocket (Page.globals p) ≠ Some Index.CONNECTING →
     Index.connectionAttemptCount
       (Index.connectWebSocket a (Page.globals p) (Page.home p)).1
     = S (Index.connectionAttemptCount (Page.globals p))).
Proof.
  intros p. subst p.
  assert (Hinv : ∀ es q,
    (Index.connectionInProgress (Page.globals q) = true →
     Index.globalWebSocket (Page.globals q) = Some Index.CONNECTING) →
    Index.connectionInProgress (Page.globals (Page.run es q)) = true →
    Index.globalWebSocket (Page.globals (Page.run es q)) = Some Index.CONNECTING).
  { induction es as [|e es IH]; intros q Hq; [done |].
    unfold Page.run. simpl. fold (Page.run es (Page.react e q)).
    apply IH. by apply react_in_progress. }
  specialize (Hinv events Page.fresh (λ H, ltac:(discriminate H))).
  split; [exact Hinv |].
  intros Ho Hc. unfold Index.connectWebSocket.
  destruct (Index.connectionInProgress _) eqn:Hp; [by destruct (Hc (Hinv eq_refl)) |].
  destruct (Index.globalWebSocket _) as [[]|]; try done;
    by destruct (Index.WebSocket_throws a).
Qed.

Lemma reconnect_not_blocked_witness :
  let p := Page.run [Page.Setup; Page.ConnectTimer Sample.ambient;
                     Page.Closed 1006] Page.fresh in
  Index.globalWebSocket (Page.globals p) = Some Index.CLOSED
  ∧ Index.connectionAttemptCount
      (Index.connectWebSocket Sample.ambient (Page.globals p) (Page.home p)).1
    = 2%nat.
Proof.
  intros p. split; [reflexivity |].
  refine (proj2 (reconnect_not_blocked
                   [Page.Setup; Page.ConnectTimer Sample.ambient;
                    Page.Closed 1006] Sample.ambient) _ _);
    discriminate.
Defined.
